(** * DocSafe backend: document sanitisation and report assembly

    A shallow embedding of the two server files of the repository,
    [src/server.js] (module [Server]) and the older beta
    [src/unnamed/part_000] (module [Beta]), and the properties of the
    specification that are settled on them.

    JavaScript strings are sequences of UTF-16 code units; they are
    modelled as [list N].  Regular-expression replacements are modelled by
    a left-to-right scanner ([replace_all], [replace_first]) that is
    parameterised by a matcher: the matcher of a regular expression says,
    for the text starting at the current position, how many code units the
    leftmost-first match of that expression consumes there and what
    replaces them. *)

From Stdlib Require Import NArith ZArith String Ascii Bool Lia DecimalString.
From stdpp Require Import base list gmap.

Local Open Scope nat_scope.

(** ** JavaScript strings *)

Abbreviation jsstring := (list N).

(** The code units of an ASCII literal. *)
Fixpoint lit (s : string) : jsstring :=
  match s with
  | EmptyString => []
  | String a r => N_of_ascii a :: lit r
  end.

Definition SP : N := 32.      (* " "      *)
Definition TAB : N := 9.      (* "\t"     *)
Definition LF : N := 10.      (* "\n"     *)
Definition DOT : N := 46.     (* "."      *)
Definition LT : N := 60.      (* "<"      *)
Definition GT : N := 62.      (* ">"      *)
Definition DQ : N := 34.      (* the double quote *)
Definition DOLLAR : N := 36.  (* "$"      *)
Definition ZWSP : N := 8203.  (* U+200B, zero-width space *)

Definition is_sp (c : N) : bool := (c =? SP)%N.
Definition is_sp_tab (c : N) : bool := (c =? SP)%N || (c =? TAB)%N.

(** The class [[,;:!?]]. *)
Definition is_punct (c : N) : bool :=
  (c =? 44)%N || (c =? 59)%N || (c =? 58)%N || (c =? 33)%N || (c =? 63)%N.

(** ECMAScript WhiteSpace and LineTerminator code units: what
    [String.prototype.trim] strips and what the class [\s] matches. *)
Definition is_ws (c : N) : bool :=
  ((9 <=? c)%N && (c <=? 13)%N) || (c =? 32)%N || (c =? 160)%N || (c =? 5760)%N
  || ((8192 <=? c)%N && (c <=? 8202)%N) || (c =? 8232)%N || (c =? 8233)%N
  || (c =? 8239)%N || (c =? 8287)%N || (c =? 12288)%N || (c =? 65279)%N.

Fixpoint count_while (p : N -> bool) (s : jsstring) : nat :=
  match s with
  | c :: r => if p c then S (count_while p r) else 0
  | [] => 0
  end.

Fixpoint drop_while (p : N -> bool) (s : jsstring) : jsstring :=
  match s with
  | c :: r => if p c then drop_while p r else s
  | [] => []
  end.

(** [str.trim()] *)
Definition trim (s : jsstring) : jsstring :=
  rev (drop_while is_ws (rev (drop_while is_ws s))).

(** [str.startsWith(p)] *)
Fixpoint starts_with (p s : jsstring) : bool :=
  match p, s with
  | [], _ => true
  | a :: p', b :: s' => (a =? b)%N && starts_with p' s'
  | _ :: _, [] => false
  end.

(** [str.indexOf(p)], [None] for -1. *)
Fixpoint index_of (p s : jsstring) : option nat :=
  if starts_with p s then Some 0
  else match s with
       | [] => None
       | _ :: r => S <$> index_of p r
       end.

(** [str.includes(p)] *)
Definition includes (p s : jsstring) : bool :=
  match index_of p s with Some _ => true | None => false end.

(** ** Regular-expression replacement *)

(** A matcher gives, for the text that starts at the scanning position,
    the length of the match found there and the text that replaces it. *)
Definition matcher := jsstring -> option (nat * jsstring).

(** [str.replace(/re/g, ...)]: scan from the left; where the expression
    matches, emit the replacement and resume after the match, elsewhere
    copy one code unit and move on.  [skip] counts the code units of the
    current match that are still to be passed over.  None of the
    expressions of this program matches the empty string. *)
Fixpoint replace_from (m : matcher) (skip : nat) (s : jsstring) : jsstring :=
  match s with
  | [] => []
  | c :: r =>
      match skip with
      | S k => replace_from m k r
      | 0 =>
          match m s with
          | Some (S n, rep) => rep ++ replace_from m n r
          | _ => c :: replace_from m 0 r
          end
      end
  end.

Definition replace_all (m : matcher) (s : jsstring) : jsstring :=
  replace_from m 0 s.

(** [str.replace(/re/, ...)] without the global flag: only the leftmost
    match is replaced. *)
Fixpoint replace_first (m : matcher) (s : jsstring) : jsstring :=
  match s with
  | [] => []
  | c :: r =>
      match m s with
      | Some (n, rep) => rep ++ drop n s
      | None => c :: replace_first m r
      end
  end.

(** ** The text normaliser, [cleanTextBasic] of server.js *)

Module Normalizer.

(** [/\u200B/g] *)
Definition m_zwsp : matcher := fun s =>
  match s with
  | c :: _ => if (c =? ZWSP)%N then Some (1, []) else None
  | [] => None
  end.

(** [/[ \t]+/g], replaced by one space. *)
Definition m_blank_run : matcher := fun s =>
  match count_while is_sp_tab s with
  | 0 => None
  | k => Some (k, [SP])
  end.

(** [/ *\n */g], replaced by the newline.  The greedy [ *] takes every
    leading space; giving some back cannot help, the next code unit would
    be a space again. *)
Definition m_newline : matcher := fun s =>
  let k := count_while is_sp s in
  match drop k s with
  | c :: r =>
      if (c =? LF)%N then Some (k + 1 + count_while is_sp r, [LF]) else None
  | [] => None
  end.

(** The optional space [ ?] at the head of [s]. *)
Definition opt_space (s : jsstring) : nat :=
  match s with
  | c :: _ => if is_sp c then 1 else 0
  | [] => 0
  end.

(** [/ ?([,;:!?]) ?/g], replaced by ["$1 "]. *)
Definition m_punct : matcher := fun s =>
  match s with
  | c :: r =>
      if is_sp c then
        match r with
        | p :: r' =>
            if is_punct p then Some (2 + opt_space r', [p; SP]) else None
        | [] => None
        end
      else if is_punct c then Some (1 + opt_space r, [c; SP])
      else None
  | [] => None
  end.

(** [/ \./g], replaced by ["."]. *)
Definition m_space_dot : matcher := fun s =>
  match s with
  | a :: b :: _ => if is_sp a && (b =? DOT)%N then Some (2, [DOT]) else None
  | _ => None
  end.

(** [/[ ]{2,}/g], replaced by one space. *)
Definition m_spaces2 : matcher := fun s =>
  let k := count_while is_sp s in
  if 2 <=? k then Some (k, [SP]) else None.

Definition strip_zwsp := replace_all m_zwsp.
Definition collapse_blanks := replace_all m_blank_run.
Definition tighten_newlines := replace_all m_newline.
Definition space_punct := replace_all m_punct.
Definition tighten_dot := replace_all m_space_dot.
Definition collapse_spaces := replace_all m_spaces2.

(** [cleanTextBasic(str)]; [!str] holds of the empty string. *)
Definition cleanTextBasic (str : jsstring) : jsstring :=
  match str with
  | [] => str
  | _ =>
      trim (collapse_spaces (tighten_dot (space_punct
        (tighten_newlines (collapse_blanks (strip_zwsp str))))))
  end.

End Normalizer.

Import Normalizer.

(** ** More of the string library *)

(** [str.slice(i, j)] for [0 <= i <= j]. *)
Definition slice (i j : nat) (s : jsstring) : jsstring := take (j - i) (drop i s).

(** [!str.trim()]: the text is empty or white space only. *)
Definition blank (s : jsstring) : bool :=
  match trim s with [] => true | _ :: _ => false end.

(** [a || d] on strings that may be absent: the empty string is falsy. *)
Definition or_else (a : option jsstring) (d : jsstring) : jsstring :=
  match a with
  | Some (c :: r) => c :: r
  | _ => d
  end.

(** [parts.join(sep)] *)
Fixpoint join (sep : jsstring) (parts : list jsstring) : jsstring :=
  match parts with
  | [] => []
  | [x] => x
  | x :: r => x ++ sep ++ join sep r
  end.

(** Decimal digits of a number, as a template literal prints it. *)
Definition decimal (n : nat) : jsstring :=
  lit (DecimalString.NilZero.string_of_uint (Nat.to_uint n)).

(** The substitution patterns of a replacement string when the pattern
    has no capture group: [$$], [$&], [$`] and [$']; any other [$] stands
    for itself. *)
Fixpoint expand_dollar (matched before after rep : jsstring) : jsstring :=
  match rep with
  | [] => []
  | c :: r =>
      if (c =? DOLLAR)%N then
        match r with
        | d :: r' =>
            if (d =? DOLLAR)%N then DOLLAR :: expand_dollar matched before after r'
            else if (d =? 38)%N then matched ++ expand_dollar matched before after r'
            else if (d =? 96)%N then before ++ expand_dollar matched before after r'
            else if (d =? 39)%N then after ++ expand_dollar matched before after r'
            else DOLLAR :: expand_dollar matched before after r
        | [] => [DOLLAR]
        end
      else c :: expand_dollar matched before after r
  end.

(** [str.replace(pat, rep)] with a string pattern: the first occurrence. *)
Definition replace_str (pat rep s : jsstring) : jsstring :=
  match index_of pat s with
  | None => s
  | Some i =>
      let before := take i s in
      let after := drop (i + length pat) s in
      before ++ expand_dollar pat before after rep ++ after
  end.

(** The matches of a global expression in scanning order: what a
    [replace] callback or an [exec] loop sees. *)
Fixpoint matches_from {A} (m : jsstring -> option (nat * A)) (skip : nat)
    (s : jsstring) : list A :=
  match s with
  | [] => []
  | _ :: r =>
      match skip with
      | S k => matches_from m k r
      | 0 =>
          match m s with
          | Some (S n, a) => a :: matches_from m n r
          | _ => matches_from m 0 r
          end
      end
  end.

(** [/</g], replaced by ["&lt;"]. *)
Definition m_lt : matcher := fun s =>
  match s with
  | c :: _ => if (c =? LT)%N then Some (1, lit "&lt;") else None
  | [] => None
  end.

Definition escape_lt : jsstring -> jsstring := replace_all m_lt.

(** ASCII case folding, enough for the file-name tests: no other code
    unit lower-cases to a letter of [.pdf] or [.docx]. *)
Definition lower (c : N) : N :=
  if ((65 <=? c) && (c <=? 90))%N then (c + 32)%N else c.

(** [name.toLowerCase().endsWith(ext)] for a lower-case ASCII [ext]. *)
Definition ends_with_ci (ext name : jsstring) : bool :=
  (length ext <=? length name)
  && bool_decide (map lower (drop (length name - length ext) name) = ext).

(** [name.replace(/\.ext$/i, ...)] with the empty replacement. *)
Definition strip_ext (ext name : jsstring) : jsstring :=
  if ends_with_ci ext name then take (length name - length ext) name else name.

(** [str.split(sep)] for a separator of one code unit: the pieces between
    the separators, one more than there are separators. *)
Fixpoint split_on (sep : N) (s : jsstring) : list jsstring :=
  match s with
  | [] => [[]]
  | c :: r =>
      if (c =? sep)%N then [] :: split_on sep r
      else match split_on sep r with
           | x :: xs => (c :: x) :: xs
           | [] => [[c]]
           end
  end.

Definition is_empty (s : jsstring) : bool :=
  match s with [] => true | _ :: _ => false end.

(** [/[class]+/g] for a class of code units, replaced by [rep]. *)
Definition m_run (class : N -> bool) (rep : jsstring) : matcher := fun s =>
  match count_while class s with
  | 0 => None
  | k => Some (k, rep)
  end.

(** [/pat/g] for a literal text [pat], replaced by [rep]. *)
Definition m_lit (pat rep : jsstring) : matcher := fun s =>
  if starts_with pat s then Some (length pat, rep) else None.

(** The class [\w]. *)
Definition is_word (c : N) : bool :=
  ((48 <=? c) && (c <=? 57))%N || ((65 <=? c) && (c <=? 90))%N
  || ((97 <=? c) && (c <=? 122))%N || (c =? 95)%N.

(** Line terminators: what the dot of an expression without the [s] flag
    does not match. *)
Definition is_line_terminator (c : N) : bool :=
  (c =? 10)%N || (c =? 13)%N || (c =? 8232)%N || (c =? 8233)%N.

(** *** [encodeURIComponent] *)

(** The code units that are copied: letters, digits and [-_.!~*'()]. *)
Definition unescaped (c : N) : bool :=
  is_word c || (c =? 45)%N || (c =? 46)%N || (c =? 33)%N || (c =? 126)%N
  || (c =? 42)%N || (c =? 39)%N || (c =? 40)%N || (c =? 41)%N.

(** One upper-case hexadecimal digit. *)
Definition hex (n : N) : N := if (n <? 10)%N then (48 + n)%N else (55 + n)%N.

(** An octet as [%XX]. *)
Definition percent (octet : N) : jsstring := [37%N; hex (octet / 16); hex (octet mod 16)].

(** The UTF-8 octets of a code point. *)
Definition utf8 (cp : N) : list N :=
  if (cp <? 128)%N then [cp]
  else if (cp <? 2048)%N then [192 + cp / 64; 128 + cp mod 64]%N
  else if (cp <? 65536)%N then
    [224 + cp / 4096; 128 + (cp / 64) mod 64; 128 + cp mod 64]%N
  else
    [240 + cp / 262144; 128 + (cp / 4096) mod 64; 128 + (cp / 64) mod 64;
     128 + cp mod 64]%N.

Definition is_high (c : N) : bool := ((55296 <=? c) && (c <=? 56319))%N.
Definition is_low (c : N) : bool := ((56320 <=? c) && (c <=? 57343))%N.

(** [encodeURIComponent(s)]; [None] is the URIError thrown for a
    surrogate without its partner. *)
Fixpoint encodeURIComponent (s : jsstring) : option jsstring :=
  match s with
  | [] => Some []
  | c :: r =>
      if unescaped c then cons c <$> encodeURIComponent r
      else if is_high c then
        match r with
        | d :: r' =>
            if is_low d then
              app (concat (map percent
                     (utf8 ((c - 55296) * 1024 + (d - 56320) + 65536)%N)))
                <$> encodeURIComponent r'
            else None
        | [] => None
        end
      else if is_low c then None
      else app (concat (map percent (utf8 c))) <$> encodeURIComponent r
  end.

(** ** Containers *)

(** A ZIP archive as JSZip presents it, seen as its file entries: entry
    name to content.  Folder entries are not tracked.  The content of an
    entry that is read with [async("string")] is its text. *)
Abbreviation archive := (gmap jsstring jsstring).

(** [zip.remove(name)] of an entry that is a folder: every file below. *)
Definition remove_folder (name : jsstring) (z : archive) : archive :=
  filter (fun e => starts_with (name ++ lit "/") e.1 = false) z.

(** A PDF document as pdf-lib presents it: the page tree, the fields of
    the information dictionary (absent or set), and the rest of the
    document (XMP packet, outline, attachments, form) that belongs to the
    container and not to a page.  Dates are milliseconds since the epoch. *)
Record pdf := {
  pdf_pages : list jsstring;
  pdf_title : option jsstring;
  pdf_author : option jsstring;
  pdf_subject : option jsstring;
  pdf_keywords : option jsstring;
  pdf_producer : option jsstring;
  pdf_creator : option jsstring;
  pdf_creationDate : option Z;
  pdf_modificationDate : option Z;
  pdf_rest : list jsstring
}.

(** The binary content of a file, up to serialisation: saving a document
    and loading the bytes again gives the document back, and bytes load
    as a PDF (as a ZIP) only when they are one. *)
Inductive file_data :=
  | PdfBytes (d : pdf)
  | ZipBytes (z : archive)
  | OtherBytes (raw : list N).

(** [PDFDocument.load], [JSZip.loadAsync]: [None] when the promise is
    rejected. *)
Definition load_pdf (b : file_data) : option pdf :=
  match b with PdfBytes d => Some d | _ => None end.
Definition load_zip (b : file_data) : option archive :=
  match b with ZipBytes z => Some z | _ => None end.

Definition pdflib : jsstring := lit "pdf-lib (https://github.com/Hopding/pdf-lib)".

(** pdf-lib's [updateInfoDict], run by [load] with [updateMetadata] and by
    [create]: producer and modification date are overwritten, creator and
    creation date are filled in when absent. *)
Definition updateInfoDict (now : Z) (d : pdf) : pdf :=
  {| pdf_pages := pdf_pages d;
     pdf_title := pdf_title d;
     pdf_author := pdf_author d;
     pdf_subject := pdf_subject d;
     pdf_keywords := pdf_keywords d;
     pdf_producer := Some pdflib;
     pdf_creator := Some (or_else (pdf_creator d) pdflib);
     pdf_creationDate := Some (default now (pdf_creationDate d));
     pdf_modificationDate := Some now;
     pdf_rest := pdf_rest d |}.

(** [PDFDocument.create()] *)
Definition pdf_create (now : Z) : pdf :=
  updateInfoDict now
    {| pdf_pages := []; pdf_title := None; pdf_author := None;
       pdf_subject := None; pdf_keywords := None; pdf_producer := None;
       pdf_creator := None; pdf_creationDate := None;
       pdf_modificationDate := None; pdf_rest := [] |}.

Definition setTitle (v : jsstring) (d : pdf) : pdf :=
  {| pdf_pages := pdf_pages d; pdf_title := Some v; pdf_author := pdf_author d;
     pdf_subject := pdf_subject d; pdf_keywords := pdf_keywords d;
     pdf_producer := pdf_producer d; pdf_creator := pdf_creator d;
     pdf_creationDate := pdf_creationDate d;
     pdf_modificationDate := pdf_modificationDate d; pdf_rest := pdf_rest d |}.
Definition setAuthor (v : jsstring) (d : pdf) : pdf :=
  {| pdf_pages := pdf_pages d; pdf_title := pdf_title d; pdf_author := Some v;
     pdf_subject := pdf_subject d; pdf_keywords := pdf_keywords d;
     pdf_producer := pdf_producer d; pdf_creator := pdf_creator d;
     pdf_creationDate := pdf_creationDate d;
     pdf_modificationDate := pdf_modificationDate d; pdf_rest := pdf_rest d |}.
Definition setSubject (v : jsstring) (d : pdf) : pdf :=
  {| pdf_pages := pdf_pages d; pdf_title := pdf_title d; pdf_author := pdf_author d;
     pdf_subject := Some v; pdf_keywords := pdf_keywords d;
     pdf_producer := pdf_producer d; pdf_creator := pdf_creator d;
     pdf_creationDate := pdf_creationDate d;
     pdf_modificationDate := pdf_modificationDate d; pdf_rest := pdf_rest d |}.
(** [setKeywords] stores the list joined by single spaces. *)
Definition setKeywords (v : list jsstring) (d : pdf) : pdf :=
  {| pdf_pages := pdf_pages d; pdf_title := pdf_title d; pdf_author := pdf_author d;
     pdf_subject := pdf_subject d; pdf_keywords := Some (join [SP] v);
     pdf_producer := pdf_producer d; pdf_creator := pdf_creator d;
     pdf_creationDate := pdf_creationDate d;
     pdf_modificationDate := pdf_modificationDate d; pdf_rest := pdf_rest d |}.
Definition setProducer (v : jsstring) (d : pdf) : pdf :=
  {| pdf_pages := pdf_pages d; pdf_title := pdf_title d; pdf_author := pdf_author d;
     pdf_subject := pdf_subject d; pdf_keywords := pdf_keywords d;
     pdf_producer := Some v; pdf_creator := pdf_creator d;
     pdf_creationDate := pdf_creationDate d;
     pdf_modificationDate := pdf_modificationDate d; pdf_rest := pdf_rest d |}.
Definition setCreator (v : jsstring) (d : pdf) : pdf :=
  {| pdf_pages := pdf_pages d; pdf_title := pdf_title d; pdf_author := pdf_author d;
     pdf_subject := pdf_subject d; pdf_keywords := pdf_keywords d;
     pdf_producer := pdf_producer d; pdf_creator := Some v;
     pdf_creationDate := pdf_creationDate d;
     pdf_modificationDate := pdf_modificationDate d; pdf_rest := pdf_rest d |}.
Definition setCreationDate (v : Z) (d : pdf) : pdf :=
  {| pdf_pages := pdf_pages d; pdf_title := pdf_title d; pdf_author := pdf_author d;
     pdf_subject := pdf_subject d; pdf_keywords := pdf_keywords d;
     pdf_producer := pdf_producer d; pdf_creator := pdf_creator d;
     pdf_creationDate := Some v;
     pdf_modificationDate := pdf_modificationDate d; pdf_rest := pdf_rest d |}.
Definition setModificationDate (v : Z) (d : pdf) : pdf :=
  {| pdf_pages := pdf_pages d; pdf_title := pdf_title d; pdf_author := pdf_author d;
     pdf_subject := pdf_subject d; pdf_keywords := pdf_keywords d;
     pdf_producer := pdf_producer d; pdf_creator := pdf_creator d;
     pdf_creationDate := pdf_creationDate d;
     pdf_modificationDate := Some v; pdf_rest := pdf_rest d |}.
(** [addPage] appends to the page tree. *)
Definition addPage (p : jsstring) (d : pdf) : pdf :=
  {| pdf_pages := pdf_pages d ++ [p]; pdf_title := pdf_title d;
     pdf_author := pdf_author d; pdf_subject := pdf_subject d;
     pdf_keywords := pdf_keywords d; pdf_producer := pdf_producer d;
     pdf_creator := pdf_creator d; pdf_creationDate := pdf_creationDate d;
     pdf_modificationDate := pdf_modificationDate d; pdf_rest := pdf_rest d |}.

(** A page without content, as [addPage()] without argument makes it. *)
Definition blank_page : jsstring := [].

(** [doc.save()] with its default options: a document without pages gets
    one blank page ([addDefaultPage]).  The form is never opened by the
    program, so [save] leaves it alone; the bytes written are the
    document. *)
Definition save (d : pdf) : pdf :=
  match pdf_pages d with
  | [] => addPage blank_page d
  | _ :: _ => d
  end.

(** [new Date(0)] *)
Definition epoch : Z := 0.

(** ** The checking service *)

(** Deployment configuration: [process.env.LT_API_URL] with its default
    applied, and [process.env.LT_API_KEY] when it is set. *)
Record config := {
  LT_URL : jsstring;
  LT_KEY : option jsstring
}.

(** One POST to the checking service: the URL-encoded form fields and the
    authorisation header. *)
Record lt_request := {
  req_url : jsstring;
  req_text : jsstring;
  req_language : jsstring;
  req_apiKey : option jsstring;
  req_bearer : option jsstring
}.

(** One issue reported by the service.  A field the response leaves out is
    [None]. *)
Record CheckMatch := {
  rule_id : option jsstring;          (* rule.id *)
  message : option jsstring;
  replacements : option (list jsstring);  (* the value of each replacement *)
  context_text : option jsstring      (* context.text *)
}.

(** The service, as the program sees it: given the requests issued so far
    and the next request, the body of the response, or [None] when the
    call fails (connection error, timeout, error status). *)
Definition service (R : Type) := list lt_request -> lt_request -> option R.

(** Computations that talk to the service and may throw: the log of the
    requests issued so far is threaded through, [None] is a thrown error. *)
Definition Net (R A : Type) := service R -> list lt_request -> option A * list lt_request.

Definition ret {R A} (a : A) : Net R A := fun _ log => (Some a, log).

Definition bind {R A B} (m : Net R A) (k : A -> Net R B) : Net R B :=
  fun svc log =>
    match m svc log with
    | (Some a, log') => k a svc log'
    | (None, log') => (None, log')
    end.

Definition post {R} (q : lt_request) : Net R R :=
  fun svc log => (svc log q, log ++ [q]).

Notation "x <- m ;; k" := (bind m (fun x => k))
  (at level 100, m at next level, right associativity).

(** ** Responses *)

(** What a handler sends: a JSON error with its status, or a body with
    its Content-Type and Content-Disposition headers. *)
Inductive sent (B : Type) :=
  | SentJson (status : nat) (error : jsstring)
  | SentFile (contentType disposition : jsstring) (body : B).
Arguments SentJson {B} status error.
Arguments SentFile {B} contentType disposition body.

(** The header value [attachment; filename=...], the name between double
    quotes. *)
Definition attachment (name : jsstring) : jsstring :=
  lit "attachment; filename=" ++ [DQ] ++ name ++ [DQ].

(** ** server.js *)

Module Server.

Definition corePath : jsstring := lit "docProps/core.xml".
Definition customPath : jsstring := lit "docProps/custom.xml".
Definition docPath : jsstring := lit "word/document.xml".

Definition open_tag (tag : jsstring) : jsstring := lit "<" ++ tag ++ lit ">".
Definition close_tag (tag : jsstring) : jsstring := lit "</" ++ tag ++ lit ">".

(** [/<tag>.*?<\/tag>/s], replaced by ["<tag></tag>"].  With the [s] flag
    the dot matches every code unit, and the lazy [.*?] stops at the
    first closing tag after the opening one. *)
Definition m_element (tag : jsstring) : matcher := fun s =>
  if starts_with (open_tag tag) s then
    match index_of (close_tag tag) (drop (length (open_tag tag)) s) with
    | Some j =>
        Some (length (open_tag tag) + j + length (close_tag tag),
              open_tag tag ++ close_tag tag)
    | None => None
    end
  else None.

Definition blank_element (tag : jsstring) : jsstring -> jsstring :=
  replace_first (m_element tag).

Definition creator : jsstring := lit "dc:creator".
Definition lastModifiedBy : jsstring := lit "cp:lastModifiedBy".
Definition title : jsstring := lit "dc:title".
Definition subject : jsstring := lit "dc:subject".
Definition keywords : jsstring := lit "cp:keywords".

(** The five replacements applied to the text of docProps/core.xml. *)
Definition blank_core (coreXml : jsstring) : jsstring :=
  blank_element keywords (blank_element subject (blank_element title
    (blank_element lastModifiedBy (blank_element creator coreXml)))).

(** [/<w:t[^>]*>([\s\S]*?)<\/w:t>/g] at the head of [s]: the length of the
    match, the match and its group. *)
Definition m_wt (s : jsstring) : option (nat * (jsstring * jsstring)) :=
  if starts_with (lit "<w:t") s then
    let rest := drop 4 s in
    let k := count_while (fun c => negb (c =? GT)%N) rest in
    match drop k rest with
    | _ :: body =>
        match index_of (lit "</w:t>") body with
        | Some j =>
            let n := 4 + k + 1 + j + 6 in
            Some (n, (take n s, take j body))
        | None => None
        end
    | [] => None
    end
  else None.

(** The callback [(m, inner) => m.replace(inner, cleanTextBasic(inner))]. *)
Definition m_wt_clean : matcher := fun s =>
  match m_wt s with
  | Some (n, (m, inner)) => Some (n, replace_str inner (cleanTextBasic inner) m)
  | None => None
  end.

(** [processDOCXBasic] on the loaded archive. *)
Definition sanitize_archive (zip : archive) : archive :=
  let zip1 :=
    match zip !! corePath with
    | Some coreXml => <[corePath := blank_core coreXml]> zip
    | None => zip
    end in
  let zip2 :=
    match zip1 !! customPath with
    | Some _ => delete customPath zip1
    | None => zip1
    end in
  match zip2 !! docPath with
  | Some xml => <[docPath := replace_all m_wt_clean xml]> zip2
  | None => zip2
  end.

(** [processDOCXBasic(inputBuffer)]; [None] when [JSZip.loadAsync]
    rejects. *)
Definition processDOCXBasic (inputBuffer : file_data) : option file_data :=
  zip ← load_zip inputBuffer;
  Some (ZipBytes (sanitize_archive zip)).

(** [extractTextFromDOCX(inputBuffer)] *)
Definition extractTextFromDOCX (inputBuffer : file_data) : option jsstring :=
  zip ← load_zip inputBuffer;
  match zip !! docPath with
  | None => Some []
  | Some xml =>
      let inners := matches_from (fun s => (fun r => (r.1, r.2.2)) <$> m_wt s) 0 xml in
      Some (cleanTextBasic (concat (map (fun inner => inner ++ lit " ") inners)))
  end.

(** [processPDFBasic(inputBuffer)]; [now] is the clock read by [load]. *)
Definition processPDFBasic (now : Z) (inputBuffer : file_data) : option file_data :=
  pdfDoc ← load_pdf inputBuffer;
  Some (PdfBytes
    (save (setModificationDate epoch (setCreationDate epoch
      (setCreator [] (setProducer [] (setKeywords [] (setSubject []
        (setAuthor [] (setTitle [] (updateInfoDict now pdfDoc))))))))))).

(** [extractTextFromPDF(inputBuffer)]; [pdfParse] is the text-layer
    extraction of pdf-parse, [None] when it throws. *)
Definition extractTextFromPDF (pdfParse : file_data -> option jsstring)
    (inputBuffer : file_data) : jsstring :=
  match pdfParse inputBuffer with
  | Some text => cleanTextBasic text
  | None => []
  end.

Definition limit : nat := N.to_nat 20000.

(** The slicing loop [for (let i = 0; i < fullText.length; i += limit)].
    [fuel] bounds the number of iterations; each one moves [i] forward by
    [limit], so as many iterations as the text has code units are enough
    ([chunk_loop_concat]). *)
Fixpoint chunk_loop (fuel : nat) (fullText : jsstring) (i : nat) : list jsstring :=
  match fuel with
  | 0 => []
  | S f =>
      if i <? length fullText
      then slice i (i + limit) fullText :: chunk_loop f fullText (i + limit)
      else []
  end.

Definition chunks (fullText : jsstring) : list jsstring :=
  chunk_loop (length fullText) fullText 0.

(** The form sent for one chunk. *)
Definition payload (cfg : config) (chunk lang : jsstring) : lt_request :=
  {| req_url := LT_URL cfg;
     req_text := chunk;
     req_language := or_else (Some lang) (lit "auto");
     req_apiKey := match LT_KEY cfg with Some (c :: k) => Some (c :: k) | _ => None end;
     req_bearer := None |}.

(** The loop [for (const chunk of chunks)]; the response body carries
    [data.matches] when it has one. *)
Fixpoint check_chunks (cfg : config) (lang : jsstring) (cs : list jsstring)
    (allMatches : list CheckMatch) : Net (option (list CheckMatch)) (list CheckMatch) :=
  match cs with
  | [] => ret allMatches
  | chunk :: rest =>
      if blank chunk then check_chunks cfg lang rest allMatches
      else
        resp <- post (payload cfg chunk lang) ;;
        check_chunks cfg lang rest
          match resp with
          | Some (m :: ms) => allMatches ++ m :: ms
          | _ => allMatches
          end
  end.

(** [runLanguageTool(fullText, lang)] *)
Definition runLanguageTool (cfg : config) (fullText lang : jsstring)
  : Net (option (list CheckMatch)) (list CheckMatch) :=
  check_chunks cfg lang (chunks fullText) [].

(** *** The report *)

(** The values a property of [summary.byRule] can hold. *)
Inductive jsval :=
  | VNum (n : nat)
  | VStr (s : jsstring).

(** The text of a native function, as string concatenation sees it. *)
Definition native (name : jsstring) : jsstring :=
  lit "function " ++ name ++ lit "() { [native code] }".

(** [byRule] is created by the literal [{}], so a property it does not
    own is looked up in [Object.prototype].  For each member found there,
    the text it contributes when a number is added to it. *)
Definition inherited (key : jsstring) : option jsstring :=
  if bool_decide (key = lit "constructor") then Some (native (lit "Object"))
  else if bool_decide (key ∈ [lit "hasOwnProperty"; lit "isPrototypeOf";
            lit "propertyIsEnumerable"; lit "toString"; lit "toLocaleString";
            lit "valueOf"; lit "__defineGetter__"; lit "__defineSetter__";
            lit "__lookupGetter__"; lit "__lookupSetter__"])
  then Some (native key)
  else if bool_decide (key = lit "__proto__") then Some (lit "[object Object]")
  else None.

(** [(byRule[key] || 0) + 1] *)
Definition bump (own : gmap jsstring jsval) (key : jsstring) : jsval :=
  match own !! key with
  | Some (VNum n) => VNum (n + 1)
  | Some (VStr []) => VNum 1
  | Some (VStr (c :: r)) => VStr ((c :: r) ++ lit "1")
  | None =>
      match inherited key with
      | Some text => VStr (text ++ lit "1")
      | None => VNum 1
      end
  end.

(** [byRule[key] = v]; assigning a primitive to [__proto__] does nothing. *)
Definition assign (own : gmap jsstring jsval) (key : jsstring) (v : jsval)
  : gmap jsstring jsval :=
  if bool_decide (key = lit "__proto__") then own else <[key := v]> own.

(** [m.rule?.id || "GENERIC"] *)
Definition rule_key (m : CheckMatch) : jsstring := or_else (rule_id m) (lit "GENERIC").

(** The loop [for (const m of matches)] over [summary.byRule]. *)
Definition count_rules (matches : list CheckMatch) : gmap jsstring jsval :=
  foldl (fun own m => assign own (rule_key m) (bump own (rule_key m))) ∅ matches.

Record summary := {
  fileName : jsstring;
  language : jsstring;
  textLength : nat;
  totalIssues : nat;
  byRule : gmap jsstring jsval
}.

Record report := {
  report_summary : summary;
  report_matches : list CheckMatch
}.

(** [buildReportJSON({ fileName, language, matches, textLength })] *)
Definition buildReportJSON (fileName language : jsstring)
    (matches : list CheckMatch) (textLength : nat) : report :=
  {| report_summary :=
       {| fileName := fileName;
          language := language;
          textLength := textLength;
          totalIssues := length matches;
          byRule := count_rules matches |};
     report_matches := matches |}.

(** Template text, written with ['] where the source has the double
    quote. *)
Definition tpl (s : string) : jsstring :=
  map (fun c => if (c =? 39)%N then DQ else c) (lit s).

Definition td : jsstring :=
  tpl "<td style='padding:8px;border-bottom:1px solid #e5e7eb;'>".

(** One table row: the callback of [matches.map]. *)
Definition row (idx : nat) (m : CheckMatch) : jsstring :=
  let repl := join (lit ", ") (take 3 (default [] (replacements m))) in
  let context := or_else (context_text m) [] in
  tpl "<tr>" ++ [LF] ++
  tpl "        " ++ td ++ decimal (idx + 1) ++ tpl "</td>" ++ [LF] ++
  tpl "        " ++ td ++ or_else (rule_id m) [] ++ tpl "</td>" ++ [LF] ++
  tpl "        " ++ td ++ escape_lt (or_else (message m) []) ++ tpl "</td>" ++ [LF] ++
  tpl "        " ++ td ++ escape_lt (or_else (Some repl) (lit "-")) ++ tpl "</td>" ++ [LF] ++
  tpl "        " ++ td ++ escape_lt (or_else (Some context) []) ++ tpl "</td>" ++ [LF] ++
  tpl "      </tr>".

Definition no_suggestion_row : jsstring :=
  tpl "<tr><td colspan='5' style='padding:10px;'>Aucune suggestion.</td></tr>".

Definition html_head : jsstring :=
  join [LF] [
    tpl "<!doctype html>";
    tpl "<html lang='fr'>";
    tpl "<head>";
    tpl "<meta charset='utf-8'/>";
    tpl "<title>DocSafe " ++ [8212%N] ++ tpl " Rapport LanguageTool</title>";
    tpl "<meta name='viewport' content='width=device-width, initial-scale=1'/>";
    tpl "<style>";
    tpl "body{font-family:ui-sans-serif,system-ui,-apple-system,Segoe UI,Roboto,Ubuntu,Cantarell,Noto Sans,sans-serif;background:#0f172a;color:#e5e7eb;margin:0;padding:24px;}";
    tpl ".card{background:#0b1220;border:1px solid #1f2937;border-radius:16px;max-width:1000px;margin:0 auto;box-shadow:0 10px 25px rgba(0,0,0,.35);}";
    tpl ".card h1{font-size:22px;margin:0;padding:16px 20px;border-bottom:1px solid #1f2937;}";
    tpl ".section{padding:16px 20px;}";
    tpl ".kv{display:flex;flex-wrap:wrap;gap:12px;font-size:14px;}";
    tpl ".kv div{background:#111827;border:1px solid #1f2937;padding:10px 12px;border-radius:10px;}";
    tpl ".table{width:100%;border-collapse:collapse;margin-top:16px;font-size:14px;background:#0b1220;}";
    tpl "th{background:#111827;text-align:left;padding:10px;border-bottom:1px solid #1f2937;}";
    tpl "td{vertical-align:top;}";
    tpl "</style>";
    tpl "</head>";
    tpl "<body>";
    tpl "  <div class='card'>";
    tpl "    <h1>Rapport LanguageTool</h1>";
    tpl "    <div class='section'>";
    tpl "      <div class='kv'>" ].

(** The template up to the table body, and from there on. *)
Definition html_top (summary : summary) : jsstring :=
  join [LF] [
    html_head;
    tpl "        <div><b>Fichier:</b> " ++ fileName summary ++ tpl "</div>";
    tpl "        <div><b>Langue:</b> " ++ language summary ++ tpl "</div>";
    tpl "        <div><b>Longueur texte:</b> " ++ decimal (textLength summary) ++ tpl "</div>";
    tpl "        <div><b>Total issues:</b> " ++ decimal (totalIssues summary) ++ tpl "</div>";
    tpl "      </div>";
    tpl "      <table class='table'>";
    tpl "        <thead>";
    tpl "          <tr>";
    tpl "            <th>#</th><th>R" ++ [232%N] ++ tpl "gle</th><th>Message</th><th>Suggestions</th><th>Contexte</th>";
    tpl "          </tr>";
    tpl "        </thead>";
    tpl "        <tbody>";
    tpl "          " ].

Definition html_bottom : jsstring :=
  join [LF] [
    [];
    tpl "        </tbody>";
    tpl "      </table>";
    tpl "    </div>";
    tpl "  </div>";
    tpl "</body>";
    tpl "</html>" ].

(** [buildReportHTML(reportJSON)]; the table body is
    [rows || "<tr>...Aucune suggestion...</tr>"]. *)
Definition buildReportHTML (reportJSON : report) : jsstring :=
  let rows := concat (imap row (report_matches reportJSON)) in
  html_top (report_summary reportJSON)
  ++ or_else (Some rows) no_suggestion_row
  ++ html_bottom.

(** *** CORS *)

(** [allowed]: the origins listed in [process.env.ALLOWED_ORIGINS],
    split at the commas, trimmed, the empty ones dropped. *)
Definition allowed (env : option jsstring) : list jsstring :=
  List.filter (fun s => negb (is_empty s)) (map trim (split_on 44 (or_else env []))).

(** The [origin] callback of the CORS options: [true] for
    [cb(null, true)], [false] for the error. *)
Definition origin_allowed (allowed : list jsstring) (origin : option jsstring) : bool :=
  match origin with
  | None | Some [] => true
  | Some o => (length allowed =? 0) || bool_decide (o ∈ allowed)
  end.

(** *** POST /clean-v2 *)

Record upload := {
  originalname : jsstring;
  content : file_data
}.

Record request := {
  req_file : option upload;      (* req.file *)
  lt_language : option jsstring  (* req.body?.lt_language *)
}.

(** The archive sent back: the cleaned document under its name,
    report.json (the report, before serialisation) and report.html. *)
Record bundle := {
  cleanedName : jsstring;
  cleanedBuffer : file_data;
  report_json : report;
  report_html : jsstring
}.

Inductive response :=
  | Json (status : nat) (error : jsstring)
  | SendZip (zipName : jsstring) (zip : bundle).

(** What the handler has in hand when it calls the checking service. *)
Inductive prepared :=
  | Unsupported
  | Thrown
  | Cleaned (cleanedName : jsstring) (cleanedBuffer : file_data) (textForLT : jsstring).

Section Handler.

Variable cfg : config.
Variable now : Z.
Variable pdfParse : file_data -> option jsstring.

(** The branch on the extension, inside the [try]. *)
Definition prepare (f : upload) : prepared :=
  let originalName := originalname f in
  if ends_with_ci (lit ".pdf") originalName then
    match processPDFBasic now (content f) with
    | Some cleaned =>
        Cleaned (strip_ext (lit ".pdf") originalName ++ lit "_cleaned.pdf") cleaned
          (extractTextFromPDF pdfParse cleaned)
    | None => Thrown
    end
  else if ends_with_ci (lit ".docx") originalName then
    match processDOCXBasic (content f) with
    | Some cleaned =>
        match extractTextFromDOCX cleaned with
        | Some text =>
            Cleaned (strip_ext (lit ".docx") originalName ++ lit "_cleaned.docx") cleaned text
        | None => Thrown
        end
    | None => Thrown
    end
  else Unsupported.

(** The name of the archive: the original name without its [.pdf] or
    [.docx], and the suffix. *)
Definition zip_name (originalName : jsstring) : jsstring :=
  (if ends_with_ci (lit ".pdf") originalName then strip_ext (lit ".pdf") originalName
   else strip_ext (lit ".docx") originalName) ++ lit "_docsafe_report.zip".

(** The handler of POST /clean-v2: the response, and the requests made to
    the checking service.  The temporary file and the response headers
    are left out. *)
Definition clean_v2 (svc : service (option (list CheckMatch))) (req : request)
  : response * list lt_request :=
  match req_file req with
  | None => (Json 400 (lit "Missing file"), [])
  | Some f =>
      let lang := or_else (lt_language req) (lit "auto") in
      match prepare f with
      | Unsupported => (Json 400 (lit "Only PDF or DOCX are supported"), [])
      | Thrown => (Json 500 (lit "Processing failed (V2)"), [])
      | Cleaned cleanedName cleanedBuffer textForLT =>
          match runLanguageTool cfg (or_else (Some textForLT) []) lang svc [] with
          | (None, log) => (Json 500 (lit "Processing failed (V2)"), log)
          | (Some matches, log) =>
              let reportJSON :=
                buildReportJSON cleanedName lang matches
                  (length (or_else (Some textForLT) [])) in
              (SendZip (zip_name (originalname f))
                 {| cleanedName := cleanedName;
                    cleanedBuffer := cleanedBuffer;
                    report_json := reportJSON;
                    report_html := buildReportHTML reportJSON |}, log)
          end
      end
  end.

(** *** POST /clean and the response headers *)

(** The end of both handlers: the two headers and [res.send], inside the
    [try]. *)
Definition send {B} (error mime name : jsstring) (body : B) : sent B :=
  match encodeURIComponent name with
  | Some enc => SentFile mime (attachment enc) body
  | None => SentJson 500 error
  end.

(** The handler of POST /clean.  The temporary file is left out. *)
Definition clean (req : request) : sent file_data :=
  match req_file req with
  | None => SentJson 400 (lit "Missing file")
  | Some f =>
      let originalName := originalname f in
      if ends_with_ci (lit ".pdf") originalName then
        match processPDFBasic now (content f) with
        | Some outBuffer =>
            send (lit "Processing failed") (lit "application/pdf")
              (strip_ext (lit ".pdf") originalName ++ lit "_cleaned.pdf") outBuffer
        | None => SentJson 500 (lit "Processing failed")
        end
      else if ends_with_ci (lit ".docx") originalName then
        match processDOCXBasic (content f) with
        | Some outBuffer =>
            send (lit "Processing failed")
              (lit "application/vnd.openxmlformats-officedocument.wordprocessingml.document")
              (strip_ext (lit ".docx") originalName ++ lit "_cleaned.docx") outBuffer
        | None => SentJson 500 (lit "Processing failed")
        end
      else SentJson 400 (lit "Only PDF or DOCX are supported")
  end.

(** The handler of POST /clean-v2 with the headers of its response. *)
Definition clean_v2_sent (svc : service (option (list CheckMatch))) (req : request)
  : sent bundle * list lt_request :=
  match clean_v2 svc req with
  | (Json status error, log) => (SentJson status error, log)
  | (SendZip zipName zip, log) =>
      (send (lit "Processing failed (V2)") (lit "application/zip") zipName zip, log)
  end.

End Handler.

End Server.

(** ** unnamed/part_000, the beta of the same server *)

Module Beta.

(** [src.getPageIndices()] *)
Definition getPageIndices (src : pdf) : list nat := seq 0 (length (pdf_pages src)).

(** [dst.copyPages(src, indices)] *)
Definition copyPages (src : pdf) (indices : list nat) : list jsstring :=
  omap (fun i => pdf_pages src !! i) indices.

(** [cleanPDF(buffer)]; [clock k] is the k-th reading of the clock: by
    [load], by [create] and by the two [new Date()]. *)
Definition cleanPDF (clock : nat -> Z) (buffer : file_data) : option file_data :=
  loaded ← load_pdf buffer;
  let src := updateInfoDict (clock 0) loaded in
  let dst := pdf_create (clock 1) in
  let pages := copyPages src (getPageIndices src) in
  let dst := foldl (fun d p => addPage p d) dst pages in
  Some (PdfBytes
    (save (setModificationDate (clock 3) (setCreationDate (clock 2)
      (setCreator [] (setProducer [] (setKeywords [] (setSubject []
        (setAuthor [] (setTitle [] dst)))))))))).

Definition docPath : jsstring := lit "word/document.xml".

(** [if (zip.file(f)) zip.remove(f)] *)
Definition remove_file (f : jsstring) (zip : archive) : archive :=
  match zip !! f with
  | Some _ => delete f zip
  | None => zip
  end.

(** [/\s+/g], replaced by one space. *)
Definition m_ws_run : matcher := fun s =>
  match count_while is_ws s with
  | 0 => None
  | k => Some (k, [SP])
  end.

(** [/ c/g] for one literal code unit [c], replaced by [c]. *)
Definition m_space_before (c : N) : matcher := fun s =>
  match s with
  | a :: b :: _ => if is_sp a && (b =? c)%N then Some (2, [c]) else None
  | _ => None
  end.

(** [cleanDOCX] on the loaded archive.  [zip.folder("customXml")] always
    answers with a folder, so the removal that follows always runs: it
    deletes the entry of that name when it is a file, and otherwise
    everything below the folder. *)
Definition clean_archive (zip : archive) : archive :=
  let zip1 :=
    remove_file (lit "docProps/custom.xml")
      (remove_file (lit "docProps/app.xml")
        (remove_file (lit "docProps/core.xml") zip)) in
  let zip2 :=
    match zip1 !! lit "customXml" with
    | Some _ => delete (lit "customXml") zip1
    | None => remove_folder (lit "customXml") zip1
    end in
  match zip2 !! docPath with
  | Some xml =>
      let xml1 := replace_all m_ws_run xml in
      let xml2 :=
        replace_all (m_space_before 63) (replace_all (m_space_before 33)
          (replace_all (m_space_before DOT) (replace_all (m_space_before 44) xml1))) in
      <[docPath := xml2]> zip2
  | None => zip2
  end.

(** [cleanDOCX(buffer)] *)
Definition cleanDOCX (buffer : file_data) : option file_data :=
  zip ← load_zip buffer;
  Some (ZipBytes (clean_archive zip)).

(** The body of a response of the service, as [resp.json()] parses it. *)
#[local] Unset Elimination Schemes.
Inductive json :=
  | JNull
  | JBool (b : bool)
  | JNum (z : Z)
  | JStr (s : jsstring)
  | JArr (items : list json)
  | JObj (fields : list (jsstring * json)).
#[local] Set Elimination Schemes.

(** Deployment configuration of the beta: the key defaults to the empty
    string. *)
Record config := {
  LT_API_URL : jsstring;
  LT_API_KEY : jsstring
}.

(** [languageToolCheck(text, lang)]: one request with the whole text. *)
Definition languageToolCheck (cfg : config) (text lang : jsstring) : Net json json :=
  if blank text then ret (JObj [(lit "matches", JArr [])])
  else
    post {| req_url := LT_API_URL cfg;
            req_text := text;
            req_language := lang;
            req_apiKey := None;
            req_bearer :=
              match LT_API_KEY cfg with
              | [] => None
              | k => Some (lit "Bearer " ++ k)
              end |}.

(** The report page of POST /clean-v2; [stringify] is
    [JSON.stringify(_, null, 2)]. *)
Definition report_html (stringify : json -> jsstring) (ltResult : json) : jsstring :=
  lit "<html><body><h2>Rapport LanguageTool</h2><pre>" ++ stringify ltResult
  ++ lit "</pre></body></html>".

(** *** CORS, file names and text extraction *)

(** [allowed]: [(process.env.ALLOWED_ORIGINS || "*").split(",")] *)
Definition allowed (env : option jsstring) : list jsstring :=
  split_on 44 (or_else env (lit "*")).

(** The [origin] callback of the CORS options. *)
Definition origin_allowed (allowed : list jsstring) (origin : option jsstring) : bool :=
  match origin with
  | None | Some [] => true
  | Some o => bool_decide (lit "*" ∈ allowed) || bool_decide (o ∈ allowed)
  end.

(** [EXT(name)]; [toLowerCase] is [String.prototype.toLowerCase], taken
    as it is. *)
Definition EXT (toLowerCase : jsstring -> jsstring) (name : jsstring) : jsstring :=
  toLowerCase (or_else (last (split_on DOT name)) []).

(** [/\.[^/.]+$/]: a dot and at least one code unit up to the end of the
    text, none of them a slash or a dot. *)
Definition m_extension : matcher := fun s =>
  match s with
  | c :: r =>
      if (c =? DOT)%N && negb (is_empty r)
         && forallb (fun d => negb ((d =? 47)%N || (d =? DOT)%N)) r
      then Some (length s, [])
      else None
  | [] => None
  end.

(** [BASENAME(name)] *)
Definition BASENAME (name : jsstring) : jsstring := replace_first m_extension name.

(** The class [[\w.\-() ]]. *)
Definition is_safe (c : N) : bool :=
  is_word c || (c =? DOT)%N || (c =? 45)%N || (c =? 40)%N || (c =? 41)%N || (c =? SP)%N.

(** [/[^\w.\-() ]+/g], replaced by the underscore. *)
Definition m_unsafe_run : matcher := m_run (fun c => negb (is_safe c)) [95%N].

(** [/\s+/g], replaced by the underscore. *)
Definition m_ws_underscore : matcher := m_run is_ws [95%N].

(** [SAFE(s)] *)
Definition SAFE (s : jsstring) : jsstring :=
  slice 0 180 (replace_all m_ws_underscore (replace_all m_unsafe_run s)).

(** [/<w:t[^>]*>(.*?)<\/w:t>/g] at the head of [s]: the length of the
    match and its group.  The dot does not match a line terminator, so
    the lazy group reaches the first closing tag only if none stands
    before it. *)
Definition m_wt_line (s : jsstring) : option (nat * jsstring) :=
  if starts_with (lit "<w:t") s then
    let rest := drop 4 s in
    let k := count_while (fun c => negb (c =? GT)%N) rest in
    match drop k rest with
    | _ :: body =>
        match index_of (lit "</w:t>") body with
        | Some j =>
            if forallb (fun c => negb (is_line_terminator c)) (take j body)
            then Some (4 + k + 1 + j + 6, take j body)
            else None
        | None => None
        end
    | [] => None
    end
  else None.

(** The five replacements applied to the text of a run. *)
Definition decode_entities (t : jsstring) : jsstring :=
  replace_all (m_lit (lit "&apos;") [39%N]) (replace_all (m_lit (lit "&quot;") [DQ])
    (replace_all (m_lit (lit "&amp;") [38%N]) (replace_all (m_lit (lit "&gt;") [GT])
      (replace_all (m_lit (lit "&lt;") [LT]) t)))).

(** [extractTextFromDOCX(buffer)] *)
Definition extractTextFromDOCX (buffer : file_data) : option jsstring :=
  zip ← load_zip buffer;
  match zip !! docPath with
  | None => Some []
  | Some xml =>
      let xml1 := replace_all (m_lit (lit "</w:p>") [LF]) xml in
      Some (join [SP] (map decode_entities (matches_from m_wt_line 0 xml1)))
  end.

(** [extractTextFromPDF(buffer)]; [pdfParse] is [None] when the module is
    not installed, and its result is [None] when it throws. *)
Definition extractTextFromPDF (pdfParse : option (file_data -> option jsstring))
    (buffer : file_data) : jsstring :=
  match pdfParse with
  | None => []
  | Some parse =>
      match parse buffer with
      | Some text => trim (or_else (Some text) [])
      | None => []
      end
  end.

(** *** The handlers *)

(** The archive sent back by POST /clean-v2: the cleaned document under
    its name, report.json and report.html. *)
Record bundle := {
  cleanedName : jsstring;
  cleaned : file_data;
  report_json : jsstring;
  report_page : jsstring
}.

Section Handler.
Variable cfg : config.
Variable clock : nat -> Z.
Variable pdfParse : option (file_data -> option jsstring).
Variable stringify : json -> jsstring.
Variable toLowerCase : jsstring -> jsstring.

(** The handler of POST /clean.  The [details] of the error answer are
    left out, and [res.send] is taken to send the bytes it is given. *)
Definition clean (req : Server.request) : sent file_data :=
  match Server.req_file req with
  | None => SentJson 400 (lit "No file uploaded")
  | Some f =>
      let name := Server.originalname f in
      let ext := EXT toLowerCase name in
      let respond cleaned :=
        match cleaned with
        | Some cleaned =>
            let fname := SAFE (BASENAME name) in
            SentFile (lit "application/octet-stream")
              (attachment (fname ++ lit "_cleaned." ++ ext)) cleaned
        | None => SentJson 500 (lit "Processing failed")
        end in
      if bool_decide (ext = lit "pdf") then respond (cleanPDF clock (Server.content f))
      else if bool_decide (ext = lit "docx") then respond (cleanDOCX (Server.content f))
      else SentJson 400 (lit "Unsupported format (PDF/DOCX)")
  end.

(** The handler of POST /clean-v2: the response and the requests made to
    the checking service. *)
Definition clean_v2 (svc : service json) (req : Server.request)
  : sent bundle * list lt_request :=
  match Server.req_file req with
  | None => (SentJson 400 (lit "No file uploaded"), [])
  | Some f =>
      let name := Server.originalname f in
      let ext := EXT toLowerCase name in
      let respond prepared :=
        match prepared with
        | Some (cleaned, text) =>
            let lang := or_else (Server.lt_language req) (lit "auto") in
            match languageToolCheck cfg text lang svc [] with
            | (Some ltResult, log) =>
                let fname := SAFE (BASENAME name) in
                (SentFile (lit "application/zip") (attachment (fname ++ lit "_bundle.zip"))
                   {| cleanedName := fname ++ lit "_cleaned." ++ ext;
                      cleaned := cleaned;
                      report_json := stringify ltResult;
                      report_page := report_html stringify ltResult |}, log)
            | (None, log) => (SentJson 500 (lit "Processing failed"), log)
            end
        | None => (SentJson 500 (lit "Processing failed"), [])
        end in
      if bool_decide (ext = lit "pdf") then
        respond (cleaned ← cleanPDF clock (Server.content f);
                 Some (cleaned, extractTextFromPDF pdfParse (Server.content f)))
      else if bool_decide (ext = lit "docx") then
        respond (cleaned ← cleanDOCX (Server.content f);
                 text ← extractTextFromDOCX (Server.content f);
                 Some (cleaned, text))
      else (SentJson 400 (lit "Unsupported format (PDF/DOCX)"), [])
  end.

End Handler.

End Beta.

(** ** Vocabulary of the proofs *)

Import Server.

(** *** Single-spaced text as tokens

    After the first two replacements of [cleanTextBasic] the text has no
    tab and no two spaces in a row.  Such a text is a sequence of code
    units other than the space, each with a flag that tells whether a
    space stands before it, and a last flag for a space at the end.  The
    remaining replacements keep the code units and only change flags. *)

Definition item := (bool * N)%type.

Fixpoint render (its : list item) (tl : bool) : jsstring :=
  match its with
  | [] => if tl then [SP] else []
  | (b, c) :: r => (if b then [SP] else []) ++ c :: render r tl
  end.

Definition okc (c : N) : bool := negb (is_sp_tab c) && negb (c =? ZWSP)%N.

Definition valid (its : list item) : Prop :=
  Forall (fun it : item => okc it.2 = true) its.

(** The tokens of a text, runs of blanks counted as one space. *)
Fixpoint tokens (b : bool) (s : jsstring) : list item :=
  match s with
  | [] => []
  | c :: r => if is_sp_tab c then tokens true r else (b, c) :: tokens false r
  end.

Fixpoint tokens_tail (b : bool) (s : jsstring) : bool :=
  match s with
  | [] => b
  | c :: r => if is_sp_tab c then tokens_tail true r else tokens_tail false r
  end.

(** The text without the optional space at its head. *)
Definition chomp (s : jsstring) : jsstring := drop (opt_space s) s.

Definition prev_is (q : N -> bool) (p : option N) : bool :=
  match p with Some c => q c | None => false end.

(** Recompute every flag from the code unit before, the flag and the code
    unit itself. *)
Fixpoint reflag (f : option N -> bool -> N -> bool) (prev : option N)
    (its : list item) : list item :=
  match its with
  | [] => []
  | (b, c) :: r => (f prev b c, c) :: reflag f (Some c) r
  end.

Fixpoint last_of (prev : option N) (its : list item) : option N :=
  match its with
  | [] => prev
  | (_, c) :: r => last_of (Some c) r
  end.

Definition is_lf (c : N) : bool := (c =? LF)%N.
Definition is_dot (c : N) : bool := (c =? DOT)%N.

(** What each replacement does to a flag. *)
Definition f3 (p : option N) (b : bool) (c : N) : bool :=
  b && negb (prev_is is_lf p) && negb (is_lf c).
Definition t3 (p : option N) (tl : bool) : bool := tl && negb (prev_is is_lf p).
Definition f4 (p : option N) (b : bool) (c : N) : bool :=
  if prev_is is_punct p then true else if is_punct c then false else b.
Definition t4 (p : option N) (tl : bool) : bool := tl || prev_is is_punct p.
Definition f5 (p : option N) (b : bool) (c : N) : bool := b && negb (is_dot c).
Definition F (p : option N) (b : bool) (c : N) : bool := f5 p (f4 p (f3 p b c) c) c.

(** Trimming, on tokens. *)
Fixpoint lead (its : list item) : list item :=
  match its with
  | [] => []
  | (b, c) :: r => if is_ws c then lead r else (false, c) :: r
  end.

Definition lead_tail (its : list item) (tl : bool) : bool :=
  match lead its with [] => false | _ => tl end.

Fixpoint trail (its : list item) : list item :=
  match its with
  | [] => []
  | (b, c) :: r =>
      match trail r with
      | [] => if is_ws c then [] else [(b, c)]
      | t => (b, c) :: t
      end
  end.

Definition drop_end (s : jsstring) : jsstring := rev (drop_while is_ws (rev s)).

Definition norm (its : list item) : list item := trail (lead (reflag F None its)).

Definition stable (prev : option N) (its : list item) : Prop := reflag F prev its = its.

(** The body of [cleanTextBasic]. *)
Definition pipeline (s : jsstring) : jsstring :=
  trim (collapse_spaces (tighten_dot (space_punct
    (tighten_newlines (collapse_blanks (strip_zwsp s)))))).

(** *** Elements of the core-properties entry *)

Inductive element := Creator | LastModifiedBy | Title | Subject | Keywords.

Definition tag_of (e : element) : jsstring :=
  match e with
  | Creator => creator
  | LastModifiedBy => lastModifiedBy
  | Title => title
  | Subject => subject
  | Keywords => keywords
  end.

Definition element_eqb (a b : element) : bool :=
  match a, b with
  | Creator, Creator | LastModifiedBy, LastModifiedBy | Title, Title
  | Subject, Subject | Keywords, Keywords => true
  | _, _ => false
  end.

(** One replacement, said without the scanner: either the text has a span
    from an opening tag to a closing tag, and the leftmost opening tag up
    to the nearest closing tag after it is replaced by the empty element,
    or it has none and stays as it is. *)
Definition first_span_blanked (t s s' : jsstring) : Prop :=
  (exists pre inner post,
      s = pre ++ open_tag t ++ inner ++ close_tag t ++ post
      /\ (forall i, i < length pre -> starts_with (open_tag t) (drop i s) = false)
      /\ (forall j, j < length inner ->
            starts_with (close_tag t) (drop j (inner ++ close_tag t ++ post)) = false)
      /\ s' = pre ++ open_tag t ++ close_tag t ++ post)
  \/ (s' = s
      /\ forall pre inner post, s <> pre ++ open_tag t ++ inner ++ close_tag t ++ post).

(** Every opening tag of the element is directly followed by its closing
    tag: the element has empty text wherever it occurs. *)
Fixpoint all_blank (t s : jsstring) : bool :=
  (if starts_with (open_tag t) s
   then starts_with (open_tag t ++ close_tag t) s else true)
  && match s with
     | [] => true
     | _ :: r => all_blank t r
     end.

(** No opening or closing tag of a listed element occurs in the text. *)
Definition tag_free (x : jsstring) : Prop :=
  forall e, includes (open_tag (tag_of e)) x = false
            /\ includes (close_tag (tag_of e)) x = false.

(** A flat entry: a leading text, then elements, each with its content
    and the text that follows it. *)
Definition segment := (element * jsstring * jsstring)%type.

Definition render_segment (g : segment) : jsstring :=
  open_tag (tag_of g.1.1) ++ g.1.2 ++ close_tag (tag_of g.1.1) ++ g.2.

Definition render_segments (segs : list segment) : jsstring :=
  concat (map render_segment segs).

Definition render_entry (pre : jsstring) (segs : list segment) : jsstring :=
  pre ++ render_segments segs.

Definition well_formed (pre : jsstring) (segs : list segment) : Prop :=
  tag_free pre /\ Forall (fun g : segment => tag_free g.1.2 /\ tag_free g.2) segs.

(** Empty the first element [e] of the entry. *)
Fixpoint blank_first_of (e : element) (segs : list segment) : list segment :=
  match segs with
  | [] => []
  | (e', x, a) :: r =>
      if element_eqb e e' then (e', [], a) :: r else (e', x, a) :: blank_first_of e r
  end.

Definition blank_firsts (segs : list segment) : list segment :=
  blank_first_of Keywords (blank_first_of Subject (blank_first_of Title
    (blank_first_of LastModifiedBy (blank_first_of Creator segs)))).

(** A pattern that starts with "<" and has no other "<". *)
Definition anchored (p : jsstring) : Prop :=
  exists body, p = LT :: body /\ Forall (fun c => c <> LT) body.

(** The two texts differ at a position both have. *)
Fixpoint clash (p x : jsstring) : bool :=
  match p, x with
  | a :: p', b :: x' => negb (a =? b)%N || clash p' x'
  | _, _ => false
  end.

(** *** The checking client *)

Definition nonblank (c : jsstring) : bool := negb (blank c).

(** The requests of a run in which every call succeeds. *)
Definition requests_of (cfg : config) (lang fullText : jsstring) : list lt_request :=
  map (fun c => payload cfg c lang) (List.filter nonblank (chunks fullText)).

(** How often a rule key occurs among the matches. *)
Definition occurrences (key : jsstring) (matches : list CheckMatch) : nat :=
  length (List.filter (fun m => bool_decide (rule_key m = key)) matches).

(** A flat entry with every listed element emptied. *)
Definition kind (g : segment) : element := g.1.1.
Definition emptied (g : segment) : segment := (g.1.1, [], g.2).



(** What is taken of [toLowerCase]: on ASCII text it changes the letters
    A to Z and nothing else. *)
Definition is_ascii (c : N) : bool := (c <? 128)%N.

Definition folds_ascii (toLowerCase : jsstring -> jsstring) : Prop :=
  forall s, forallb is_ascii s = true -> toLowerCase s = map lower s.

(** *** The shape of a normalised text *)

(** Every two, every three neighbours of a text satisfy a test. *)
Fixpoint pairs (ok : N -> N -> bool) (s : jsstring) : bool :=
  match s with
  | [] => true
  | a :: r => match r with b :: _ => ok a b | [] => true end && pairs ok r
  end.

Fixpoint triples (ok : N -> N -> N -> bool) (s : jsstring) : bool :=
  match s with
  | [] => true
  | a :: r => match r with b :: c :: _ => ok a b c | _ => true end && triples ok r
  end.

(** Two neighbours of a text that [cleanTextBasic] returns: no two
    spaces, no space before a dot, no space after a newline, and after a
    code unit of [[,;:!?]] a space or a dot. *)
Definition shape2 (a b : N) : bool :=
  negb (is_sp a && is_sp b)
  && negb (is_sp a && is_dot b)
  && negb (is_lf a && is_sp b)
  && (negb (is_punct a) || is_sp b || is_dot b).

(** Three neighbours: a space stands before a code unit of [[,;:!?]] or
    before a newline only when it is the space that follows another code
    unit of [[,;:!?]]. *)
Definition shape3 (a b c : N) : bool :=
  negb (is_sp b && (is_punct c || is_lf c)) || is_punct a.

(** Neither white space nor the zero-width space. *)
Definition visible (c : N) : bool := negb (is_ws c) && negb (c =? ZWSP)%N.

(** The text does not start with white space. *)
Definition first_ok (s : jsstring) : bool :=
  match s with c :: _ => negb (is_ws c) | [] => true end.

(** *** Text runs of word/document.xml *)

Definition wt_open (attrs : jsstring) : jsstring := lit "<w:t" ++ attrs ++ [GT].
Definition wt_close : jsstring := lit "</w:t>".

(** The rewriting of word/document.xml by the beta, the body of the
    branch [if (docFile)] of [cleanDOCX]. *)
Definition beta_clean_xml (xml : jsstring) : jsstring :=
  replace_all (Beta.m_space_before 63) (replace_all (Beta.m_space_before 33)
    (replace_all (Beta.m_space_before DOT) (replace_all (Beta.m_space_before 44)
      (replace_all Beta.m_ws_run xml)))).

(** White space occurs only as the space. *)
Definition spaces_only (s : jsstring) : bool :=
  forallb (fun c => negb (is_ws c) || is_sp c) s.

(** The code units before which the beta removes a space. *)
Definition beta_punct (c : N) : bool :=
  (c =? 44)%N || (c =? DOT)%N || (c =? 33)%N || (c =? 63)%N.

(** No space stands before a code unit of the class [g]. *)
Definition no_space_before (g : N -> bool) (s : jsstring) : bool :=
  pairs (fun a b => negb (is_sp a && g b)) s.

(** *** Answers of the service, counts *)

(** [resp?.data?.matches] of an answer, the empty list when it is
    missing. *)
Definition matches_of (answer : option (option (list CheckMatch))) : list CheckMatch :=
  match answer with
  | Some (Some ms) => ms
  | _ => []
  end.

(** The answers of the service to the requests [reqs], sent one after
    the other after the requests [log]. *)
Definition answers (svc : service (option (list CheckMatch))) (log reqs : list lt_request)
  : list (option (option (list CheckMatch))) :=
  imap (fun k q => svc (log ++ take k reqs) q) reqs.

(** The numeric counts of [byRule], added up. *)
Definition total_count (byRule : gmap jsstring jsval) : nat :=
  map_fold (fun _ v acc => match v with VNum n => n + acc | VStr _ => acc end) 0 byRule.

(** *** Names and headers *)

(** The code units of an encoded component: the copied ones and the
    percent sign (the hexadecimal digits are among the copied ones). *)
Definition uri_char (c : N) : bool := unescaped c || (c =? 37)%N.

(** A 16-bit code unit. *)
Definition is_unit (c : N) : bool := (c <? 65536)%N.

Definition is_surrogate (c : N) : bool := is_high c || is_low c.

(** The code units of a name that [SAFE] has made: letters, digits and
    [_.-()]. *)
Definition is_name (c : N) : bool :=
  is_word c || (c =? DOT)%N || (c =? 45)%N || (c =? 40)%N || (c =? 41)%N.

Definition no_dot (c : N) : bool := negb (c =? DOT)%N.
Definition no_dot_slash (d : N) : bool := negb ((d =? 47)%N || (d =? DOT)%N).
Definition no_comma (s : jsstring) : bool := forallb (fun c => negb (c =? 44)%N) s.

(** A text without line terminator. *)
Definition one_line (s : jsstring) : bool :=
  forallb (fun c => negb (is_line_terminator c)) s.

(** *** Sample inputs *)

Definition sample_cfg : config :=
  {| LT_URL := lit "https://api.languagetool.org/v2/check"; LT_KEY := None |}.

Definition sample_beta_cfg : Beta.config :=
  {| Beta.LT_API_URL := lit "https://api.languagetool.org/v2/check";
     Beta.LT_API_KEY := [] |}.

Definition sample_pdf : pdf :=
  {| pdf_pages := [lit "page 1"; lit "page 2"];
     pdf_title := Some (lit "Quarterly report");
     pdf_author := Some (lit "Jane");
     pdf_subject := None;
     pdf_keywords := Some (lit "finance draft");
     pdf_producer := Some (lit "Word");
     pdf_creator := Some (lit "Word");
     pdf_creationDate := Some 1700000000000%Z;
     pdf_modificationDate := Some 1700000360000%Z;
     pdf_rest := [lit "xmp packet"] |}.

(** A clock that reads 2023-11-14 22:13:20 UTC and a millisecond more at
    each reading. *)
Definition sample_clock (k : nat) : Z := (1700000000000 + Z.of_nat k)%Z.

Definition sample_upload : upload :=
  {| originalname := lit "report.pdf"; content := PdfBytes sample_pdf |}.

Definition sample_request : request :=
  {| req_file := Some sample_upload; lt_language := None |}.

(** An upload whose name carries markup. *)
Definition script_request : request :=
  {| req_file := Some {| originalname := lit "<script>.pdf"; content := PdfBytes sample_pdf |};
     lt_language := None |}.

(** A text layer, and a service whose every call times out. *)
Definition sample_pdfParse (b : file_data) : option jsstring := Some (lit "Hello world").

Definition service_down : service (option (list CheckMatch)) := fun _ _ => None.

(** A service that finds nothing. *)
Definition service_quiet : service (option (list CheckMatch)) := fun _ _ => Some (Some []).

Definition beta_service_quiet : service Beta.json :=
  fun _ _ => Some (Beta.JObj [(lit "matches", Beta.JArr [])]).

Definition match_of_rule (id : jsstring) : CheckMatch :=
  {| rule_id := Some id; message := Some (lit "Possible typo");
     replacements := Some [lit "their"]; context_text := Some (lit "thier car") |}.

Definition two_creators : jsstring :=
  lit "<dc:creator>A</dc:creator><dc:creator>B</dc:creator>".

Definition nested_creator : jsstring :=
  lit "<dc:creator>A</dc:creator><dc:title><dc:creator>B</dc:creator></dc:title>".

(** The attribute of a run that keeps its white space. *)
Definition preserve : jsstring := lit " xml:space=" ++ [DQ] ++ lit "preserve" ++ [DQ].

Definition sample_docx : archive :=
  {[ docPath := lit "<w:p><w:r><w:t>Hello  world ,test</w:t></w:r></w:p>" ]}.

Definition docx_upload : upload :=
  {| originalname := lit "Notes.DOCX"; content := ZipBytes sample_docx |}.

Definition docx_request : request :=
  {| req_file := Some docx_upload; lt_language := None |}.

Definition sample_stringify (j : Beta.json) : jsstring := lit "{}".

(** [toLowerCase] for the sample names, which are ASCII: A to Z folded. *)
Definition sample_toLowerCase : jsstring -> jsstring := map lower.

(** A service that reports one issue per request. *)
Definition service_one : service (option (list CheckMatch)) :=
  fun _ _ => Some (Some [match_of_rule (lit "MORFOLOGIK_RULE_EN_US")]).

Definition sample_origins : list jsstring :=
  [lit "https://a.example"; lit " https://b.example "].

(** ** Lemmas *)

(** *** The model at work *)

Example strip_zwsp_sample :
  strip_zwsp (lit "a" ++ [ZWSP] ++ lit "b") = lit "ab".
Proof. vm_compute. reflexivity. Qed.

Example collapse_blanks_sample :
  collapse_blanks (lit "a " ++ [TAB; TAB] ++ lit "  b") = lit "a b".
Proof. vm_compute. reflexivity. Qed.

Example tighten_newlines_sample :
  tighten_newlines (lit "a  " ++ [LF] ++ lit " b c " ++ [LF]) = lit "a" ++ [LF] ++ lit "b c" ++ [LF].
Proof. vm_compute. reflexivity. Qed.

Example space_punct_sample :
  space_punct (lit "a ,b;c : d") = lit "a, b; c: d".
Proof. vm_compute. reflexivity. Qed.

Example tighten_dot_sample :
  tighten_dot (lit "end . Next .") = lit "end. Next.".
Proof. vm_compute. reflexivity. Qed.

Example cleanTextBasic_sample :
  cleanTextBasic ([LF] ++ lit "  Wait , what ?! Fine ." ++ [TAB; LF])
  = lit "Wait, what? ! Fine.".
Proof. vm_compute. reflexivity. Qed.

Example replace_str_sample :
  replace_str (lit "b") (lit "[$&$$$'$1]") (lit "abc") = lit "a[b$c$1]c".
Proof. vm_compute. reflexivity. Qed.

Example m_wt_clean_sample :
  replace_all m_wt_clean (lit "<w:p><w:t xml:space='preserve'>Hello  world ,test </w:t></w:p>")
  = lit "<w:p><w:t xml:space='preserve'>Hello world, test</w:t></w:p>".
Proof. vm_compute. reflexivity. Qed.

Example extractTextFromDOCX_sample :
  extractTextFromDOCX
    (ZipBytes {[ docPath := lit "<w:p><w:t>Hello  world ,test</w:t><w:t>a b</w:t></w:p>" ]})
  = Some (lit "Hello world, test a b").
Proof. vm_compute. reflexivity. Qed.

Example blank_core_sample :
  blank_core (lit "<x><dc:creator>A</dc:creator><cp:keywords>k1, k2</cp:keywords><dc:title/></x>")
  = lit "<x><dc:creator></dc:creator><cp:keywords></cp:keywords><dc:title/></x>".
Proof. vm_compute. reflexivity. Qed.

Example count_rules_sample :
  let by_rule := count_rules [match_of_rule (lit "TYPO"); match_of_rule [];
                              match_of_rule (lit "TYPO")] in
  by_rule !! lit "TYPO" = Some (VNum 2)
  /\ by_rule !! lit "GENERIC" = Some (VNum 1)
  /\ by_rule !! lit "OTHER" = None.
Proof. repeat split; vm_compute; reflexivity. Qed.

Example row_sample :
  row 0 {| rule_id := Some (lit "TYPO"); message := Some (lit "a < b");
           replacements := Some [lit "x"; lit "y"; lit "z"; lit "w"];
           context_text := None |}
  = tpl "<tr>" ++ [LF]
    ++ tpl "        " ++ td ++ lit "1</td>" ++ [LF]
    ++ tpl "        " ++ td ++ lit "TYPO</td>" ++ [LF]
    ++ tpl "        " ++ td ++ lit "a &lt; b</td>" ++ [LF]
    ++ tpl "        " ++ td ++ lit "x, y, z</td>" ++ [LF]
    ++ tpl "        " ++ td ++ lit "</td>" ++ [LF]
    ++ tpl "      </tr>".
Proof. vm_compute. reflexivity. Qed.

Example file_names_sample :
  strip_ext (lit ".pdf") (lit "Report.PDF") ++ lit "_cleaned.pdf" = lit "Report_cleaned.pdf"
  /\ zip_name (lit "notes.docx") = lit "notes_docsafe_report.zip"
  /\ ends_with_ci (lit ".docx") (lit "notes.doc") = false.
Proof. repeat split; vm_compute; reflexivity. Qed.

Example clean_v2_sample :
  exists zip,
    clean_v2 sample_cfg 0 sample_pdfParse service_quiet sample_request
    = (SendZip (lit "report_docsafe_report.zip") zip,
       [payload sample_cfg (lit "Hello world") (lit "auto")])
    /\ cleanedName zip = lit "report_cleaned.pdf"
    /\ totalIssues (report_summary (report_json zip)) = 0.
Proof. eexists. split; [vm_compute; reflexivity|]. split; vm_compute; reflexivity. Qed.

Example beta_clean_archive_sample :
  Beta.clean_archive
    (<[ lit "customXml/item1.xml" := lit "<x/>" ]>
       (<[ corePath := lit "<dc:creator>Jane</dc:creator>" ]>
          {[ docPath := lit "<w:t>Hello  world ,test</w:t>" ]}))
  = {[ docPath := lit "<w:t>Hello world,test</w:t>" ]}.
Proof. vm_compute. reflexivity. Qed.

(** *** The scanner and the normaliser *)

Arguments replace_all : simpl never.
Arguments strip_zwsp : simpl never.
Arguments collapse_blanks : simpl never.
Arguments tighten_newlines : simpl never.
Arguments space_punct : simpl never.
Arguments tighten_dot : simpl never.
Arguments collapse_spaces : simpl never.

(** generic scanner facts *)
Lemma replace_from_drop m k s : replace_from m k s = replace_all m (drop k s).
Proof.
  revert k. induction s as [|c r IH]; intros [|k]; simpl; try reflexivity.
  apply IH.
Qed.

Lemma replace_all_cons m c r :
  replace_all m (c :: r) =
  match m (c :: r) with
  | Some (S n, rep) => rep ++ replace_all m (drop n r)
  | _ => c :: replace_all m r
  end.
Proof.
  unfold replace_all. simpl.
  destruct (m (c :: r)) as [[[|n] rep]|]; try reflexivity.
  now rewrite replace_from_drop.
Qed.

Lemma drop_count_while p s : drop (count_while p s) s = drop_while p s.
Proof. induction s as [|c r IH]; simpl; [reflexivity|]. destruct (p c); simpl; auto. Qed.

Lemma okc_sp c : okc c = true -> is_sp c = false.
Proof.
  unfold okc, is_sp_tab, is_sp. destruct (c =? SP)%N; simpl; [discriminate|reflexivity].
Qed.
Lemma okc_sp_tab c : okc c = true -> is_sp_tab c = false.
Proof. unfold okc. destruct (is_sp_tab c); simpl; [discriminate|reflexivity]. Qed.
Lemma okc_zwsp c : okc c = true -> (c =? ZWSP)%N = false.
Proof. unfold okc. destruct (c =? ZWSP)%N; [rewrite andb_false_r; discriminate|reflexivity]. Qed.

Lemma opt_space_render_cons b c r tl :
  is_sp c = false -> opt_space (render ((b, c) :: r) tl) = if b then 1 else 0.
Proof. intros H. destruct b; simpl; [reflexivity|now rewrite H]. Qed.

Lemma chomp_render_cons b c r tl :
  is_sp c = false -> chomp (render ((b, c) :: r) tl) = c :: render r tl.
Proof. intros H. unfold chomp. rewrite opt_space_render_cons by assumption. now destruct b. Qed.

Lemma chomp_render_nil tl : chomp (render [] tl) = [].
Proof. now destruct tl. Qed.

Lemma count_sp_render its tl :
  valid its -> count_while is_sp (render its tl) = opt_space (render its tl).
Proof.
  intros Hv. destruct its as [|[b c] r].
  - now destruct tl.
  - inversion Hv as [|? ? Hc _]; subst. apply okc_sp in Hc. simpl in Hc.
    destruct b; simpl; now rewrite Hc.
Qed.

Lemma drop_count_sp_render its tl :
  valid its -> drop (count_while is_sp (render its tl)) (render its tl) = chomp (render its tl).
Proof. intros Hv. unfold chomp. now rewrite count_sp_render. Qed.

(** stage 1: zero-width spaces *)
Lemma strip_zwsp_cons c r :
  strip_zwsp (c :: r) = if (c =? ZWSP)%N then strip_zwsp r else c :: strip_zwsp r.
Proof.
  unfold strip_zwsp. rewrite replace_all_cons. simpl.
  destruct (c =? ZWSP)%N; reflexivity.
Qed.

Lemma strip_zwsp_keep c r : (c =? ZWSP)%N = false -> strip_zwsp (c :: r) = c :: strip_zwsp r.
Proof. intros H. now rewrite strip_zwsp_cons, H. Qed.

Lemma strip_zwsp_clean s : Forall (fun c => (c =? ZWSP)%N = false) (strip_zwsp s).
Proof.
  induction s as [|c r IH]; [constructor|].
  rewrite strip_zwsp_cons. destruct (c =? ZWSP)%N eqn:E; [assumption|].
  constructor; assumption.
Qed.

Lemma strip_zwsp_render its tl : valid its -> strip_zwsp (render its tl) = render its tl.
Proof.
  induction 1 as [|[b c] r Hc _ IH]; cbn [render].
  - destruct tl; [|reflexivity]. now rewrite strip_zwsp_keep.
  - simpl in Hc. apply okc_zwsp in Hc.
    destruct b; cbn [app]; [rewrite strip_zwsp_keep by reflexivity|];
      rewrite strip_zwsp_keep by assumption; now rewrite IH.
Qed.

(** stage 2: runs of blanks *)
Lemma collapse_blanks_nonblank c r :
  is_sp_tab c = false -> collapse_blanks (c :: r) = c :: collapse_blanks r.
Proof.
  intros H. unfold collapse_blanks. rewrite replace_all_cons.
  unfold m_blank_run. simpl. now rewrite H.
Qed.

Lemma collapse_blanks_blank c r :
  is_sp_tab c = true -> collapse_blanks (c :: r) = SP :: collapse_blanks (drop_while is_sp_tab r).
Proof.
  intros H. unfold collapse_blanks. rewrite replace_all_cons.
  unfold m_blank_run. simpl. rewrite H. simpl. now rewrite drop_count_while.
Qed.

Lemma collapse_blanks_tokens s :
  collapse_blanks s = render (tokens false s) (tokens_tail false s)
  /\ SP :: collapse_blanks (drop_while is_sp_tab s) = render (tokens true s) (tokens_tail true s).
Proof.
  induction s as [|c r [IH1 IH2]]; simpl; [auto|].
  destruct (is_sp_tab c) eqn:E.
  - rewrite collapse_blanks_blank by assumption. auto.
  - rewrite collapse_blanks_nonblank by assumption. simpl. rewrite IH1. auto.
Qed.

Lemma tokens_valid b s :
  Forall (fun c => (c =? ZWSP)%N = false) s -> valid (tokens b s).
Proof.
  intros H. revert b. induction H as [|c r Hc _ IH]; intros b; simpl; [constructor|].
  destruct (is_sp_tab c) eqn:E; [apply IH|].
  constructor; [|apply IH]. simpl. unfold okc. now rewrite E, Hc.
Qed.

Lemma collapse_blanks_render its tl : valid its -> collapse_blanks (render its tl) = render its tl.
Proof.
  induction 1 as [|[b c] r Hc Hr IH]; simpl.
  - destruct tl; [|reflexivity]. now rewrite collapse_blanks_blank.
  - simpl in Hc. apply okc_sp_tab in Hc.
    assert (Hx : collapse_blanks (c :: render r tl) = c :: render r tl).
    { rewrite collapse_blanks_nonblank by assumption. now rewrite IH. }
    destruct b; simpl; [|assumption].
    rewrite collapse_blanks_blank by reflexivity. simpl. now rewrite Hc, Hx.
Qed.

(** stage 3: spaces around newlines *)
Lemma m_newline_char c X :
  is_sp c = false ->
  m_newline (c :: X) = if is_lf c then Some (S (count_while is_sp X), [LF]) else None.
Proof. intros H. unfold m_newline. simpl. rewrite H. simpl. reflexivity. Qed.

Lemma m_newline_sp_char c X :
  is_sp c = false ->
  m_newline (SP :: c :: X) = if is_lf c then Some (S (S (count_while is_sp X)), [LF]) else None.
Proof.
  intros H. unfold m_newline. simpl. rewrite H. simpl.
  unfold is_lf. destruct (c =? LF)%N; reflexivity.
Qed.

Lemma tighten_char c X :
  is_sp c = false ->
  tighten_newlines (c :: X) =
  c :: tighten_newlines (if is_lf c then drop (count_while is_sp X) X else X).
Proof.
  intros H. unfold tighten_newlines. rewrite replace_all_cons, m_newline_char by assumption.
  unfold is_lf. destruct (c =? LF)%N eqn:E; [|reflexivity].
  apply N.eqb_eq in E. subst. reflexivity.
Qed.

Lemma tighten_sp_char c X :
  is_sp c = false ->
  tighten_newlines (SP :: c :: X) =
  if is_lf c then c :: tighten_newlines (drop (count_while is_sp X) X)
  else SP :: c :: tighten_newlines X.
Proof.
  intros H. unfold tighten_newlines at 1. rewrite replace_all_cons, m_newline_sp_char by assumption.
  unfold is_lf. destruct (c =? LF)%N eqn:E.
  - apply N.eqb_eq in E. subst. reflexivity.
  - fold tighten_newlines. rewrite tighten_char by assumption. unfold is_lf. now rewrite E.
Qed.

Lemma tighten_render its : forall prev tl,
  valid its ->
  tighten_newlines (if prev_is is_lf prev then chomp (render its tl) else render its tl)
  = render (reflag f3 prev its) (t3 (last_of prev its) tl).
Proof.
  induction its as [|[b c] r IH]; intros prev tl Hv.
  - cbn [reflag last_of]. unfold t3. destruct (prev_is is_lf prev); cbn [negb].
    + rewrite chomp_render_nil, andb_false_r. reflexivity.
    + rewrite andb_true_r. destruct tl; reflexivity.
  - inversion Hv as [|? ? Hc Hr]; subst. simpl in Hc.
    pose proof (okc_sp _ Hc) as Hsp.
    specialize (IH (Some c) tl Hr). simpl prev_is in IH.
    rewrite <- (drop_count_sp_render r tl Hr) in IH.
    cbn [reflag last_of]. unfold f3 at 1.
    destruct (prev_is is_lf prev).
    + rewrite chomp_render_cons by assumption.
      rewrite tighten_char by assumption. rewrite IH.
      rewrite andb_false_r. reflexivity.
    + rewrite andb_true_r. destruct b; cbn [render app andb].
      * rewrite tighten_sp_char by assumption.
        destruct (is_lf c); cbn [negb app]; now rewrite IH.
      * rewrite tighten_char by assumption. now rewrite IH.
Qed.

Lemma space_punct_char c X :
  is_sp c = false ->
  space_punct (c :: X) =
  if is_punct c then c :: SP :: space_punct (chomp X) else c :: space_punct X.
Proof.
  intros H. unfold space_punct. rewrite replace_all_cons. unfold m_punct. rewrite H.
  destruct (is_punct c); reflexivity.
Qed.

Lemma space_punct_sp_char c X :
  is_sp c = false ->
  space_punct (SP :: c :: X) =
  if is_punct c then c :: SP :: space_punct (chomp X) else SP :: c :: space_punct X.
Proof.
  intros H. unfold space_punct at 1. rewrite replace_all_cons. unfold m_punct.
  change (is_sp SP) with true. cbv iota.
  destruct (is_punct c) eqn:E; [reflexivity|].
  fold space_punct. rewrite space_punct_char by assumption. now rewrite E.
Qed.

Lemma space_punct_render its : forall prev tl,
  valid its ->
  (if prev_is is_punct prev then SP :: space_punct (chomp (render its tl))
   else space_punct (render its tl))
  = render (reflag f4 prev its) (t4 (last_of prev its) tl).
Proof.
  induction its as [|[b c] r IH]; intros prev tl Hv.
  - cbn [reflag last_of]. unfold t4. destruct (prev_is is_punct prev).
    + rewrite chomp_render_nil, orb_true_r. reflexivity.
    + rewrite orb_false_r. destruct tl; reflexivity.
  - inversion Hv as [|? ? Hc Hr]; subst. simpl in Hc.
    pose proof (okc_sp _ Hc) as Hsp.
    specialize (IH (Some c) tl Hr). simpl prev_is in IH.
    cbn [reflag last_of]. unfold f4 at 1.
    destruct (prev_is is_punct prev).
    + rewrite chomp_render_cons by assumption.
      rewrite space_punct_char by assumption.
      destruct (is_punct c); cbn [render app]; now rewrite <- IH.
    + destruct b; cbn [render app].
      * rewrite space_punct_sp_char by assumption.
        destruct (is_punct c); cbn [render app]; now rewrite <- IH.
      * rewrite space_punct_char by assumption.
        destruct (is_punct c); cbn [render app]; now rewrite <- IH.
Qed.

(** stage 5: no space before a full stop *)
Lemma tighten_dot_char c X :
  is_sp c = false -> tighten_dot (c :: X) = c :: tighten_dot X.
Proof.
  intros H. unfold tighten_dot. rewrite replace_all_cons. unfold m_space_dot.
  rewrite H. destruct X; reflexivity.
Qed.

Lemma tighten_dot_sp_char c X :
  is_sp c = false ->
  tighten_dot (SP :: c :: X) = if is_dot c then c :: tighten_dot X else SP :: c :: tighten_dot X.
Proof.
  intros H. unfold tighten_dot at 1. rewrite replace_all_cons. unfold m_space_dot.
  change (is_sp SP) with true. cbv iota. unfold is_dot. cbn [andb].
  destruct (c =? DOT)%N eqn:E.
  - apply N.eqb_eq in E. subst. reflexivity.
  - fold tighten_dot. now rewrite tighten_dot_char.
Qed.

Lemma tighten_dot_render its : forall prev tl,
  valid its -> tighten_dot (render its tl) = render (reflag f5 prev its) tl.
Proof.
  induction its as [|[b c] r IH]; intros prev tl Hv.
  - destruct tl; reflexivity.
  - inversion Hv as [|? ? Hc Hr]; subst. simpl in Hc.
    pose proof (okc_sp _ Hc) as Hsp.
    cbn [reflag]. unfold f5 at 1. destruct b; cbn [render app andb].
    + rewrite tighten_dot_sp_char by assumption.
      destruct (is_dot c); cbn [negb app]; now rewrite (IH (Some c)).
    + rewrite tighten_dot_char by assumption. now rewrite (IH (Some c)).
Qed.

(** stage 6: nothing left to collapse *)
Lemma collapse_spaces_char c X :
  is_sp c = false -> collapse_spaces (c :: X) = c :: collapse_spaces X.
Proof.
  intros H. unfold collapse_spaces. rewrite replace_all_cons. unfold m_spaces2.
  cbn [count_while]. now rewrite H.
Qed.

Lemma collapse_spaces_sp_char c X :
  is_sp c = false -> collapse_spaces (SP :: c :: X) = SP :: c :: collapse_spaces X.
Proof.
  intros H. unfold collapse_spaces at 1. rewrite replace_all_cons. unfold m_spaces2.
  cbn [count_while]. change (is_sp SP) with true. rewrite H. cbn.
  fold collapse_spaces. now rewrite collapse_spaces_char.
Qed.

Lemma collapse_spaces_render its tl :
  valid its -> collapse_spaces (render its tl) = render its tl.
Proof.
  induction 1 as [|[b c] r Hc Hr IH]; cbn [render].
  - destruct tl; reflexivity.
  - simpl in Hc. apply okc_sp in Hc. destruct b; cbn [app].
    + rewrite collapse_spaces_sp_char by assumption. now rewrite IH.
    + rewrite collapse_spaces_char by assumption. now rewrite IH.
Qed.

Lemma reflag_valid f prev its : valid its -> valid (reflag f prev its).
Proof.
  intros H. revert prev. induction H as [|[b c] r Hc _ IH]; intros prev; cbn [reflag]; constructor; [assumption|apply IH].
Qed.

(** trimming *)
Lemma drop_ws_render its tl :
  drop_while is_ws (render its tl) = render (lead its) (lead_tail its tl).
Proof.
  unfold lead_tail. induction its as [|[b c] r IH]; cbn [render lead].
  - destruct tl; reflexivity.
  - assert (H : drop_while is_ws (c :: render r tl) =
                render (if is_ws c then lead r else (false, c) :: r)
                  match (if is_ws c then lead r else (false, c) :: r) with [] => false | _ => tl end).
    { cbn [drop_while]. destruct (is_ws c); [exact IH|reflexivity]. }
    destruct b; cbn [app]; [|exact H].
    cbn [drop_while]. change (is_ws SP) with true. cbv iota. exact H.
Qed.

Lemma drop_while_app_all s t :
  drop_while is_ws s = [] -> drop_while is_ws (s ++ t) = drop_while is_ws t.
Proof.
  induction s as [|c r IH]; cbn [drop_while app]; [reflexivity|].
  destruct (is_ws c); [exact IH|discriminate].
Qed.

Lemma drop_while_app_some s t :
  drop_while is_ws s <> [] -> drop_while is_ws (s ++ t) = drop_while is_ws s ++ t.
Proof.
  induction s as [|c r IH]; cbn [drop_while app]; [congruence|].
  destruct (is_ws c); [exact IH|reflexivity].
Qed.

Lemma drop_end_cons c s :
  drop_end (c :: s) =
  match drop_end s with
  | [] => if is_ws c then [] else [c]
  | t => c :: t
  end.
Proof.
  unfold drop_end. cbn [rev].
  destruct (drop_while is_ws (rev s)) as [|d t] eqn:E.
  - rewrite drop_while_app_all by assumption. cbn [drop_while rev].
    destruct (is_ws c); reflexivity.
  - rewrite drop_while_app_some by (rewrite E; discriminate).
    rewrite E, rev_app_distr. cbn [rev app].
    destruct (rev t ++ [d]) eqn:E2; [|reflexivity].
    destruct (rev t); discriminate.
Qed.

Lemma drop_end_render its tl :
  drop_end (render its tl) = render (trail its) false.
Proof.
  induction its as [|[b c] r IH]; cbn [render trail].
  - destruct tl; reflexivity.
  - assert (H : drop_end (c :: render r tl) =
       match trail r with [] => if is_ws c then [] else [c] | _ => c :: render (trail r) false end).
    { rewrite drop_end_cons, IH. destruct (trail r) as [|[b' c'] t] eqn:E; [reflexivity|].
      destruct b'; reflexivity. }
    destruct b; cbn [app].
    + rewrite drop_end_cons, H. destruct (trail r) as [|it t].
      * destruct (is_ws c); reflexivity.
      * reflexivity.
    + rewrite H. destruct (trail r) as [|it t]; [destruct (is_ws c)|]; reflexivity.
Qed.

Lemma trim_render its tl : trim (render its tl) = render (trail (lead its)) false.
Proof. unfold trim. rewrite drop_ws_render. apply drop_end_render. Qed.

Lemma lead_valid its : valid its -> valid (lead its).
Proof.
  induction 1 as [|[b c] r Hc Hr IH]; cbn [lead]; [constructor|].
  destruct (is_ws c); [assumption|]. constructor; assumption.
Qed.

Lemma trail_valid its : valid its -> valid (trail its).
Proof.
  induction 1 as [|[b c] r Hc Hr IH]; cbn [trail]; [constructor|].
  destruct (trail r) as [|it t]; [destruct (is_ws c); repeat constructor; assumption|].
  constructor; assumption.
Qed.

(** the whole transform on tokens *)
Lemma reflag_compose f g its : forall prev,
  reflag g prev (reflag f prev its) = reflag (fun p b c => g p (f p b c) c) prev its.
Proof. induction its as [|[b c] r IH]; intros prev; cbn [reflag]; [reflexivity|]. now rewrite IH. Qed.

Lemma stages_render its tl :
  valid its ->
  exists tl',
    collapse_spaces (tighten_dot (space_punct (tighten_newlines (render its tl))))
    = render (reflag F None its) tl'.
Proof.
  intros Hv.
  pose proof (tighten_render its None tl Hv) as H3. cbn [prev_is] in H3. rewrite H3.
  pose proof (reflag_valid f3 None its Hv) as Hv3.
  pose proof (space_punct_render _ None (t3 (last_of None its) tl) Hv3) as H4.
  cbn [prev_is] in H4. rewrite H4.
  pose proof (reflag_valid f4 None _ Hv3) as Hv4.
  rewrite (tighten_dot_render _ None) by assumption.
  rewrite collapse_spaces_render by (apply reflag_valid; assumption).
  rewrite !reflag_compose. eexists. reflexivity.
Qed.

Lemma pipeline_render its tl :
  valid its -> pipeline (render its tl) = render (norm its) false.
Proof.
  intros Hv. unfold pipeline.
  rewrite strip_zwsp_render, collapse_blanks_render by assumption.
  destruct (stages_render its tl Hv) as [tl' ->].
  apply trim_render.
Qed.

Lemma pipeline_tokens s :
  pipeline s = render (norm (tokens false (strip_zwsp s))) false.
Proof.
  unfold pipeline.
  rewrite (proj1 (collapse_blanks_tokens (strip_zwsp s))).
  pose proof (tokens_valid false _ (strip_zwsp_clean s)) as Hv.
  destruct (stages_render _ (tokens_tail false (strip_zwsp s)) Hv) as [tl' ->].
  apply trim_render.
Qed.

Lemma norm_valid its : valid its -> valid (norm its).
Proof. intros H. apply trail_valid, lead_valid, reflag_valid, H. Qed.

Lemma F_idem p b c : F p (F p b c) c = F p b c.
Proof.
  unfold F, f5, f4, f3.
  destruct (prev_is is_punct p), (prev_is is_lf p), (is_punct c), (is_lf c), (is_dot c), b; reflexivity.
Qed.

Lemma F_none_false c : F None false c = false.
Proof. unfold F, f5, f4, f3. cbn [prev_is andb]. destruct (is_punct c); reflexivity. Qed.

Lemma stable_reflag its : forall prev, stable prev (reflag F prev its).
Proof.
  unfold stable. induction its as [|[b c] r IH]; intros prev; cbn [reflag]; [reflexivity|].
  now rewrite F_idem, IH.
Qed.

Lemma stable_cons prev b c r :
  stable prev ((b, c) :: r) <-> F prev b c = b /\ stable (Some c) r.
Proof.
  unfold stable. cbn [reflag]. split.
  - intros H. injection H. auto.
  - intros [-> ->]. reflexivity.
Qed.

Lemma stable_lead its : forall prev, stable prev its -> stable None (lead its).
Proof.
  induction its as [|[b c] r IH]; intros prev H; cbn [lead]; [reflexivity|].
  apply stable_cons in H as [Hb Hr].
  destruct (is_ws c); [eapply IH; eassumption|].
  apply stable_cons. split; [apply F_none_false|assumption].
Qed.

Lemma stable_trail its : forall prev, stable prev its -> stable prev (trail its).
Proof.
  induction its as [|[b c] r IH]; intros prev H; cbn [trail]; [reflexivity|].
  apply stable_cons in H as [Hb Hr]. specialize (IH _ Hr).
  destruct (trail r) as [|it t].
  - destruct (is_ws c); [reflexivity|]. apply stable_cons. split; [assumption|reflexivity].
  - apply stable_cons. split; assumption.
Qed.

Lemma trail_trail its : trail (trail its) = trail its.
Proof.
  induction its as [|[b c] r IH]; cbn [trail]; [reflexivity|].
  destruct (trail r) as [|it t] eqn:E.
  - destruct (is_ws c) eqn:Ec; cbn [trail]; [reflexivity|]. now rewrite Ec.
  - cbn [trail]. cbn [trail] in IH. rewrite IH. reflexivity.
Qed.

Lemma trail_keeps_head b c r :
  is_ws c = false -> exists t, trail ((b, c) :: r) = (b, c) :: t.
Proof.
  intros H. cbn [trail]. destruct (trail r); [rewrite H|]; eexists; reflexivity.
Qed.

Lemma lead_trail_lead its : lead (trail (lead its)) = trail (lead its).
Proof.
  induction its as [|[b c] r IH]; cbn [lead]; [reflexivity|].
  destruct (is_ws c) eqn:E; [assumption|].
  destruct (trail_keeps_head false c r E) as [t ->].
  cbn [lead]. now rewrite E.
Qed.

Lemma norm_idem its : norm (norm its) = norm its.
Proof.
  unfold norm.
  assert (H : stable None (trail (lead (reflag F None its)))).
  { apply stable_trail. eapply stable_lead. apply stable_reflag. }
  rewrite H. now rewrite lead_trail_lead, trail_trail.
Qed.

Lemma cleanTextBasic_pipeline s : cleanTextBasic s = pipeline s.
Proof. destruct s; reflexivity. Qed.


(** *** Blanking elements of the core-properties entry *)
Lemma starts_with_app p r : starts_with p (p ++ r) = true.
Proof. induction p as [|a p IH]; simpl; [reflexivity|]. now rewrite N.eqb_refl. Qed.

Lemma starts_with_inv p s : starts_with p s = true -> s = p ++ drop (length p) s.
Proof.
  revert s. induction p as [|a p IH]; intros [|b s]; simpl; try discriminate; auto.
  intros H. apply andb_true_iff in H as [H1 H2]. apply N.eqb_eq in H1. subst.
  f_equal. now apply IH.
Qed.

Lemma includes_cons p c s :
  includes p (c :: s) = starts_with p (c :: s) || includes p s.
Proof.
  unfold includes. cbn [index_of]. destruct (starts_with p (c :: s)); [reflexivity|].
  cbn [orb]. destruct (index_of p s); reflexivity.
Qed.

Lemma includes_nil p : includes p [] = starts_with p [].
Proof. unfold includes. cbn [index_of]. destruct (starts_with p []); reflexivity. Qed.

(** A pattern that starts with "<" and has no other "<". *)
(** An occurrence cannot straddle a text and a following "<". *)
Lemma starts_with_straddle body x y :
  Forall (fun c => c <> LT) body ->
  starts_with body (x ++ LT :: y) = true -> starts_with body x = true.
Proof.
  intros Hb. revert x. induction Hb as [|b body Hb _ IH]; intros x H; [reflexivity|].
  destruct x as [|c x]; simpl in H |- *.
  - apply andb_true_iff in H as [H _]. apply N.eqb_eq in H. congruence.
  - apply andb_true_iff in H as [H1 H2]. rewrite H1. simpl. now apply IH.
Qed.

Lemma starts_with_app_false p x y :
  anchored p -> (y = [] \/ exists y', y = LT :: y') -> x <> [] ->
  starts_with p x = false -> starts_with p (x ++ y) = false.
Proof.
  intros (body & -> & Hb) Hy Hx H.
  destruct Hy as [->|[y' ->]]; [now rewrite app_nil_r|].
  destruct x as [|c x]; [congruence|].
  destruct (starts_with (LT :: body) ((c :: x) ++ LT :: y')) eqn:E; [|reflexivity].
  simpl in E, H. apply andb_true_iff in E as [E1 E2].
  rewrite E1 in H. simpl in H. apply starts_with_straddle in E2; congruence.
Qed.

Lemma replace_first_skip m c r :
  m (c :: r) = None -> replace_first m (c :: r) = c :: replace_first m r.
Proof. intros H. simpl. now rewrite H. Qed.

Lemma m_element_none t s : starts_with (open_tag t) s = false -> m_element t s = None.
Proof. intros H. unfold m_element. now rewrite H. Qed.

(** Scanning for an element passes over a text that does not contain its
    opening tag. *)
Lemma blank_element_text t x y :
  anchored (open_tag t) -> (y = [] \/ exists y', y = LT :: y') ->
  includes (open_tag t) x = false ->
  blank_element t (x ++ y) = x ++ blank_element t y.
Proof.
  intros Ha Hy. induction x as [|c x IH]; intros Hx; [reflexivity|].
  rewrite includes_cons in Hx. apply orb_false_iff in Hx as [H1 H2].
  unfold blank_element. cbn [app]. rewrite replace_first_skip.
  - f_equal. now apply IH.
  - apply m_element_none. now apply (starts_with_app_false _ (c :: x) y).
Qed.

Lemma clash_starts_with p x y : clash p x = true -> starts_with p (x ++ y) = false.
Proof.
  revert x. induction p as [|a p IH]; intros [|b x]; simpl; try discriminate.
  destruct (a =? b)%N; simpl; [apply IH|reflexivity].
Qed.

Lemma starts_with_anchored_head p c s : anchored p -> c <> LT -> starts_with p (c :: s) = false.
Proof.
  intros (body & -> & _) Hc. cbn [starts_with].
  destruct (N.eqb_spec LT c); [congruence|reflexivity].
Qed.

(** Scanning for an element passes over the tag of another one. *)
Lemma blank_element_tag t c x y :
  anchored (open_tag t) -> clash (open_tag t) (c :: x) = true ->
  Forall (fun d => d <> LT) x ->
  blank_element t ((c :: x) ++ y) = (c :: x) ++ blank_element t y.
Proof.
  intros Ha Hc Hx. unfold blank_element. cbn [app]. rewrite replace_first_skip.
  2:{ apply m_element_none. now apply (clash_starts_with _ (c :: x)). }
  f_equal. clear Hc. induction Hx as [|d x Hd _ IH]; [reflexivity|].
  cbn [app]. rewrite replace_first_skip; [now f_equal|].
  apply m_element_none. now apply starts_with_anchored_head.
Qed.

Lemma index_of_text p x z :
  anchored p -> includes p x = false -> index_of p (x ++ p ++ z) = Some (length x).
Proof.
  intros Ha. induction x as [|c x IH]; intros Hx.
  - destruct Ha as (body & -> & _). cbn [app index_of length].
    change (LT :: body ++ z) with ((LT :: body) ++ z). now rewrite starts_with_app.
  - rewrite includes_cons in Hx. apply orb_false_iff in Hx as [H1 H2].
    cbn [app index_of length].
    assert (E : starts_with p (c :: x ++ p ++ z) = false).
    { apply (starts_with_app_false p (c :: x) (p ++ z)); [exact Ha| |discriminate|exact H1].
      right. destruct Ha as (body & -> & _). eauto. }
    rewrite E, IH by assumption. reflexivity.
Qed.

Lemma anchored_open e : anchored (open_tag (tag_of e)).
Proof.
  destruct e; eexists; (split; [reflexivity|]); repeat (constructor; [discriminate|]); constructor.
Qed.

Lemma anchored_close e : anchored (close_tag (tag_of e)).
Proof.
  destruct e; eexists; (split; [reflexivity|]); repeat (constructor; [discriminate|]); constructor.
Qed.

Lemma open_clash_open e e' :
  element_eqb e e' = false -> clash (open_tag (tag_of e)) (open_tag (tag_of e')) = true.
Proof. destruct e, e'; simpl; intros H; try discriminate; vm_compute; reflexivity. Qed.

Lemma open_clash_close e e' : clash (open_tag (tag_of e)) (close_tag (tag_of e')) = true.
Proof. destruct e, e'; vm_compute; reflexivity. Qed.

Lemma element_eqb_eq e e' : element_eqb e e' = true -> e = e'.
Proof. destruct e, e'; simpl; congruence. Qed.

Lemma render_segments_head segs :
  render_segments segs = [] \/ exists y, render_segments segs = LT :: y.
Proof.
  destruct segs as [|[[e x] a] r]; [now left|]. right.
  unfold render_segments. cbn [map concat]. unfold render_segment. cbn [fst snd].
  destruct (anchored_open e) as (body & -> & _). eexists. reflexivity.
Qed.

Lemma replace_first_hit m s n rep :
  s <> [] -> m s = Some (n, rep) -> replace_first m s = rep ++ drop n s.
Proof. destruct s as [|c r]; [congruence|]. intros _ H. cbn [replace_first]. now rewrite H. Qed.

(** Scanning for an element rewrites its first opening tag up to the
    nearest closing tag. *)
Lemma blank_element_hit t x z :
  anchored (open_tag t) -> anchored (close_tag t) ->
  includes (close_tag t) x = false ->
  blank_element t (open_tag t ++ x ++ close_tag t ++ z) = open_tag t ++ close_tag t ++ z.
Proof.
  intros Ho Hc Hx. unfold blank_element.
  rewrite (replace_first_hit _ _ (length (open_tag t) + length x + length (close_tag t))
             (open_tag t ++ close_tag t)).
  - rewrite <- !drop_drop, !drop_app_length. now rewrite <- app_assoc.
  - destruct Ho as (body & -> & _). discriminate.
  - unfold m_element. rewrite starts_with_app, drop_app_length.
    now rewrite index_of_text.
Qed.

Lemma blank_element_segments e segs :
  Forall (fun g : segment => tag_free g.1.2 /\ tag_free g.2) segs ->
  blank_element (tag_of e) (render_segments segs) = render_segments (blank_first_of e segs).
Proof.
  induction 1 as [|[[e' x] a] r [Hx Ha] _ IH]; [reflexivity|].
  cbn [fst snd] in Hx, Ha. cbn [blank_first_of].
  unfold render_segments in *. cbn [map concat]. unfold render_segment at 1. cbn [fst snd].
  pose proof (anchored_open e) as Aop.
  destruct (element_eqb e e') eqn:E.
  - apply element_eqb_eq in E. subst e'.
    cbn [map concat]. unfold render_segment at 2. cbn [fst snd].
    rewrite <- !app_assoc. cbn [app].
    apply blank_element_hit; [assumption|apply anchored_close|apply Hx].
  - destruct (anchored_open e') as (o & Eo & Ho).
    destruct (anchored_close e') as (o' & Ec & Hc).
    pose proof (open_clash_open e e' E) as C1.
    pose proof (open_clash_close e e') as C2.
    rewrite Eo in C1. rewrite Ec in C2.
    cbn [map concat]. unfold render_segment at 2. cbn [fst snd]. rewrite Eo, Ec.
    rewrite <- !app_assoc.
    rewrite blank_element_tag by assumption.
    rewrite (blank_element_text (tag_of e) x);
      [|assumption|right; cbn [app]; eexists; reflexivity|apply Hx].
    rewrite blank_element_tag by assumption.
    rewrite (blank_element_text (tag_of e) a);
      [|assumption|apply render_segments_head|apply Ha].
    unfold render_segments. now rewrite IH.
Qed.

Lemma blank_first_of_wf e segs :
  Forall (fun g : segment => tag_free g.1.2 /\ tag_free g.2) segs ->
  Forall (fun g : segment => tag_free g.1.2 /\ tag_free g.2) (blank_first_of e segs).
Proof.
  induction 1 as [|[[e' x] a] r [Hx Ha] Hr IH]; cbn [blank_first_of]; [constructor|].
  destruct (element_eqb e e').
  - constructor; [|assumption]. cbn [fst snd]. split; [|assumption].
    intros e0. split; rewrite includes_nil; destruct e0; reflexivity.
  - constructor; [split|]; assumption.
Qed.

Lemma blank_element_entry e pre segs :
  well_formed pre segs ->
  blank_element (tag_of e) (render_entry pre segs) = render_entry pre (blank_first_of e segs).
Proof.
  intros [Hp Hs]. unfold render_entry.
  rewrite blank_element_text;
    [|apply anchored_open|apply render_segments_head|apply Hp].
  now rewrite blank_element_segments.
Qed.

Theorem blank_core_flat pre segs :
  well_formed pre segs ->
  blank_core (render_entry pre segs) = render_entry pre (blank_firsts segs).
Proof.
  intros [Hp Hs]. unfold blank_core, blank_firsts.
  change creator with (tag_of Creator). change lastModifiedBy with (tag_of LastModifiedBy).
  change title with (tag_of Title). change subject with (tag_of Subject).
  change keywords with (tag_of Keywords).
  rewrite !blank_element_entry; [reflexivity|..]; split; auto using blank_first_of_wf.
Qed.

(** *** Chunks and requests *)



Opaque limit.

Lemma chunk_loop_S fuel s i :
  chunk_loop (S fuel) s i =
  if i <? length s then slice i (i + limit) s :: chunk_loop fuel s (i + limit) else [].
Proof. reflexivity. Qed.








Lemma check_chunks_cons cfg lang c rest acc svc log :
  check_chunks cfg lang (c :: rest) acc svc log =
  if blank c then check_chunks cfg lang rest acc svc log
  else match svc log (payload cfg c lang) with
       | Some resp =>
           check_chunks cfg lang rest
             match resp with Some (m :: ms) => acc ++ m :: ms | _ => acc end
             svc (log ++ [payload cfg c lang])
       | None => (None, log ++ [payload cfg c lang])
       end.
Proof.
  cbn [check_chunks]. destruct (blank c); [reflexivity|].
  unfold bind, post. destruct (svc log (payload cfg c lang)); reflexivity.
Qed.

(** With a service that answers every request, one request is issued per
    chunk that is not blank, in order. *)
Lemma check_chunks_log cfg lang svc :
  (forall log q, svc log q <> None) ->
  forall cs acc log,
    exists ms, check_chunks cfg lang cs acc svc log =
      (Some ms, log ++ map (fun c => payload cfg c lang) (List.filter nonblank cs)).
Proof.
  intros Hsvc. induction cs as [|c rest IH]; intros acc log.
  - exists acc. cbn. now rewrite app_nil_r.
  - rewrite check_chunks_cons. cbn [List.filter].
    change (nonblank c) with (negb (blank c)).
    destruct (blank c); cbn [negb]; [apply IH|].
    destruct (svc log (payload cfg c lang)) as [resp|] eqn:E; [|now apply Hsvc in E].
    destruct (IH (match resp with Some (m :: ms) => acc ++ m :: ms | _ => acc end)
                 (log ++ [payload cfg c lang])) as [ms ->].
    exists ms. cbn [map]. now rewrite <- app_assoc.
Qed.

(** A request that fails aborts the loop. *)
Lemma check_chunks_fail cfg lang svc : forall cs acc log k q,
  map (fun c => payload cfg c lang) (List.filter nonblank cs) !! k = Some q ->
  svc (log ++ take k (map (fun c => payload cfg c lang) (List.filter nonblank cs))) q = None ->
  (check_chunks cfg lang cs acc svc log).1 = None.
Proof.
  induction cs as [|c rest IH]; intros acc log k q Hk Hq; [discriminate|].
  rewrite check_chunks_cons. cbn [List.filter] in Hk, Hq.
  change (nonblank c) with (negb (blank c)) in Hk, Hq.
  destruct (blank c); cbn [negb] in Hk, Hq; [eapply IH; eassumption|].
  cbn [map] in Hk, Hq.
  destruct (svc log (payload cfg c lang)) as [resp|] eqn:E; [|reflexivity].
  destruct k as [|k].
  - cbn in Hk. injection Hk as <-. cbn [take] in Hq. rewrite app_nil_r in Hq. congruence.
  - cbn [lookup list_lookup] in Hk. cbn [take] in Hq.
    eapply IH; [exact Hk|]. now rewrite <- app_assoc.
Qed.


(** White space only *)
Lemma drop_while_all s : Forall (fun c => is_ws c = true) s -> drop_while is_ws s = [].
Proof. induction 1 as [|c r Hc _ IH]; cbn [drop_while]; [reflexivity|now rewrite Hc]. Qed.

Lemma blank_all s : Forall (fun c => is_ws c = true) s -> blank s = true.
Proof. intros H. unfold blank, trim. now rewrite (drop_while_all s H). Qed.

Lemma chunk_loop_blank fuel : forall s i,
  Forall (fun c => is_ws c = true) s ->
  Forall (fun c => blank c = true) (chunk_loop fuel s i).
Proof.
  induction fuel as [|f IH]; intros s i Hs; [constructor|].
  rewrite chunk_loop_S. destruct (i <? length s); [|constructor].
  constructor; [|now apply IH].
  apply blank_all. unfold slice. now apply Forall_take, Forall_drop.
Qed.

Lemma check_chunks_blank cfg lang svc cs acc log :
  Forall (fun c => blank c = true) cs ->
  check_chunks cfg lang cs acc svc log = (Some acc, log).
Proof.
  induction 1 as [|c rest Hc _ IH]; [reflexivity|].
  now rewrite check_chunks_cons, Hc.
Qed.

(** *** One replacement without the scanner *)

Lemma index_of_some p s j :
  index_of p s = Some j ->
  s = take j s ++ p ++ drop (j + length p) s
  /\ forall i, i < j -> starts_with p (drop i s) = false.
Proof.
  revert j. induction s as [|c r IH]; intros j; cbn [index_of].
  - destruct (starts_with p []) eqn:E; [|discriminate]. intros [= <-].
    split; [|lia]. cbn [take app]. now apply starts_with_inv in E.
  - destruct (starts_with p (c :: r)) eqn:E.
    + intros [= <-]. split; [|lia]. cbn [take app]. now apply starts_with_inv in E.
    + destruct (index_of p r) as [k|] eqn:Ek; [|discriminate]. cbn. intros [= <-].
      destruct (IH k eq_refl) as [H1 H2]. split.
      * cbn [take drop app Nat.add]. now rewrite <- H1.
      * intros [|i] Hi; [exact E|]. cbn [drop]. apply H2. lia.
Qed.

Lemma index_of_none p s i : index_of p s = None -> starts_with p (drop i s) = false.
Proof.
  revert i. induction s as [|c r IH]; intros i; cbn [index_of].
  - destruct (starts_with p []) eqn:E; [discriminate|]. intros _. now destruct i.
  - destruct (starts_with p (c :: r)) eqn:E; [discriminate|].
    destruct (index_of p r) eqn:Ek; [discriminate|]. intros _.
    destruct i as [|i]; [exact E|]. cbn [drop]. now apply IH.
Qed.

Lemma starts_with_at p a z : starts_with p (drop (length a) (a ++ p ++ z)) = true.
Proof. rewrite drop_app_length. apply starts_with_app. Qed.

Lemma open_tag_cons t : exists o, open_tag t = LT :: o.
Proof. eexists. reflexivity. Qed.

Lemma m_element_some t s n rep :
  m_element t s = Some (n, rep) ->
  exists inner post,
    s = open_tag t ++ inner ++ close_tag t ++ post
    /\ (forall j, j < length inner ->
          starts_with (close_tag t) (drop j (inner ++ close_tag t ++ post)) = false)
    /\ rep ++ drop n s = open_tag t ++ close_tag t ++ post.
Proof.
  unfold m_element. destruct (starts_with (open_tag t) s) eqn:E; [|discriminate].
  apply starts_with_inv in E.
  destruct (index_of (close_tag t) (drop (length (open_tag t)) s)) as [j|] eqn:Ej;
    [|discriminate].
  intros H.
  assert (Hn : n = length (open_tag t) + j + length (close_tag t)) by congruence.
  assert (Hr : rep = open_tag t ++ close_tag t) by congruence.
  subst n rep. clear H. apply index_of_some in Ej as [H1 H2].
  set (rest := drop (length (open_tag t)) s) in *.
  exists (take j rest), (drop (j + length (close_tag t)) rest).
  rewrite <- H1. split; [exact E|]. split.
  - intros i Hi. apply H2. rewrite length_take in Hi. lia.
  - rewrite <- app_assoc. do 2 f_equal.
    subst rest. rewrite drop_drop. f_equal. lia.
Qed.

Lemma m_element_span t inner post :
  m_element t (open_tag t ++ inner ++ close_tag t ++ post) <> None.
Proof.
  unfold m_element. rewrite starts_with_app, drop_app_length.
  destruct (index_of (close_tag t) (inner ++ close_tag t ++ post)) eqn:E; [discriminate|].
  apply (index_of_none _ _ (length inner)) in E. rewrite starts_with_at in E. discriminate.
Qed.

(** What [blank_element] does, for every text. *)
Lemma blank_element_spec t s : first_span_blanked t s (blank_element t s).
Proof.
  unfold blank_element. induction s as [|c r IH].
  - right. split; [reflexivity|]. intros pre inner post H.
    destruct (open_tag_cons t) as [o Eo]. rewrite Eo in H.
    destruct pre; discriminate.
  - cbn [replace_first]. destruct (m_element t (c :: r)) as [[n rep]|] eqn:E.
    + left. apply m_element_some in E as (inner & post & H1 & H2 & H3).
      exists [], inner, post. cbn [app length]. repeat split; [exact H1|lia|exact H2|exact H3].
    + destruct IH as [(pre & inner & post & H1 & H2 & H3 & H4)|[H1 H2]].
      * left. exists (c :: pre), inner, post. cbn [app length]. repeat split.
        -- now rewrite <- H1.
        -- intros [|i] Hi; [|cbn [drop]; apply H2; lia].
           cbn [drop]. unfold m_element in E.
           destruct (starts_with (open_tag t) (c :: r)) eqn:Es; [|reflexivity].
           destruct (index_of (close_tag t) (drop (length (open_tag t)) (c :: r))) eqn:Ei;
             [discriminate|].
           apply (index_of_none _ _ (length (c :: pre ++ inner))) in Ei.
           rewrite drop_drop in Ei.
           replace (c :: r) with ((c :: pre ++ open_tag t ++ inner) ++ close_tag t ++ post) in Ei
             by (cbn [app]; rewrite H1, <- !app_assoc; reflexivity).
           replace (length (open_tag t) + length (c :: pre ++ inner))
             with (length (c :: pre ++ open_tag t ++ inner)) in Ei
             by (cbn [length]; rewrite !length_app; lia).
           rewrite starts_with_at in Ei. discriminate.
        -- exact H3.
        -- now rewrite H4.
      * right. split; [now rewrite H1|]. intros pre inner post H.
        destruct pre as [|c' pre].
        -- cbn [app] in H. rewrite H in E. now apply m_element_span in E.
        -- cbn [app] in H. injection H as _ H. now apply H2 in H.
Qed.

(** The five replacements in a row. *)
Lemma blank_core_chain coreXml :
  exists s1 s2 s3 s4,
    first_span_blanked creator coreXml s1
    /\ first_span_blanked lastModifiedBy s1 s2
    /\ first_span_blanked title s2 s3
    /\ first_span_blanked subject s3 s4
    /\ first_span_blanked keywords s4 (blank_core coreXml).
Proof.
  unfold blank_core. do 4 eexists. repeat split; apply blank_element_spec.
Qed.

(** *** Archives *)

Lemma core_ne_custom : corePath <> customPath.
Proof. discriminate. Qed.
Lemma core_ne_doc : corePath <> docPath.
Proof. discriminate. Qed.
Lemma custom_ne_doc : customPath <> docPath.
Proof. discriminate. Qed.

Lemma sanitize_archive_core (zip : archive) (coreXml : jsstring) :
  zip !! corePath = Some coreXml ->
  sanitize_archive zip !! corePath = Some (blank_core coreXml).
Proof.
  intros H. unfold sanitize_archive. rewrite H.
  pose proof core_ne_custom. pose proof core_ne_doc. pose proof custom_ne_doc.
  repeat case_match; simplify_map_eq; reflexivity.
Qed.

Lemma sanitize_archive_custom (zip : archive) :
  sanitize_archive zip !! customPath = None.
Proof.
  unfold sanitize_archive.
  pose proof core_ne_custom. pose proof core_ne_doc. pose proof custom_ne_doc.
  repeat case_match; simplify_map_eq; try reflexivity; try congruence.
Qed.

Lemma sanitize_archive_no_doc (zip : archive) :
  zip !! docPath = None -> sanitize_archive zip !! docPath = None.
Proof.
  intros Hd. unfold sanitize_archive.
  pose proof core_ne_custom. pose proof core_ne_doc. pose proof custom_ne_doc.
  repeat case_match; simplify_map_eq; try reflexivity; try congruence.
Qed.

Lemma remove_file_none (f k : jsstring) (zip : archive) :
  zip !! k = None -> Beta.remove_file f zip !! k = None.
Proof.
  intros H. unfold Beta.remove_file. case_match; [|assumption].
  rewrite lookup_delete_None. auto.
Qed.

Lemma remove_file_gone (f : jsstring) (zip : archive) : Beta.remove_file f zip !! f = None.
Proof.
  unfold Beta.remove_file. case_match eqn:E; [apply lookup_delete_eq|assumption].
Qed.

Lemma remove_folder_none (name k : jsstring) (zip : archive) :
  zip !! k = None -> remove_folder name zip !! k = None.
Proof. intros H. unfold remove_folder. apply map_lookup_filter_None. auto. Qed.

Lemma clean_archive_core (zip : archive) : Beta.clean_archive zip !! corePath = None.
Proof.
  unfold Beta.clean_archive.
  assert (H : Beta.remove_file (lit "docProps/custom.xml")
                (Beta.remove_file (lit "docProps/app.xml")
                   (Beta.remove_file (lit "docProps/core.xml") zip)) !! corePath = None)
    by (do 2 apply remove_file_none; apply remove_file_gone).
  repeat case_match; rewrite ?lookup_insert_ne by discriminate;
    rewrite ?lookup_delete_None; auto using remove_folder_none.
Qed.

Lemma clean_archive_custom (zip : archive) : Beta.clean_archive zip !! customPath = None.
Proof.
  unfold Beta.clean_archive.
  assert (H : Beta.remove_file (lit "docProps/custom.xml")
                (Beta.remove_file (lit "docProps/app.xml")
                   (Beta.remove_file (lit "docProps/core.xml") zip)) !! customPath = None)
    by apply remove_file_gone.
  repeat case_match; rewrite ?lookup_insert_ne by discriminate;
    rewrite ?lookup_delete_None; auto using remove_folder_none.
Qed.

(** *** The entries of a cleaned archive, one by one *)

Lemma sanitize_archive_lookup (zip : archive) (k : jsstring) :
  sanitize_archive zip !! k =
  if decide (k = customPath) then None
  else if decide (k = corePath) then blank_core <$> zip !! k
  else if decide (k = docPath) then replace_all m_wt_clean <$> zip !! k
  else zip !! k.
Proof.
  pose proof core_ne_custom. pose proof core_ne_doc. pose proof custom_ne_doc.
  unfold sanitize_archive.
  repeat case_decide; subst; repeat case_match; simplify_map_eq; try reflexivity;
    try congruence.
Qed.

Lemma sanitize_archive_dom (zip : archive) :
  dom (sanitize_archive zip) = dom zip ∖ {[customPath]}.
Proof.
  apply set_eq. intros k. rewrite elem_of_difference, !elem_of_dom, elem_of_singleton.
  rewrite sanitize_archive_lookup.
  repeat case_decide; subst; rewrite ?fmap_is_Some; split; try tauto.
  intros [x Hx]. discriminate.
Qed.

Lemma remove_file_lookup (f k : jsstring) (zip : archive) :
  Beta.remove_file f zip !! k = if decide (k = f) then None else zip !! k.
Proof.
  unfold Beta.remove_file. case_decide as Hk.
  - subst. destruct (zip !! f) eqn:E; [apply lookup_delete_eq|exact E].
  - destruct (zip !! f); [|reflexivity].
    rewrite lookup_delete_ne; [reflexivity|]. intros E. apply Hk. now rewrite E.
Qed.

Lemma remove_folder_lookup (name k : jsstring) (zip : archive) :
  remove_folder name zip !! k
  = if starts_with (name ++ lit "/") k then None else zip !! k.
Proof.
  unfold remove_folder. destruct (starts_with (name ++ lit "/") k) eqn:E.
  - apply map_lookup_filter_None. right. intros x _ H. cbv beta in H. cbn [fst] in H. congruence.
  - destruct (zip !! k) eqn:Ez.
    + apply map_lookup_filter_Some. split; [assumption|exact E].
    + apply map_lookup_filter_None. now left.
Qed.

Lemma clean_archive_lookup (zip : archive) (k : jsstring) :
  Beta.clean_archive zip !! k =
  if bool_decide (k = lit "docProps/core.xml") || bool_decide (k = lit "docProps/app.xml")
     || bool_decide (k = lit "docProps/custom.xml")
  then None
  else if (match zip !! lit "customXml" with
           | Some _ => bool_decide (k = lit "customXml")
           | None => starts_with (lit "customXml/") k
           end)
  then None
  else if bool_decide (k = Beta.docPath) then beta_clean_xml <$> zip !! k
  else zip !! k.
Proof.
  unfold Beta.clean_archive.
  set (zip1 := Beta.remove_file _ (Beta.remove_file _ (Beta.remove_file _ zip))).
  assert (H1 : forall j, zip1 !! j =
     if bool_decide (j = lit "docProps/core.xml") || bool_decide (j = lit "docProps/app.xml")
        || bool_decide (j = lit "docProps/custom.xml") then None else zip !! j).
  { intros j. unfold zip1. rewrite !remove_file_lookup.
    repeat case_decide; subst; cbn; repeat case_bool_decide; subst; cbn; congruence. }
  rewrite (H1 (lit "customXml")). cbn [orb bool_decide].
  change (bool_decide (lit "customXml" = lit "docProps/core.xml")) with false.
  change (bool_decide (lit "customXml" = lit "docProps/app.xml")) with false.
  change (bool_decide (lit "customXml" = lit "docProps/custom.xml")) with false.
  cbn [orb].
  destruct (zip !! lit "customXml") as [cx|] eqn:Ecx.
  - set (zip2 := delete _ zip1).
    assert (H2 : zip2 !! Beta.docPath = zip !! Beta.docPath).
    { unfold zip2. rewrite lookup_delete_ne by discriminate. now rewrite H1. }
    rewrite H2. destruct (zip !! Beta.docPath) as [xml|] eqn:Ed.
    + destruct (bool_decide_reflect (k = Beta.docPath)) as [->|Hk].
      * rewrite lookup_insert_eq, Ed. reflexivity.
      * rewrite lookup_insert_ne by congruence. unfold zip2.
        destruct (bool_decide_reflect (k = lit "customXml")) as [->|Hk2].
        -- rewrite lookup_delete_eq. now repeat case_match.
        -- rewrite lookup_delete_ne by congruence. rewrite H1. now repeat case_match.
    + unfold zip2. destruct (bool_decide_reflect (k = lit "customXml")) as [->|Hk2].
      * rewrite lookup_delete_eq. now repeat case_match.
      * rewrite lookup_delete_ne by congruence. rewrite H1.
        destruct (bool_decide_reflect (k = Beta.docPath)) as [->|Hk]; [|reflexivity].
        rewrite Ed. now repeat case_match.
  - set (zip2 := remove_folder _ zip1).
    assert (H2 : zip2 !! Beta.docPath = zip !! Beta.docPath).
    { unfold zip2. rewrite remove_folder_lookup. now rewrite H1. }
    rewrite H2. destruct (zip !! Beta.docPath) as [xml|] eqn:Ed.
    + destruct (bool_decide_reflect (k = Beta.docPath)) as [->|Hk].
      * rewrite lookup_insert_eq, Ed. reflexivity.
      * rewrite lookup_insert_ne by congruence. unfold zip2.
        rewrite remove_folder_lookup, H1.
        change (lit "customXml" ++ lit "/") with (lit "customXml/").
        now repeat case_match.
    + unfold zip2. rewrite remove_folder_lookup, H1.
      change (lit "customXml" ++ lit "/") with (lit "customXml/").
      destruct (bool_decide_reflect (k = Beta.docPath)) as [->|Hk]; [|now repeat case_match].
      rewrite Ed. now repeat case_match.
Qed.

Lemma clean_archive_sub zip k : is_Some (Beta.clean_archive zip !! k) -> is_Some (zip !! k).
Proof.
  rewrite clean_archive_lookup. repeat case_match; try (intros [? ?]; discriminate);
    rewrite ?fmap_is_Some; auto.
Qed.

(** *** PDF documents *)

Lemma omap_lookup_seq_from {A} (l : list A) : forall pre,
  omap (fun i => (pre ++ l) !! i) (seq (length pre) (length l)) = l.
Proof.
  induction l as [|x l IH]; intros pre; [reflexivity|].
  cbn [length seq omap list_omap]. rewrite list_lookup_middle by reflexivity.
  f_equal. specialize (IH (pre ++ [x])).
  rewrite length_app, Nat.add_1_r, <- app_assoc in IH. exact IH.
Qed.

Lemma omap_lookup_seq {A} (l : list A) : omap (fun i => l !! i) (seq 0 (length l)) = l.
Proof. apply (omap_lookup_seq_from l []). Qed.

Lemma copyPages_all src : Beta.copyPages src (Beta.getPageIndices src) = pdf_pages src.
Proof. apply omap_lookup_seq. Qed.

Lemma foldl_addPage ps : forall d,
  foldl (fun d p => addPage p d) d ps =
  {| pdf_pages := pdf_pages d ++ ps; pdf_title := pdf_title d;
     pdf_author := pdf_author d; pdf_subject := pdf_subject d;
     pdf_keywords := pdf_keywords d; pdf_producer := pdf_producer d;
     pdf_creator := pdf_creator d; pdf_creationDate := pdf_creationDate d;
     pdf_modificationDate := pdf_modificationDate d; pdf_rest := pdf_rest d |}.
Proof.
  induction ps as [|p ps IH]; intros d; cbn [foldl].
  - rewrite app_nil_r. now destruct d.
  - rewrite IH. cbn. now rewrite <- app_assoc.
Qed.

Lemma cleanPDF_loaded clock d :
  Beta.cleanPDF clock (PdfBytes d) =
  Some (PdfBytes
    (save
      {| pdf_pages := pdf_pages d; pdf_title := Some []; pdf_author := Some [];
         pdf_subject := Some []; pdf_keywords := Some (join [SP] []);
         pdf_producer := Some []; pdf_creator := Some [];
         pdf_creationDate := Some (clock 2);
         pdf_modificationDate := Some (clock 3); pdf_rest := [] |})).
Proof.
  unfold Beta.cleanPDF. cbn [load_pdf mbind option_bind].
  rewrite copyPages_all, foldl_addPage. reflexivity.
Qed.

(** *** The report *)

Lemma or_else_same s : or_else (Some s) [] = s.
Proof. now destruct s. Qed.

Lemma escape_lt_cons c r :
  escape_lt (c :: r) = if (c =? LT)%N then lit "&lt;" ++ escape_lt r else c :: escape_lt r.
Proof.
  unfold escape_lt. rewrite replace_all_cons. cbn [m_lt].
  destruct (c =? LT)%N; reflexivity.
Qed.

(** The escaped text has no "<". *)
Lemma escape_lt_clean s : Forall (fun c => c <> LT) (escape_lt s).
Proof.
  induction s as [|c r IH]; [constructor|].
  rewrite escape_lt_cons. destruct (N.eqb_spec c LT) as [->|Hc].
  - repeat (constructor; [discriminate|]). exact IH.
  - constructor; assumption.
Qed.

(** A report without matches shows the placeholder row. *)
Lemma buildReportHTML_empty r :
  report_matches r = [] ->
  buildReportHTML r = html_top (report_summary r) ++ no_suggestion_row ++ html_bottom.
Proof. intros H. unfold buildReportHTML. now rewrite H. Qed.

Lemma inherited_proto : inherited (lit "__proto__") <> None.
Proof. discriminate. Qed.

Lemma occurrences_snoc key ms m :
  occurrences key (ms ++ [m]) =
  occurrences key ms + (if bool_decide (rule_key m = key) then 1 else 0).
Proof.
  unfold occurrences. rewrite List.filter_app, length_app. cbn [List.filter].
  destruct (bool_decide (rule_key m = key)); reflexivity.
Qed.

(** Away from the names that [Object.prototype] defines, [byRule] counts
    the occurrences of each rule key. *)
Lemma count_rules_counts matches :
  Forall (fun m => inherited (rule_key m) = None) matches ->
  forall key,
    count_rules matches !! key =
    match occurrences key matches with
    | 0 => None
    | n => Some (VNum n)
    end.
Proof.
  induction matches as [|m ms IH] using rev_ind; intros Hall key; [reflexivity|].
  apply Forall_app in Hall as [Hms Hm]. apply Forall_inv in Hm. cbn beta in Hm.
  specialize (IH Hms). unfold count_rules in *. rewrite foldl_app. cbn [foldl].
  rewrite occurrences_snoc. unfold assign.
  rewrite bool_decide_eq_false_2
    by (intros E; rewrite E in Hm; now apply inherited_proto in Hm).
  destruct (bool_decide_reflect (rule_key m = key)) as [<-|Hne].
  - rewrite lookup_insert_eq. unfold bump. rewrite IH.
    destruct (occurrences (rule_key m) ms) as [|n]; cbn iota beta.
    + now rewrite Hm.
    + now rewrite Nat.add_1_r.
  - rewrite lookup_insert_ne by assumption. rewrite IH, Nat.add_0_r. reflexivity.
Qed.

(** *** Entries that hold each listed element at most once *)

Lemma element_eqb_refl e : element_eqb e e = true.
Proof. now destruct e. Qed.

Lemma map_absent e (segs : list segment) :
  e ∉ map kind segs ->
  map (fun g => if element_eqb e (kind g) then emptied g else g) segs = segs.
Proof.
  induction segs as [|g r IH]; [reflexivity|]. cbn [map]. intros H.
  apply not_elem_of_cons in H as [Hg Hr].
  destruct (element_eqb e (kind g)) eqn:E; [apply element_eqb_eq in E; congruence|].
  now rewrite IH.
Qed.

Lemma blank_first_of_once e segs :
  NoDup (map kind segs) ->
  blank_first_of e segs
  = map (fun g => if element_eqb e (kind g) then emptied g else g) segs.
Proof.
  induction segs as [|[[e' x] a] r IH]; [reflexivity|]. cbn [map]. intros H.
  apply NoDup_cons in H as [Hn Hr]. cbn [blank_first_of kind fst snd].
  destruct (element_eqb e e') eqn:E.
  - apply element_eqb_eq in E. subst e'. now rewrite map_absent.
  - now rewrite IH.
Qed.

Lemma kind_map_blank e (segs : list segment) :
  map kind (map (fun g => if element_eqb e (kind g) then emptied g else g) segs)
  = map kind segs.
Proof.
  rewrite map_map. apply map_ext. intros g. now destruct (element_eqb e (kind g)).
Qed.

(** In an entry that holds each listed element at most once, every
    listed element is emptied. *)
Lemma blank_firsts_once segs :
  NoDup (map kind segs) -> blank_firsts segs = map emptied segs.
Proof.
  intros H. unfold blank_firsts.
  set (f := fun e (g : segment) => if element_eqb e (kind g) then emptied g else g).
  assert (Hk : forall e l, NoDup (map kind l) -> NoDup (map kind (map (f e) l))).
  { intros e l Hl. unfold f. now rewrite kind_map_blank. }
  rewrite (blank_first_of_once Creator segs H). fold (f Creator).
  rewrite (blank_first_of_once LastModifiedBy _ (Hk _ _ H)). fold (f LastModifiedBy).
  rewrite (blank_first_of_once Title _ (Hk _ _ (Hk _ _ H))). fold (f Title).
  rewrite (blank_first_of_once Subject _ (Hk _ _ (Hk _ _ (Hk _ _ H)))). fold (f Subject).
  rewrite (blank_first_of_once Keywords _ (Hk _ _ (Hk _ _ (Hk _ _ (Hk _ _ H))))).
  fold (f Keywords).
  rewrite !map_map. apply map_ext. intros [[e x] a]. now destruct e.
Qed.

(** *** A normalised text with a chunk of newlines *)















(** ** The claims *)

(** *** C1: the DOCX sanitiser and the core-properties entry *)

(** C1, as stated, fails: [cleanDOCX] of the beta does not blank the
    elements of the core-properties entry, it deletes the entry, so the
    output has no creator element at all. *)
Lemma C1_beta_deletes_the_entry :
  Beta.cleanDOCX (ZipBytes {[ corePath := lit "<dc:creator>Jane</dc:creator>" ]})
  = Some (ZipBytes ∅)
  /\ (∅ : archive) !! corePath = None.
Proof. split; [vm_compute; reflexivity|reflexivity]. Qed.

(** C1, amended.  Take an archive whose core-properties entry is flat (a
    text, then listed elements, each with its content and the text that
    follows it, where no text and no content contains a tag of a listed
    element) and holds each listed element (creator, last-modified-by,
    title, subject, keywords) at most once.  [processDOCXBasic] keeps the
    entry: every listed element of it is present with its tags and no
    content, and all the other text is as it was; the output has no
    custom-properties entry; [<dc:creator>Jane</dc:creator>] becomes
    [<dc:creator></dc:creator>].  [cleanDOCX] of the beta deletes the
    core-properties entry and the custom-properties entry. *)
Theorem C1_core_entry_blanked (zip : archive) (pre : jsstring) (segs : list segment) :
  well_formed pre segs ->
  NoDup (map kind segs) ->
  zip !! corePath = Some (render_entry pre segs) ->
  (exists out,
      processDOCXBasic (ZipBytes zip) = Some (ZipBytes out)
      /\ out !! corePath = Some (render_entry pre (map emptied segs))
      /\ out !! customPath = None)
  /\ (forall g, render_segment (emptied g)
                = open_tag (tag_of (kind g)) ++ close_tag (tag_of (kind g)) ++ g.2)
  /\ blank_core (lit "<dc:creator>Jane</dc:creator>") = lit "<dc:creator></dc:creator>"
  /\ (exists out,
        Beta.cleanDOCX (ZipBytes zip) = Some (ZipBytes out)
        /\ out !! corePath = None
        /\ out !! customPath = None).
Proof.
  intros Hwf Hn Hz. split; [|split; [|split]].
  - exists (sanitize_archive zip). split; [reflexivity|]. split.
    + rewrite (sanitize_archive_core zip _ Hz). f_equal.
      rewrite blank_core_flat by exact Hwf. now rewrite blank_firsts_once.
    + apply sanitize_archive_custom.
  - intros [[e x] a]. reflexivity.
  - vm_compute. reflexivity.
  - exists (Beta.clean_archive zip). repeat split.
    + apply clean_archive_core.
    + apply clean_archive_custom.
Qed.

Lemma C1_core_entry_blanked_witness :
  well_formed (lit "<cp:coreProperties>")
    [(Title, lit "Report", []); (Creator, lit "Jane", lit "</cp:coreProperties>")]
  /\ NoDup (map kind
       [(Title, lit "Report", []); (Creator, lit "Jane", lit "</cp:coreProperties>")])
  /\ exists out,
       processDOCXBasic (ZipBytes {[ corePath :=
         lit "<cp:coreProperties><dc:title>Report</dc:title><dc:creator>Jane</dc:creator></cp:coreProperties>" ]})
         = Some (ZipBytes out)
       /\ out !! corePath
          = Some (lit "<cp:coreProperties><dc:title></dc:title><dc:creator></dc:creator></cp:coreProperties>")
       /\ out !! customPath = None.
Proof.
  assert (Hwf : well_formed (lit "<cp:coreProperties>")
    [(Title, lit "Report", []); (Creator, lit "Jane", lit "</cp:coreProperties>")]).
  { split; [|constructor; [|constructor; [|constructor]]; split];
      intros e; destruct e; split; vm_compute; reflexivity. }
  assert (Hn : NoDup (map kind
    [(Title, lit "Report", []); (Creator, lit "Jane", lit "</cp:coreProperties>")])).
  { cbn [map kind fst]. repeat constructor; intros H;
      repeat (apply elem_of_cons in H as [H|H]; [discriminate|]); inversion H. }
  split; [exact Hwf|]. split; [exact Hn|].
  exact (proj1 (C1_core_entry_blanked
    {[ corePath :=
         lit "<cp:coreProperties><dc:title>Report</dc:title><dc:creator>Jane</dc:creator></cp:coreProperties>" ]}
    (lit "<cp:coreProperties>")
    [(Title, lit "Report", []); (Creator, lit "Jane", lit "</cp:coreProperties>")]
    Hwf Hn (lookup_singleton_eq _ _))).
Defined.

(** *** C2: the PDF sanitisers *)

(** C2, as stated, fails: the beta's [cleanPDF] stamps the output with the
    readings of the clock, not with the epoch. *)
Lemma C2_beta_timestamps_are_the_clock :
  exists out,
    Beta.cleanPDF sample_clock (PdfBytes sample_pdf) = Some (PdfBytes out)
    /\ pdf_creationDate out = Some 1700000000002%Z
    /\ pdf_modificationDate out = Some 1700000000003%Z
    /\ pdf_creationDate out <> Some epoch.
Proof.
  eexists. split; [reflexivity|]. repeat split. discriminate.
Qed.

(** C2, amended.  For every PDF document, [processPDFBasic] of server.js
    keeps the loaded document (its pages, in order, and the rest of the
    container), sets title, author, subject, producer and creator to the
    empty string and the keywords to the empty list, and sets both dates
    to the epoch; [cleanPDF] of the beta copies every page by index, in
    order, into a new container that has nothing else of the input, sets
    the same six fields, and sets the creation and modification dates to
    the clock readings at that moment.  Both save a document without
    pages with one blank page. *)
Theorem C2_pdf_metadata_reset (d : pdf) (now : Z) (clock : nat -> Z) :
  (exists out,
      processPDFBasic now (PdfBytes d) = Some (PdfBytes out)
      /\ pdf_pages out = match pdf_pages d with [] => [blank_page] | ps => ps end
      /\ pdf_rest out = pdf_rest d
      /\ pdf_title out = Some [] /\ pdf_author out = Some []
      /\ pdf_subject out = Some [] /\ pdf_producer out = Some []
      /\ pdf_creator out = Some [] /\ pdf_keywords out = Some []
      /\ pdf_creationDate out = Some epoch
      /\ pdf_modificationDate out = Some epoch)
  /\ (exists out,
        Beta.cleanPDF clock (PdfBytes d) = Some (PdfBytes out)
        /\ pdf_pages out = match pdf_pages d with [] => [blank_page] | ps => ps end
        /\ (forall i p, pdf_pages d !! i = Some p -> pdf_pages out !! i = Some p)
        /\ pdf_rest out = []
        /\ pdf_title out = Some [] /\ pdf_author out = Some []
        /\ pdf_subject out = Some [] /\ pdf_producer out = Some []
        /\ pdf_creator out = Some [] /\ pdf_keywords out = Some []
        /\ pdf_creationDate out = Some (clock 2)
        /\ pdf_modificationDate out = Some (clock 3)).
Proof.
  split.
  - destruct d as [ps rest t a sj pr cr kw cd md]. destruct ps as [|p ps];
      (eexists; split; [reflexivity|]; cbn; repeat split).
  - rewrite cleanPDF_loaded. destruct d as [ps rest t a sj pr cr kw cd md].
    destruct ps as [|p ps]; (eexists; split; [reflexivity|]; cbn; repeat split);
      try discriminate; intros i q H; exact H.
Qed.

(** *** C3: the text normaliser *)

(** C3.  [cleanTextBasic] is idempotent on every string, and the text
    "Hello  world ,test" (two spaces, a space before the comma) becomes
    "Hello world, test". *)
Theorem C3_cleanTextBasic_idempotent :
  (forall s : jsstring, cleanTextBasic (cleanTextBasic s) = cleanTextBasic s)
  /\ cleanTextBasic (lit "Hello  world ,test") = lit "Hello world, test".
Proof.
  split; [|vm_compute; reflexivity].
  intros s. rewrite !cleanTextBasic_pipeline.
  rewrite (pipeline_tokens s), pipeline_render.
  - now rewrite norm_idem.
  - apply norm_valid, tokens_valid, strip_zwsp_clean.
Qed.

(** *** C4: chunks and requests *)




(** *** C5: a failed request *)

(** C5.  If any one of the requests of a run fails (the request for a
    chunk, issued after those for the chunks before it), then
    [runLanguageTool] throws, it returns no list of matches; and the
    handler of POST /clean-v2 then answers with the error "Processing
    failed (V2)": it sends no archive and no cleaned document. *)
Theorem C5_failed_request_fails_bundle (cfg : config) (now : Z)
    (pdfParse : file_data -> option jsstring)
    (svc : service (option (list CheckMatch))) (req : request) (f : upload)
    (name : jsstring) (buf : file_data) (text : jsstring) (k : nat) (q : lt_request) :
  req_file req = Some f ->
  prepare now pdfParse f = Cleaned name buf text ->
  requests_of cfg (or_else (lt_language req) (lit "auto")) text !! k = Some q ->
  svc (take k (requests_of cfg (or_else (lt_language req) (lit "auto")) text)) q = None ->
  (runLanguageTool cfg text (or_else (lt_language req) (lit "auto")) svc []).1 = None
  /\ (clean_v2 cfg now pdfParse svc req).1 = Json 500 (lit "Processing failed (V2)").
Proof.
  intros Hf Hp Hk Hq.
  assert (Hrun : (runLanguageTool cfg text (or_else (lt_language req) (lit "auto")) svc []).1
                 = None).
  { unfold runLanguageTool. eapply check_chunks_fail; [exact Hk|exact Hq]. }
  split; [exact Hrun|].
  unfold clean_v2. rewrite Hf, Hp, or_else_same.
  destruct (runLanguageTool cfg text (or_else (lt_language req) (lit "auto")) svc [])
    as [[ms|] log]; [discriminate|reflexivity].
Qed.

Lemma C5_failed_request_fails_bundle_witness :
  req_file sample_request = Some sample_upload
  /\ (exists name buf,
        prepare 0 sample_pdfParse sample_upload = Cleaned name buf (lit "Hello world"))
  /\ requests_of sample_cfg (lit "auto") (lit "Hello world") !! 0
     = Some (payload sample_cfg (lit "Hello world") (lit "auto"))
  /\ (clean_v2 sample_cfg 0 sample_pdfParse service_down sample_request).1
     = Json 500 (lit "Processing failed (V2)").
Proof.
  split; [reflexivity|]. split; [do 2 eexists; vm_compute; reflexivity|].
  split; [vm_compute; reflexivity|].
  eapply (C5_failed_request_fails_bundle sample_cfg 0 sample_pdfParse service_down
            sample_request sample_upload _ _ (lit "Hello world") 0
            (payload sample_cfg (lit "Hello world") (lit "auto"))).
  - reflexivity.
  - vm_compute. reflexivity.
  - vm_compute. reflexivity.
  - reflexivity.
Defined.

(** *** C8: a text that is empty or white space only *)

(** C8.  For every text that is empty or made of white space only,
    [runLanguageTool] returns the empty list of matches and sends no
    request, whatever the service would answer; the handler of POST
    /clean-v2 then sends a bundle whose report has no match, zero as
    [totalIssues] and the placeholder row in its page.  The beta's
    [languageToolCheck] returns an object with an empty list of matches
    and sends no request either. *)
Theorem C8_blank_text_no_request (cfg : config) (lang text : jsstring)
    (svc : service (option (list CheckMatch))) :
  Forall (fun c => is_ws c = true) text ->
  runLanguageTool cfg text lang svc [] = (Some [], [])
  /\ totalIssues (report_summary (buildReportJSON (lit "a_cleaned.pdf") lang [] (length text))) = 0
  /\ (forall now pdfParse req f name buf,
        req_file req = Some f ->
        prepare now pdfParse f = Cleaned name buf text ->
        exists zipName zip,
          clean_v2 cfg now pdfParse svc req = (SendZip zipName zip, [])
          /\ report_matches (report_json zip) = []
          /\ totalIssues (report_summary (report_json zip)) = 0
          /\ report_html zip
             = html_top (report_summary (report_json zip)) ++ no_suggestion_row ++ html_bottom)
  /\ (forall (bcfg : Beta.config) (bsvc : service Beta.json),
        Beta.languageToolCheck bcfg text lang bsvc []
        = (Some (Beta.JObj [(lit "matches", Beta.JArr [])]), [])).
Proof.
  intros Hws.
  assert (Hrun : forall l, runLanguageTool cfg text l svc [] = (Some [], [])).
  { intros l. unfold runLanguageTool. apply check_chunks_blank.
    now apply chunk_loop_blank. }
  split; [apply Hrun|]. split; [reflexivity|]. split.
  - intros now pdfParse req f name buf Hf Hp.
    unfold clean_v2. rewrite Hf, Hp, or_else_same, Hrun.
    do 2 eexists. split; [reflexivity|]. cbn [report_json report_html].
    split; [reflexivity|]. split; [reflexivity|].
    now apply buildReportHTML_empty.
  - intros bcfg bsvc. unfold Beta.languageToolCheck. now rewrite (blank_all text Hws).
Qed.

Lemma C8_blank_text_no_request_witness :
  Forall (fun c => is_ws c = true) [SP; TAB; LF]
  /\ runLanguageTool sample_cfg [SP; TAB; LF] (lit "auto") service_quiet [] = (Some [], [])
  /\ Beta.languageToolCheck sample_beta_cfg [SP; TAB; LF] (lit "auto") beta_service_quiet []
     = (Some (Beta.JObj [(lit "matches", Beta.JArr [])]), []).
Proof.
  assert (H : Forall (fun c => is_ws c = true) [SP; TAB; LF])
    by (repeat constructor).
  pose proof (C8_blank_text_no_request sample_cfg (lit "auto") [SP; TAB; LF] service_quiet H)
    as (Hrun & _ & _ & Hbeta).
  split; [exact H|]. split; [exact Hrun|]. apply Hbeta.
Defined.

(** *** C9: an archive without word/document.xml *)

(** C9, as stated, fails: the empty archive has no word/document.xml, and
    [processDOCXBasic] returns an output for it. *)
Lemma C9_empty_archive_accepted :
  (∅ : archive) !! docPath = None
  /\ processDOCXBasic (ZipBytes ∅) = Some (ZipBytes ∅).
Proof. split; reflexivity. Qed.

(** C9, amended.  For every archive that lacks word/document.xml, the
    DOCX sanitiser does not fail: it skips the rewriting of the text and
    returns the archive with the metadata changes alone.  Of the file
    entries, [processDOCXBasic] blanks docProps/core.xml, removes
    docProps/custom.xml and leaves every other one as it is; [cleanDOCX]
    of the beta removes docProps/core.xml, docProps/app.xml,
    docProps/custom.xml and the customXml part (the file of that name,
    or else every file below customXml/) and leaves every other one as
    it is.  The output still has no word/document.xml. *)
Theorem C9_missing_document_entry_tolerated (zip : archive) :
  zip !! docPath = None ->
  (exists out,
      processDOCXBasic (ZipBytes zip) = Some (ZipBytes out)
      /\ out !! docPath = None
      /\ out !! corePath = blank_core <$> zip !! corePath
      /\ out !! customPath = None
      /\ forall k : jsstring, k <> corePath -> k <> customPath -> out !! k = zip !! k)
  /\ (exists out,
        Beta.cleanDOCX (ZipBytes zip) = Some (ZipBytes out)
        /\ out !! docPath = None
        /\ forall k : jsstring,
             out !! k =
             if bool_decide (k = lit "docProps/core.xml")
                || bool_decide (k = lit "docProps/app.xml")
                || bool_decide (k = lit "docProps/custom.xml")
             then None
             else if (match zip !! lit "customXml" with
                      | Some _ => bool_decide (k = lit "customXml")
                      | None => starts_with (lit "customXml/") k
                      end)
             then None
             else zip !! k).
Proof.
  intros H. split.
  - exists (sanitize_archive zip). split; [reflexivity|].
    split; [now apply sanitize_archive_no_doc|].
    pose proof core_ne_custom as Hcc.
    split; [|split].
    + rewrite sanitize_archive_lookup. rewrite decide_False by exact Hcc.
      now rewrite decide_True by reflexivity.
    + apply sanitize_archive_custom.
    + intros k Hk1 Hk2. rewrite sanitize_archive_lookup.
      rewrite decide_False by exact Hk2. rewrite decide_False by exact Hk1.
      destruct (decide (k = docPath)) as [->|]; [|reflexivity]. now rewrite H.
  - exists (Beta.clean_archive zip). split; [reflexivity|].
    assert (Hl : forall k : jsstring,
      Beta.clean_archive zip !! k =
      if bool_decide (k = lit "docProps/core.xml")
         || bool_decide (k = lit "docProps/app.xml")
         || bool_decide (k = lit "docProps/custom.xml")
      then None
      else if (match zip !! lit "customXml" with
               | Some _ => bool_decide (k = lit "customXml")
               | None => starts_with (lit "customXml/") k
               end)
      then None
      else zip !! k).
    { intros k. rewrite clean_archive_lookup.
      destruct (bool_decide_reflect (k = Beta.docPath)) as [->|]; [|reflexivity].
      change Beta.docPath with docPath. rewrite H. now repeat case_match. }
    split; [|exact Hl]. rewrite Hl, H. now repeat case_match.
Qed.

Lemma C9_missing_document_entry_tolerated_witness :
  ({[ corePath := lit "<dc:creator>Jane</dc:creator>" ]} : archive) !! docPath = None
  /\ exists out,
       processDOCXBasic (ZipBytes {[ corePath := lit "<dc:creator>Jane</dc:creator>" ]})
         = Some (ZipBytes out)
       /\ out !! docPath = None
       /\ out !! corePath = Some (lit "<dc:creator></dc:creator>").
Proof.
  assert (H : ({[ corePath := lit "<dc:creator>Jane</dc:creator>" ]} : archive) !! docPath = None)
    by (apply lookup_singleton_ne; discriminate).
  split; [exact H|].
  destruct (proj1 (C9_missing_document_entry_tolerated _ H)) as (out & E & Hd & Hc & _).
  exists out. split; [exact E|]. split; [exact Hd|]. rewrite Hc.
  rewrite lookup_singleton_eq. vm_compute. reflexivity.
Defined.

(** *** C10: a listed element that occurs again *)

(** C10, as stated, fails: here the second creator element lies inside the
    title element, and the replacement for the title removes it. *)
Lemma C10_nested_later_occurrence_lost :
  includes (lit "<dc:creator>B</dc:creator>") nested_creator = true
  /\ processDOCXBasic (ZipBytes {[ corePath := nested_creator ]})
     = Some (ZipBytes {[ corePath := lit "<dc:creator></dc:creator><dc:title></dc:title>" ]})
  /\ includes (lit "<dc:creator>B</dc:creator>")
       (lit "<dc:creator></dc:creator><dc:title></dc:title>") = false.
Proof. repeat split; vm_compute; reflexivity. Qed.

(** C10, amended.  Take a core-properties entry that is flat: a text, then
    elements among the five listed ones, each with its content and the
    text that follows it, where no text and no content contains an
    opening or closing tag of a listed element.  For every such entry the
    sanitiser empties the first occurrence of each listed element and
    leaves every later occurrence and all the other text as they are;
    with two creator elements, the second one keeps its content.  (A later
    occurrence that lies inside the span of another listed element is
    rewritten with that span.) *)
Theorem C10_flat_entry_first_occurrences (zip : archive) (pre : jsstring)
    (segs : list segment) :
  well_formed pre segs ->
  zip !! corePath = Some (render_entry pre segs) ->
  (exists out,
      processDOCXBasic (ZipBytes zip) = Some (ZipBytes out)
      /\ out !! corePath = Some (render_entry pre (blank_firsts segs)))
  /\ (forall a b mid post,
        segs = [(Creator, a, mid); (Creator, b, post)] ->
        blank_core (render_entry pre segs)
        = pre ++ open_tag creator ++ close_tag creator ++ mid
              ++ open_tag creator ++ b ++ close_tag creator ++ post).
Proof.
  intros Hwf Hz. split.
  - exists (sanitize_archive zip). split; [reflexivity|].
    rewrite (sanitize_archive_core zip _ Hz). f_equal. now apply blank_core_flat.
  - intros a b mid post ->. rewrite blank_core_flat by assumption.
    unfold render_entry, render_segments. cbn [blank_firsts blank_first_of element_eqb
      map concat]. unfold render_segment. cbn [fst snd tag_of].
    rewrite app_nil_r, <- !app_assoc. reflexivity.
Qed.

Lemma C10_flat_entry_first_occurrences_witness :
  well_formed (lit "<cp:coreProperties>")
    [(Creator, lit "A", lit ""); (Creator, lit "B", lit "</cp:coreProperties>")]
  /\ blank_core (render_entry (lit "<cp:coreProperties>")
       [(Creator, lit "A", lit ""); (Creator, lit "B", lit "</cp:coreProperties>")])
     = lit "<cp:coreProperties>" ++ open_tag creator ++ close_tag creator ++ lit ""
         ++ open_tag creator ++ lit "B" ++ close_tag creator ++ lit "</cp:coreProperties>".
Proof.
  assert (H : well_formed (lit "<cp:coreProperties>")
    [(Creator, lit "A", lit ""); (Creator, lit "B", lit "</cp:coreProperties>")]).
  { split; [|constructor; [|constructor; [|constructor]]; split];
      intros e; destruct e; split; vm_compute; reflexivity. }
  split; [exact H|].
  refine (proj2 (C10_flat_entry_first_occurrences
            {[ corePath := render_entry (lit "<cp:coreProperties>")
                 [(Creator, lit "A", lit ""); (Creator, lit "B", lit "</cp:coreProperties>")] ]}
            _ _ H _) _ _ _ _ eq_refl).
  apply lookup_singleton_eq.
Defined.

(** *** C6: the report summary *)

(** C6.  [totalIssues] is the length of the list of matches, for every
    list.  [byRule] holds the number of occurrences of every rule
    identifier that is not the name of a member of [Object.prototype]
    ([count_rules_counts]); for a match whose rule identifier is
    "constructor" it does not hold the count 1 but a text: the inherited
    constructor function, taken for the previous count, with "1"
    appended. *)
Theorem C6_inherited_rule_key :
  (forall fileName language matches textLength,
      totalIssues (report_summary (buildReportJSON fileName language matches textLength))
      = length matches)
  /\ let r := buildReportJSON (lit "a_cleaned.pdf") (lit "auto")
                [match_of_rule (lit "constructor")] 9 in
     occurrences (lit "constructor") (report_matches r) = 1
     /\ byRule (report_summary r) !! lit "constructor"
        = Some (VStr (lit "function Object() { [native code] }1")).
Proof. split; [reflexivity|]. split; vm_compute; reflexivity. Qed.

(** *** C7: the report page *)

(** C7.  The escaping leaves no "<" in a text, and it is applied to the
    message, the replacements and the context of a match; a report
    without matches shows the placeholder row.  The file name and the
    rule identifier are put into the page as they are: with a file name
    and a rule identifier that contain "<", the page contains them
    unescaped, also when it is built by the handler for an upload of that
    name. *)
Theorem C7_file_name_and_rule_id_not_escaped :
  (forall s, Forall (fun c => c <> LT) (escape_lt s))
  /\ (forall summary,
        buildReportHTML {| report_summary := summary; report_matches := [] |}
        = html_top summary ++ no_suggestion_row ++ html_bottom)
  /\ let page := buildReportHTML
                   (buildReportJSON (lit "<script>_cleaned.pdf") (lit "auto")
                      [match_of_rule (lit "<b>RULE")] 9) in
     includes (lit "<b>Fichier:</b> <script>_cleaned.pdf</div>") page = true
     /\ includes (lit ">1</td>" ++ [LF] ++ lit "        " ++ td ++ lit "<b>RULE</td>") page
        = true
     /\ includes (lit "&lt;script>") page = false
     /\ exists zipName zip,
          (clean_v2 sample_cfg 0 sample_pdfParse service_quiet script_request).1
          = SendZip zipName zip
          /\ includes (lit "<b>Fichier:</b> <script>_cleaned.pdf</div>") (report_html zip)
             = true.
Proof.
  split; [apply escape_lt_clean|]. split; [reflexivity|].
  split; [vm_compute; reflexivity|]. split; [vm_compute; reflexivity|].
  split; [vm_compute; reflexivity|].
  do 2 eexists. split; [vm_compute; reflexivity|]. vm_compute. reflexivity.
Qed.

(** ** Further properties

    Properties of the code that the claims leave out: the shape of
    normalised text, the entries of a cleaned archive, the callback of a
    text run, the names and headers of the responses, the aggregation of
    the answers of the service, the origins that are accepted. *)

(** *** The shape of normalised text *)

Lemma cleanTextBasic_tokens s :
  exists its,
    cleanTextBasic s = render its false
    /\ valid its /\ stable None its /\ lead its = its /\ trail its = its
    /\ map snd its = map snd (norm (tokens false (strip_zwsp s))).
Proof.
  exists (norm (tokens false (strip_zwsp s))).
  rewrite cleanTextBasic_pipeline, pipeline_tokens.
  split; [reflexivity|]. split; [apply norm_valid, tokens_valid, strip_zwsp_clean|].
  unfold norm. split; [apply stable_trail; eapply stable_lead; apply stable_reflag|].
  split; [apply lead_trail_lead|]. split; [apply trail_trail|reflexivity].
Qed.

Lemma okc_facts c : okc c = true -> is_sp c = false /\ (c =? TAB)%N = false /\ (c =? ZWSP)%N = false.
Proof.
  intros H. split; [now apply okc_sp|]. split; [|now apply okc_zwsp].
  apply okc_sp_tab in H. unfold is_sp_tab in H. now apply orb_false_iff in H as [_ H].
Qed.

Lemma render_clean its tl :
  valid its -> Forall (fun c => c <> TAB /\ c <> ZWSP) (render its tl).
Proof.
  induction 1 as [|[b c] r Hc _ IH]; cbn [render].
  - destruct tl; repeat constructor; discriminate.
  - cbn in Hc. apply okc_facts in Hc as (_ & Ht & Hz).
    apply N.eqb_neq in Ht, Hz.
    destruct b; cbn [app]; repeat (constructor; [split; try discriminate; assumption|]); exact IH.
Qed.

(** What stability says about one flag. *)
Lemma stable_flag p b c :
  F p b c = b ->
  (b = true -> is_dot c = false /\ prev_is is_lf p = false
               /\ (is_punct c || is_lf c = true -> prev_is is_punct p = true))
  /\ (b = false -> prev_is is_punct p = true -> is_dot c = true).
Proof.
  unfold F, f5, f4, f3.
  destruct p as [p|]; cbn [prev_is].
  - assert (Hx : is_punct p = true -> is_lf p = false).
    { unfold is_punct, is_lf. destruct (N.eqb_spec p LF) as [->|]; [discriminate|reflexivity]. }
    destruct (is_punct p) eqn:Ep, (is_lf p) eqn:El, (is_punct c), (is_lf c), (is_dot c), b;
      cbn; intros H; try discriminate H; try (specialize (Hx eq_refl); discriminate Hx);
      repeat split; intros; try reflexivity; try discriminate.
  - destruct (is_punct c), (is_lf c), (is_dot c), b; cbn; intros H; try discriminate H;
      repeat split; intros; try reflexivity; try discriminate.
Qed.

Lemma shape3_mid a b c : is_sp b = false -> shape3 a b c = true.
Proof. intros H. unfold shape3. now rewrite H. Qed.

Lemma shape2_sp_left c : is_sp c = false -> is_dot c = false -> shape2 SP c = true.
Proof. intros H1 H2. unfold shape2. rewrite H1, H2. reflexivity. Qed.

Lemma shape2_sp_right p : is_sp p = false -> is_lf p = false -> shape2 p SP = true.
Proof.
  intros H1 H2. unfold shape2. rewrite H1, H2. cbn.
  now rewrite orb_true_r.
Qed.

Lemma shape2_plain p c :
  is_sp p = false -> is_sp c = false -> (is_punct p = true -> is_dot c = true) ->
  shape2 p c = true.
Proof.
  intros H1 H2 H3. unfold shape2. rewrite H1, H2. cbn. rewrite andb_false_r. cbn.
  destruct (is_punct p); [now rewrite H3|reflexivity].
Qed.

Lemma pairs_cons2 ok a b X : pairs ok (a :: b :: X) = ok a b && pairs ok (b :: X).
Proof. reflexivity. Qed.

Lemma triples_cons2 ok a b X :
  triples ok (a :: b :: X)
  = match X with c :: _ => ok a b c | [] => true end && triples ok (b :: X).
Proof. reflexivity. Qed.

Lemma render_cons_split b c r tl :
  render ((b, c) :: r) tl = (if b then [SP] else []) ++ c :: render r tl.
Proof. reflexivity. Qed.

Lemma shape_render its : forall p,
  valid its -> is_sp p = false -> stable (Some p) its ->
  pairs shape2 (p :: render its false) = true
  /\ triples shape3 (p :: render its false) = true.
Proof.
  induction its as [|[b c] r IH]; intros p Hv Hp Hs; [split; reflexivity|].
  inversion Hv as [|? ? Hc Hr]; subst. cbn in Hc. apply okc_sp in Hc.
  apply stable_cons in Hs as [Hb Hs].
  destruct (IH c Hr Hc Hs) as [IH2 IH3].
  apply stable_flag in Hb as [Ht Hf]. cbn [prev_is] in Ht, Hf.
  rewrite render_cons_split. destruct b; cbn [app].
  - destruct (Ht eq_refl) as (Hd & Hl & Hx).
    rewrite !pairs_cons2, !triples_cons2, IH2, IH3.
    rewrite shape2_sp_right, shape2_sp_left by assumption.
    assert (E3 : shape3 p SP c = true).
    { unfold shape3. destruct (is_punct c || is_lf c) eqn:E.
      - now rewrite (Hx eq_refl), orb_true_r.
      - now rewrite andb_false_r. }
    rewrite E3. destruct (render r false); rewrite ?shape3_mid by assumption;
      split; reflexivity.
  - rewrite pairs_cons2, triples_cons2, IH2, IH3.
    rewrite shape2_plain by auto.
    destruct (render r false); rewrite ?shape3_mid by assumption; split; reflexivity.
Qed.

Lemma length_lead its : length (lead its) <= length its.
Proof.
  induction its as [|[b c] r IH]; cbn [lead length]; [lia|].
  destruct (is_ws c); cbn [length]; lia.
Qed.

Lemma lead_fixed its :
  lead its = its -> its = [] \/ exists c r, its = (false, c) :: r /\ is_ws c = false.
Proof.
  destruct its as [|[b c] r]; [now left|]. cbn [lead]. intros Hfix. right.
  destruct (is_ws c) eqn:E.
  - pose proof (length_lead r) as Hl. rewrite Hfix in Hl. cbn in Hl. lia.
  - injection Hfix as <-. eauto.
Qed.

Lemma ws_not_sp c : is_ws c = false -> is_sp c = false.
Proof.
  unfold is_sp. destruct (N.eqb_spec c SP) as [->|]; [discriminate|reflexivity].
Qed.

Lemma drop_while_first_ok s : first_ok (drop_while is_ws s) = true.
Proof.
  induction s as [|c r IH]; [reflexivity|]. cbn [drop_while].
  destruct (is_ws c) eqn:E; [exact IH|]. cbn. now rewrite E.
Qed.

Lemma trim_last s : first_ok (rev (trim s)) = true.
Proof. unfold trim. rewrite rev_involutive. apply drop_while_first_ok. Qed.

(** X1.  A text that [cleanTextBasic] returns has no tab and no zero-width
    space; it has no two spaces in a row, no space before a dot and none
    after a newline; after a code unit of [[,;:!?]] comes a space or a
    dot, unless the text ends there; a space stands before such a code
    unit or before a newline only when it follows another such code
    unit; the text neither starts nor ends with white space, so [trim]
    leaves it as it is. *)
Theorem X1_cleanTextBasic_shape (s : jsstring) :
  forallb (fun c => negb (c =? TAB)%N && negb (c =? ZWSP)%N) (cleanTextBasic s) = true
  /\ pairs shape2 (cleanTextBasic s) = true
  /\ triples shape3 (cleanTextBasic s) = true
  /\ first_ok (cleanTextBasic s) = true
  /\ first_ok (rev (cleanTextBasic s)) = true
  /\ trim (cleanTextBasic s) = cleanTextBasic s.
Proof.
  destruct (cleanTextBasic_tokens s) as (its & -> & Hv & Hs & Hl & Ht & _).
  assert (Htrim : trim (render its false) = render its false)
    by (now rewrite trim_render, Hl, Ht).
  split.
  { apply forallb_forall. intros c Hc.
    pose proof (render_clean its false Hv) as Hall.
    rewrite List.Forall_forall in Hall. destruct (Hall c Hc) as [H1 H2].
    apply N.eqb_neq in H1, H2. now rewrite H1, H2. }
  assert (Hshape : pairs shape2 (render its false) = true
                   /\ triples shape3 (render its false) = true
                   /\ first_ok (render its false) = true).
  { destruct (lead_fixed its Hl) as [->|(c & r & -> & Hc)]; [repeat split|].
    inversion Hv as [|? ? _ Hr]; subst. apply stable_cons in Hs as [_ Hs].
    destruct (shape_render r c Hr (ws_not_sp c Hc) Hs) as [H2 H3].
    cbn [render app]. repeat split; try assumption. cbn. now rewrite Hc. }
  destruct Hshape as (H2 & H3 & H1).
  repeat split; try assumption.
  rewrite <- Htrim at 1. apply trim_last.
Qed.

(** The code units that are kept. *)
Lemma visible_sp : visible SP = false.
Proof. reflexivity. Qed.

Lemma filter_visible_render its tl :
  List.filter visible (render its tl) = List.filter visible (map snd its).
Proof.
  induction its as [|[b c] r IH]; cbn [render map snd].
  - now destruct tl.
  - destruct b; cbn [app List.filter]; rewrite ?visible_sp, IH; reflexivity.
Qed.

Lemma map_snd_reflag f its : forall p, map snd (reflag f p its) = map snd its.
Proof. induction its as [|[b c] r IH]; intros p; cbn; [reflexivity|]. now rewrite IH. Qed.

Lemma visible_ws c : is_ws c = true -> visible c = false.
Proof. intros H. unfold visible. now rewrite H. Qed.

Lemma filter_visible_lead its :
  List.filter visible (map snd (lead its)) = List.filter visible (map snd its).
Proof.
  induction its as [|[b c] r IH]; cbn [lead map snd List.filter]; [reflexivity|].
  destruct (is_ws c) eqn:E; [now rewrite (visible_ws c E)|reflexivity].
Qed.

Lemma filter_cons_eq (f : N -> bool) x l :
  List.filter f (x :: l) = if f x then x :: List.filter f l else List.filter f l.
Proof. reflexivity. Qed.

Lemma filter_visible_trail its :
  List.filter visible (map snd (trail its)) = List.filter visible (map snd its).
Proof.
  induction its as [|[b c] r IH]; [reflexivity|].
  change (map snd ((b, c) :: r)) with (c :: map snd r).
  rewrite filter_cons_eq, <- IH. cbn [trail].
  destruct (trail r) as [|it t].
  - destruct (is_ws c) eqn:E; [now rewrite (visible_ws c E)|].
    cbn. now destruct (visible c).
  - change (map snd ((b, c) :: it :: t)) with (c :: map snd (it :: t)).
    now rewrite filter_cons_eq.
Qed.

Lemma filter_visible_tokens s : forall b,
  List.filter visible (map snd (tokens b s)) = List.filter visible s.
Proof.
  induction s as [|c r IH]; intros b; cbn [tokens]; [reflexivity|].
  destruct (is_sp_tab c) eqn:E.
  - rewrite IH. cbn [List.filter].
    assert (Hw : is_ws c = true).
    { unfold is_sp_tab in E. apply orb_true_iff in E as [E|E]; apply N.eqb_eq in E; now subst. }
    now rewrite (visible_ws c Hw).
  - cbn [map snd List.filter]. now rewrite IH.
Qed.

Lemma filter_visible_strip s : List.filter visible (strip_zwsp s) = List.filter visible s.
Proof.
  induction s as [|c r IH]; [reflexivity|]. rewrite strip_zwsp_cons.
  destruct (c =? ZWSP)%N eqn:E; cbn [List.filter]; rewrite IH; [|reflexivity].
  unfold visible. rewrite E. now rewrite andb_false_r.
Qed.

Lemma cleanTextBasic_visible s :
  List.filter visible (cleanTextBasic s) = List.filter visible s.
Proof.
  rewrite cleanTextBasic_pipeline, pipeline_tokens, filter_visible_render.
  unfold norm. rewrite filter_visible_trail, filter_visible_lead, map_snd_reflag.
  now rewrite filter_visible_tokens, filter_visible_strip.
Qed.

(** X2.  [cleanTextBasic] keeps every code unit that is neither white
    space nor the zero-width space, in the order of the input: it adds,
    removes or changes white space and removes zero-width spaces, and
    nothing else. *)
Theorem X2_cleanTextBasic_keeps_visible (s : jsstring) :
  List.filter visible (cleanTextBasic s) = List.filter visible s.
Proof. apply cleanTextBasic_visible. Qed.

(** X3.  [cleanTextBasic] returns the empty text exactly for the texts
    made of white space and zero-width spaces only. *)
Theorem X3_cleanTextBasic_empty_iff (s : jsstring) :
  is_empty (cleanTextBasic s) = forallb (fun c => negb (visible c)) s.
Proof.
  pose proof (cleanTextBasic_visible s) as Hv.
  destruct (cleanTextBasic_tokens s) as (its & E & Hval & _ & Hl & _ & _).
  destruct (forallb (fun c => negb (visible c)) s) eqn:Ef.
  - assert (Hn : List.filter visible s = []).
    { clear -Ef. induction s as [|c r IH]; [reflexivity|]. cbn in Ef |- *.
      apply andb_true_iff in Ef as [E1 E2]. destruct (visible c); [discriminate|]. auto. }
    rewrite Hn, E in Hv.
    destruct (lead_fixed its Hl) as [->|(c & r & -> & Hc)]; [now rewrite E|].
    exfalso. inversion Hval as [|? ? Hok _]; subst. cbn in Hok. apply okc_zwsp in Hok.
    cbn [render app List.filter] in Hv. unfold visible at 1 in Hv. rewrite Hc, Hok in Hv.
    discriminate.
  - destruct (cleanTextBasic s); [|reflexivity]. exfalso.
    cbn in Hv. symmetry in Hv. clear -Hv Ef.
    induction s as [|c r IH]; [discriminate|]. cbn in Ef, Hv.
    destruct (visible c); [discriminate|]. cbn in Ef. auto.
Qed.

(** *** The text runs of word/document.xml *)

Lemma replace_from_none (m : matcher) s :
  (forall i, m (drop i s) = None) -> replace_all m s = s.
Proof.
  unfold replace_all. induction s as [|c r IH]; intros H; [reflexivity|].
  cbn [replace_from]. pose proof (H 0) as H0. cbn [drop] in H0. rewrite H0.
  f_equal. apply IH. intros i. apply (H (S i)).
Qed.

Lemma m_wt_clean_none s : starts_with (lit "<w:t") s = false -> m_wt_clean s = None.
Proof. intros H. unfold m_wt_clean, m_wt. now rewrite H. Qed.

Lemma count_while_app p a c r :
  forallb p a = true -> p c = false -> count_while p (a ++ c :: r) = length a.
Proof.
  intros Ha Hc. induction a as [|x a IH]; cbn [app count_while length].
  - now rewrite Hc.
  - cbn [forallb] in Ha. apply andb_true_iff in Ha as [-> Ha]. now rewrite IH.
Qed.

Lemma anchored_wt_close : anchored wt_close.
Proof. eexists. split; [reflexivity|]. repeat constructor; discriminate. Qed.

Lemma m_wt_unfold rest :
  m_wt (lit "<w:t" ++ rest) =
  let k := count_while (fun c => negb (c =? GT)%N) rest in
  match drop k rest with
  | _ :: body =>
      match index_of (lit "</w:t>") body with
      | Some j =>
          Some (4 + k + 1 + j + 6, (take (4 + k + 1 + j + 6) (lit "<w:t" ++ rest), take j body))
      | None => None
      end
  | [] => None
  end.
Proof. unfold m_wt. rewrite starts_with_app. reflexivity. Qed.

Lemma m_wt_run attrs inner post :
  forallb (fun c => negb (c =? GT)%N) attrs = true ->
  includes wt_close inner = false ->
  m_wt (wt_open attrs ++ inner ++ wt_close ++ post)
  = Some (length (wt_open attrs ++ inner ++ wt_close),
          (wt_open attrs ++ inner ++ wt_close, inner)).
Proof.
  intros Ha Hi. unfold wt_open.
  replace ((lit "<w:t" ++ attrs ++ [GT]) ++ inner ++ wt_close ++ post)
    with (lit "<w:t" ++ (attrs ++ GT :: inner ++ wt_close ++ post))
    by now rewrite <- !app_assoc.
  rewrite m_wt_unfold. cbv zeta.
  rewrite count_while_app by (exact Ha || now rewrite N.eqb_refl).
  rewrite drop_app_length.
  change (lit "</w:t>") with wt_close.
  rewrite (index_of_text wt_close inner post anchored_wt_close Hi).
  rewrite take_app_length.
  assert (El : 4 + length attrs + 1 + length inner + 6
               = length ((lit "<w:t" ++ attrs ++ [GT]) ++ inner ++ wt_close)).
  { rewrite !length_app. cbn [length lit wt_close]. lia. }
  rewrite El. do 3 f_equal.
  replace (lit "<w:t" ++ attrs ++ GT :: inner ++ wt_close ++ post)
    with (((lit "<w:t" ++ attrs ++ [GT]) ++ inner ++ wt_close) ++ post)
    by now rewrite <- !app_assoc.
  apply take_app_length.
Qed.

Lemma starts_with_length p s : starts_with p s = true -> length p <= length s.
Proof.
  revert s. induction p as [|a p IH]; intros [|b s]; cbn [starts_with length]; intros H;
    try lia; try discriminate.
  apply andb_true_iff in H as [_ H]. apply IH in H. lia.
Qed.

Lemma starts_with_prefix p x y :
  length p <= length x -> starts_with p (x ++ y) = starts_with p x.
Proof.
  revert x. induction p as [|a p IH]; intros [|b x]; cbn [length app starts_with]; try lia;
    try reflexivity.
  intros H. rewrite IH by lia. reflexivity.
Qed.

Lemma index_of_bound p s i : index_of p s = Some i -> i + length p <= length s.
Proof.
  revert i. induction s as [|c r IH]; intros i; cbn [index_of].
  - destruct (starts_with p []) eqn:E; [|discriminate]. intros [= <-].
    apply starts_with_length in E. lia.
  - destruct (starts_with p (c :: r)) eqn:E.
    + intros [= <-]. apply starts_with_length in E. lia.
    + destruct (index_of p r) as [j|]; [|discriminate]. cbn. intros [= <-].
      specialize (IH j eq_refl). cbn [length]. lia.
Qed.

(** The first occurrence in a text is the first occurrence in every
    longer text. *)
Lemma index_of_app p x y i : index_of p x = Some i -> index_of p (x ++ y) = Some i.
Proof.
  revert i. induction x as [|c r IH]; intros i H.
  - pose proof (index_of_bound _ _ _ H) as Hb. cbn [length] in Hb.
    assert (p = []) by (destruct p; [reflexivity|cbn in Hb; lia]). subst p.
    cbn [index_of starts_with] in H. injection H as <-. now destruct y.
  - pose proof (index_of_bound _ _ _ H) as Hb. cbn [index_of] in H. cbn [app index_of].
    destruct (starts_with p (c :: r)) eqn:E.
    + injection H as <-. change (c :: r ++ y) with ((c :: r) ++ y).
      rewrite starts_with_prefix, E by (apply starts_with_length in E; exact E). reflexivity.
    + destruct (index_of p r) as [j|] eqn:Ej; [|discriminate]. cbn in H. injection H as <-.
      change (c :: r ++ y) with ((c :: r) ++ y).
      rewrite starts_with_prefix, E by lia. now rewrite (IH j eq_refl).
Qed.

Lemma expand_dollar_plain matched before after rep :
  forallb (fun c => negb (c =? DOLLAR)%N) rep = true ->
  expand_dollar matched before after rep = rep.
Proof.
  induction rep as [|c r IH]; [reflexivity|]. cbn [forallb expand_dollar].
  intros [Hc Hr]%andb_true_iff. apply negb_true_iff in Hc. rewrite Hc. f_equal. auto.
Qed.

(** X6.  The callback of [processDOCXBasic] on one run: an opening tag
    [<w:t ...>], a text without the closing tag, the closing tag.  The
    callback replaces the first occurrence of the text in the whole match
    by the normalised text (taken here without "$").  When the text first
    occurs after the opening tag, the run holds the normalised text; when
    it occurs inside the opening tag (a run of one space after an
    attribute, say), the tag is rewritten there and the text of the run
    stays as it was.  The scan goes on after the closing tag. *)
Theorem X6_run_rewritten_at_first_occurrence (attrs inner post : jsstring) (i : nat) :
  forallb (fun c => negb (c =? GT)%N) attrs = true ->
  includes wt_close inner = false ->
  forallb (fun c => negb (c =? DOLLAR)%N) (cleanTextBasic inner) = true ->
  index_of inner (wt_open attrs ++ inner) = Some i ->
  replace_all m_wt_clean (wt_open attrs ++ inner ++ wt_close ++ post)
  = take i (wt_open attrs ++ inner) ++ cleanTextBasic inner
    ++ drop (i + length inner) (wt_open attrs ++ inner) ++ wt_close
    ++ replace_all m_wt_clean post.
Proof.
  intros Ha Hi Hd Hx.
  assert (Hm := m_wt_run attrs inner post Ha Hi).
  destruct (wt_open attrs ++ inner ++ wt_close ++ post) as [|c r] eqn:Es.
  { unfold wt_open in Es. discriminate. }
  rewrite replace_all_cons. unfold m_wt_clean. rewrite Hm.
  assert (El : length (wt_open attrs ++ inner ++ wt_close) = S (length (wt_open attrs ++ inner) + 5)).
  { rewrite app_assoc, length_app. cbn [length wt_close lit]. lia. }
  rewrite El.
  assert (Er : drop (length (wt_open attrs ++ inner) + 5) r = post).
  { change (drop (length (wt_open attrs ++ inner) + 5) r)
      with (drop (S (length (wt_open attrs ++ inner) + 5)) (c :: r)).
    rewrite <- Es, <- El.
    replace (wt_open attrs ++ inner ++ wt_close ++ post)
      with ((wt_open attrs ++ inner ++ wt_close) ++ post) by now rewrite <- !app_assoc.
    apply drop_app_length. }
  rewrite Er. unfold replace_str.
  replace (wt_open attrs ++ inner ++ wt_close) with ((wt_open attrs ++ inner) ++ wt_close)
    by now rewrite <- app_assoc.
  rewrite (index_of_app _ _ wt_close _ Hx).
  pose proof (index_of_bound _ _ _ Hx) as Hb.
  rewrite expand_dollar_plain by exact Hd.
  rewrite take_app_le by lia. rewrite drop_app_le by lia.
  now rewrite <- !app_assoc.
Qed.

Lemma X6_run_rewritten_at_first_occurrence_witness :
  index_of [SP] (wt_open preserve ++ [SP]) = Some 4
  /\ replace_all m_wt_clean (wt_open preserve ++ [SP] ++ wt_close ++ [])
     = lit "<w:txml:space=" ++ [DQ] ++ lit "preserve" ++ [DQ] ++ lit "> </w:t>".
Proof.
  split; [reflexivity|].
  rewrite (X6_run_rewritten_at_first_occurrence preserve [SP] [] 4); reflexivity.
Defined.

(** X7.  A word/document.xml in which "<w:t" does not occur is left as it
    is by the rewriting of [processDOCXBasic]. *)
Theorem X7_document_without_runs (xml : jsstring) :
  includes (lit "<w:t") xml = false -> replace_all m_wt_clean xml = xml.
Proof.
  intros H. apply replace_from_none. intros i. apply m_wt_clean_none.
  unfold includes in H. destruct (index_of (lit "<w:t") xml) eqn:E; [discriminate|].
  now apply index_of_none.
Qed.

Lemma X7_document_without_runs_witness :
  replace_all m_wt_clean (lit "<w:p><w:r><w:br/></w:r></w:p>")
  = lit "<w:p><w:r><w:br/></w:r></w:p>".
Proof.
  apply X7_document_without_runs. reflexivity.
Defined.

(** *** Runs of a class *)

Lemma length_drop_while p s : length (drop_while p s) <= length s.
Proof. induction s as [|c r IH]; cbn [drop_while]; [lia|]. destruct (p c); cbn [length]; lia. Qed.

Lemma drop_while_head p s c r : drop_while p s = c :: r -> p c = false.
Proof.
  induction s as [|d s IH]; cbn [drop_while]; [discriminate|].
  destruct (p d) eqn:E; [exact IH|]. intros [= <- <-]. exact E.
Qed.

Lemma forallb_drop_while (q p : N -> bool) s :
  forallb q s = true -> forallb q (drop_while p s) = true.
Proof.
  induction s as [|c r IH]; cbn [drop_while]; [auto|]. intros H.
  destruct (p c); [|exact H]. cbn [forallb] in H. apply andb_true_iff in H as [_ H]. auto.
Qed.

Lemma replace_run_cons p rep c r :
  replace_all (m_run p rep) (c :: r) =
  if p c then rep ++ replace_all (m_run p rep) (drop_while p r)
  else c :: replace_all (m_run p rep) r.
Proof.
  rewrite replace_all_cons. unfold m_run at 1. cbn [count_while].
  destruct (p c); [|reflexivity]. now rewrite drop_count_while.
Qed.

(** Induction on the text, with the hypothesis for every shorter one. *)
Lemma shorter_ind (P : jsstring -> Prop) :
  (forall s, (forall t, length t < length s -> P t) -> P s) -> forall s, P s.
Proof.
  intros H s. remember (length s) as n eqn:E. revert s E.
  induction n as [n IH] using lt_wf_ind. intros s ->. apply H. intros t Ht.
  now apply (IH (length t)).
Qed.

(** What is not replaced is copied: a property of the text and of the
    replacement holds of the result. *)
Lemma replace_run_keeps (q p : N -> bool) rep s :
  forallb q rep = true -> forallb q s = true ->
  forallb q (replace_all (m_run p rep) s) = true.
Proof.
  intros Hrep. induction s as [s IH] using shorter_ind. destruct s as [|c r]; [reflexivity|].
  intros H. cbn [forallb] in H. apply andb_true_iff in H as [Hc Hr].
  rewrite replace_run_cons. destruct (p c).
  - rewrite forallb_app, Hrep. apply IH; [|now apply forallb_drop_while].
    pose proof (length_drop_while p r). cbn [length]. lia.
  - cbn [forallb]. rewrite Hc. apply IH; [cbn [length]; lia|exact Hr].
Qed.

(** When the replacement is outside the class, so is the result. *)
Lemma replace_run_clean (p : N -> bool) rep s :
  forallb (fun c => negb (p c)) rep = true ->
  forallb (fun c => negb (p c)) (replace_all (m_run p rep) s) = true.
Proof.
  intros Hrep. induction s as [s IH] using shorter_ind. destruct s as [|c r]; [reflexivity|].
  rewrite replace_run_cons. destruct (p c) eqn:E.
  - rewrite forallb_app, Hrep. apply IH.
    pose proof (length_drop_while p r). cbn [length]. lia.
  - cbn [forallb]. rewrite E. apply IH. cbn [length]; lia.
Qed.

(** A text outside the class is left as it is. *)
Lemma replace_run_id (p : N -> bool) rep s :
  forallb (fun c => negb (p c)) s = true -> replace_all (m_run p rep) s = s.
Proof.
  induction s as [|c r IH]; [reflexivity|]. cbn [forallb]. intros [Hc Hr]%andb_true_iff.
  rewrite replace_run_cons. apply negb_true_iff in Hc. rewrite Hc. f_equal. auto.
Qed.

(** *** [SAFE] of the beta *)

Ltac bools :=
  repeat match goal with
  | H : (_ || _) = true |- _ => apply orb_true_iff in H as [H|H]
  | H : (_ && _) = true |- _ => let H' := fresh in apply andb_true_iff in H as [H' H]
  | H : (_ || _) = false |- _ => let H' := fresh in apply orb_false_iff in H as [H' H]
  | H : (_ && _) = false |- _ => apply andb_false_iff in H as [H|H]
  | H : negb _ = true |- _ => apply negb_true_iff in H
  | H : negb _ = false |- _ => apply negb_false_iff in H
  | H : (_ <=? _)%N = true |- _ => apply N.leb_le in H
  | H : (_ <=? _)%N = false |- _ => apply N.leb_gt in H
  | H : (_ <? _)%N = true |- _ => apply N.ltb_lt in H
  | H : (_ <? _)%N = false |- _ => apply N.ltb_ge in H
  | H : (_ =? _)%N = true |- _ => apply N.eqb_eq in H
  | H : (_ =? _)%N = false |- _ => apply N.eqb_neq in H
  end.

Lemma is_name_range c : is_name c = true -> (40 <= c <= 122)%N.
Proof. unfold is_name, is_word, DOT. intros H. bools; lia. Qed.

Lemma is_name_not_ws c : is_name c = true -> is_ws c = false.
Proof.
  intros H%is_name_range. destruct (is_ws c) eqn:E; [|reflexivity].
  exfalso. unfold is_ws in E. bools; lia.
Qed.

Lemma is_safe_name c : Beta.is_safe c = is_name c || is_sp c.
Proof. reflexivity. Qed.

Lemma is_name_of_safe c : Beta.is_safe c = true -> is_ws c = false -> is_name c = true.
Proof.
  rewrite is_safe_name. intros H Hw. apply orb_true_iff in H as [H|H]; [exact H|].
  unfold is_sp in H. apply N.eqb_eq in H. subst c. discriminate.
Qed.

Lemma forallb_and (p q : N -> bool) s :
  forallb (fun c => p c && q c) s = forallb p s && forallb q s.
Proof.
  induction s as [|c r IH]; [reflexivity|]. cbn [forallb]. rewrite IH.
  destruct (p c), (q c), (forallb p r); reflexivity.
Qed.

Lemma forallb_impl (p q : N -> bool) s :
  (forall c, p c = true -> q c = true) -> forallb p s = true -> forallb q s = true.
Proof.
  intros H. induction s as [|c r IH]; [reflexivity|]. cbn [forallb].
  intros [Hc Hr]%andb_true_iff. rewrite (H c Hc). cbn [andb]. auto.
Qed.

Lemma forallb_take (p : N -> bool) n s : forallb p s = true -> forallb p (take n s) = true.
Proof.
  revert n. induction s as [|c r IH]; intros [|n] H; try reflexivity. cbn [take forallb] in *.
  apply andb_true_iff in H as [Hc Hr]. rewrite Hc. cbn [andb]. auto.
Qed.

Lemma SAFE_charset s : forallb is_name (Beta.SAFE s) = true.
Proof.
  unfold Beta.SAFE, slice. cbn [drop]. apply forallb_take.
  apply (forallb_impl (fun c => Beta.is_safe c && negb (is_ws c))).
  { intros c [Ha Hb%negb_true_iff]%andb_true_iff. now apply is_name_of_safe. }
  rewrite forallb_and. apply andb_true_iff. split.
  - apply replace_run_keeps; [reflexivity|].
    apply (forallb_impl (fun c => negb (negb (Beta.is_safe c)))).
    { intros c. now rewrite negb_involutive. }
    apply (replace_run_clean (fun c => negb (Beta.is_safe c))). reflexivity.
  - apply (replace_run_clean is_ws). reflexivity.
Qed.

Lemma SAFE_short s : length (Beta.SAFE s) <= 180.
Proof. unfold Beta.SAFE, slice. rewrite length_take. lia. Qed.

Lemma SAFE_id t : forallb is_name t = true -> length t <= 180 -> Beta.SAFE t = t.
Proof.
  intros Ht Hl. unfold Beta.SAFE, slice. cbn [drop].
  unfold Beta.m_unsafe_run, Beta.m_ws_underscore.
  rewrite (replace_run_id (fun c => negb (Beta.is_safe c))).
  2:{ revert Ht. apply forallb_impl. intros c Hc. rewrite is_safe_name, Hc. reflexivity. }
  rewrite (replace_run_id is_ws).
  2:{ revert Ht. apply forallb_impl. intros c Hc. now rewrite is_name_not_ws. }
  apply take_ge. lia.
Qed.

(** X8.  [SAFE] returns at most 180 code units, each of them a letter, a
    digit or one of [_.-()]: no space, no quote, no slash, no control
    character and nothing outside ASCII.  A text of this kind and length
    is returned as it is, so [SAFE] applied twice is [SAFE]. *)
Theorem X8_SAFE_names (s : jsstring) :
  forallb is_name (Beta.SAFE s) = true
  /\ length (Beta.SAFE s) <= 180
  /\ (forallb is_name s = true -> length s <= 180 -> Beta.SAFE s = s)
  /\ Beta.SAFE (Beta.SAFE s) = Beta.SAFE s.
Proof.
  split; [apply SAFE_charset|]. split; [apply SAFE_short|]. split; [apply SAFE_id|].
  apply SAFE_id; [apply SAFE_charset|apply SAFE_short].
Qed.

Lemma X8_SAFE_names_witness :
  forallb is_name (lit "report_(1)") = true
  /\ Beta.SAFE (lit "report_(1)") = lit "report_(1)".
Proof.
  split; [reflexivity|].
  apply (proj1 (proj2 (proj2 (X8_SAFE_names (lit "report_(1)"))))); [reflexivity|].
  cbn. lia.
Defined.

(** *** [EXT] and [BASENAME] *)

Lemma split_on_nonempty sep s : split_on sep s <> [].
Proof. destruct s as [|c r]; cbn [split_on]; [discriminate|]. destruct (c =? sep)%N; [discriminate|]. destruct (split_on sep r); discriminate. Qed.

Lemma split_on_none sep s :
  forallb (fun c => negb (c =? sep)%N) s = true -> split_on sep s = [s].
Proof.
  induction s as [|c r IH]; [reflexivity|]. cbn [forallb split_on].
  intros [Hc Hr]%andb_true_iff. apply negb_true_iff in Hc. rewrite Hc, IH by assumption.
  reflexivity.
Qed.

Lemma split_on_two sep r b : length (split_on sep (r ++ sep :: b)) >= 2.
Proof.
  induction r as [|c r IH]; cbn [app split_on].
  - rewrite N.eqb_refl. cbn [length]. pose proof (split_on_nonempty sep b).
    destruct (split_on sep b); [congruence|]. cbn [length]. lia.
  - destruct (c =? sep)%N; [cbn [length]; lia|].
    destruct (split_on sep (r ++ sep :: b)) as [|x [|y xs]]; cbn [length] in *; lia.
Qed.

Lemma last_split_on sep a b :
  forallb (fun c => negb (c =? sep)%N) b = true ->
  last (split_on sep (a ++ sep :: b)) = Some b.
Proof.
  intros Hb. induction a as [|c r IH]; cbn [app split_on].
  - rewrite N.eqb_refl, split_on_none by assumption. reflexivity.
  - destruct (c =? sep)%N.
    + destruct (split_on sep (r ++ sep :: b)) eqn:E; [discriminate|]. exact IH.
    + destruct (split_on sep (r ++ sep :: b)) as [|x xs] eqn:E; [discriminate|].
      destruct xs; [|exact IH]. cbn in IH. injection IH as ->.
      exfalso. clear -E Hb.
      pose proof (split_on_two sep r b) as H.
      rewrite E in H. cbn in H. lia.
Qed.

Lemma or_else_some x d : or_else (Some x) d = match x with [] => d | _ => x end.
Proof. destruct x; reflexivity. Qed.

Lemma EXT_dot toLowerCase stem e :
  forallb no_dot e = true -> Beta.EXT toLowerCase (stem ++ DOT :: e) = toLowerCase e.
Proof.
  intros H. unfold Beta.EXT. rewrite last_split_on by exact H. now destruct e.
Qed.

Lemma EXT_plain toLowerCase name :
  forallb no_dot name = true -> Beta.EXT toLowerCase name = toLowerCase name.
Proof.
  intros H. unfold Beta.EXT. rewrite split_on_none by exact H. now destruct name.
Qed.

Lemma m_extension_inside c r e :
  Beta.m_extension (c :: r ++ DOT :: e) = None.
Proof.
  unfold Beta.m_extension. destruct (c =? DOT)%N; [|reflexivity]. cbn [andb].
  assert (H : forallb (fun d => negb ((d =? 47)%N || (d =? DOT)%N)) (r ++ DOT :: e) = false).
  { rewrite forallb_app. cbn [forallb]. rewrite N.eqb_refl, orb_true_r. cbn [negb andb].
    apply andb_false_r. }
  rewrite H. now rewrite andb_false_r.
Qed.

Lemma BASENAME_dot stem e :
  e <> [] -> forallb no_dot_slash e = true -> Beta.BASENAME (stem ++ DOT :: e) = stem.
Proof.
  intros He H. unfold Beta.BASENAME. induction stem as [|c r IH].
  - cbn [app replace_first]. unfold Beta.m_extension. rewrite N.eqb_refl.
    fold no_dot_slash. rewrite H. destruct e; [congruence|]. cbn [is_empty negb andb app].
    apply drop_all.
  - cbn [app replace_first]. rewrite m_extension_inside. now rewrite IH.
Qed.

Lemma BASENAME_plain name : forallb no_dot name = true -> Beta.BASENAME name = name.
Proof.
  unfold Beta.BASENAME. induction name as [|c r IH]; [reflexivity|]. cbn [forallb].
  intros [Hc Hr]%andb_true_iff. cbn [replace_first]. unfold Beta.m_extension at 1.
  unfold no_dot in Hc. apply negb_true_iff in Hc. rewrite Hc. cbn [andb]. now rewrite IH.
Qed.

(** X9.  For a name [stem.e] whose last part [e] is not empty and has
    neither dot nor slash, [EXT] is [toLowerCase] of [e] and [BASENAME]
    is [stem].  For a name without dot, [EXT] is [toLowerCase] of the
    whole name and [BASENAME] is the name: a file named [pdf] counts as
    a PDF.  When [toLowerCase] folds A-Z in a text of ASCII code units
    and leaves the rest of it, [EXT] of [stem.e] for such an [e] without
    dot is [e] with A-Z folded. *)
Theorem X9_EXT_and_BASENAME (toLowerCase : jsstring -> jsstring) (stem e : jsstring) :
  (e <> [] -> forallb no_dot_slash e = true ->
     Beta.EXT toLowerCase (stem ++ DOT :: e) = toLowerCase e
     /\ Beta.BASENAME (stem ++ DOT :: e) = stem)
  /\ (forallb no_dot e = true ->
      Beta.EXT toLowerCase e = toLowerCase e /\ Beta.BASENAME e = e)
  /\ (folds_ascii toLowerCase -> forallb is_ascii e = true -> forallb no_dot e = true ->
      Beta.EXT toLowerCase (stem ++ DOT :: e) = map lower e).
Proof.
  split; [|split].
  - intros He H. split; [|now apply BASENAME_dot]. apply EXT_dot. revert H.
    apply forallb_impl. intros c Hc. unfold no_dot_slash in Hc. unfold no_dot.
    destruct (c =? DOT)%N; [now rewrite orb_true_r in Hc|reflexivity].
  - intros H. split; [now apply EXT_plain|now apply BASENAME_plain].
  - intros Hf Ha H. rewrite EXT_dot by exact H. now apply Hf.
Qed.

Lemma X9_EXT_and_BASENAME_witness :
  forallb no_dot_slash (lit "PDF") = true
  /\ Beta.EXT sample_toLowerCase (lit "my.report" ++ DOT :: lit "PDF") = lit "pdf"
  /\ Beta.BASENAME (lit "my.report" ++ DOT :: lit "PDF") = lit "my.report".
Proof.
  split; [reflexivity|].
  apply (proj1 (X9_EXT_and_BASENAME sample_toLowerCase (lit "my.report") (lit "PDF")));
    [discriminate|reflexivity].
Defined.


(** *** The text of a DOCX, as the beta extracts it *)

Lemma replace_from_keeps (q : N -> bool) (m : matcher) :
  (forall s n rep, m s = Some (n, rep) -> forallb q rep = true) ->
  forall s k, forallb q s = true -> forallb q (replace_from m k s) = true.
Proof.
  intros Hm. induction s as [|c r IH]; intros k H; [reflexivity|].
  cbn [forallb] in H. apply andb_true_iff in H as [Hc Hr]. cbn [replace_from].
  destruct k as [|k]; [|now apply IH].
  destruct (m (c :: r)) as [[[|n] rep]|] eqn:E.
  - cbn [forallb]. rewrite Hc. now apply IH.
  - rewrite forallb_app, (Hm _ _ _ E). now apply IH.
  - cbn [forallb]. rewrite Hc. now apply IH.
Qed.

Lemma replace_lit_keeps (q : N -> bool) pat rep s :
  forallb q rep = true -> forallb q s = true ->
  forallb q (replace_all (m_lit pat rep) s) = true.
Proof.
  intros Hrep. apply replace_from_keeps. intros t n r. unfold m_lit.
  destruct (starts_with pat t); [|discriminate]. now intros [= _ <-].
Qed.

Lemma decode_entities_keeps (q : N -> bool) t :
  q LT = true -> q GT = true -> q 38%N = true -> q DQ = true -> q 39%N = true ->
  forallb q t = true -> forallb q (Beta.decode_entities t) = true.
Proof.
  intros H1 H2 H3 H4 H5 H. unfold Beta.decode_entities.
  repeat (apply replace_lit_keeps; [cbn [forallb]; rewrite ?H1, ?H2, ?H3, ?H4, ?H5; reflexivity|]).
  exact H.
Qed.

Lemma matches_from_forall {A} (P : A -> Prop) (m : jsstring -> option (nat * A)) :
  (forall s n a, m s = Some (n, a) -> P a) ->
  forall s k, Forall P (matches_from m k s).
Proof.
  intros Hm. induction s as [|c r IH]; intros k; [constructor|]. cbn [matches_from].
  destruct k as [|k]; [|apply IH].
  destruct (m (c :: r)) as [[[|n] a]|] eqn:E; try apply IH.
  constructor; [now apply (Hm _ _ _ E)|apply IH].
Qed.

Lemma m_wt_line_group s n a : Beta.m_wt_line s = Some (n, a) -> one_line a = true.
Proof.
  unfold Beta.m_wt_line. destruct (starts_with (lit "<w:t") s); [|discriminate].
  cbv zeta. destruct (drop _ (drop 4 s)) as [|x body]; [discriminate|].
  destruct (index_of (lit "</w:t>") body) as [j|]; [|discriminate].
  destruct (forallb _ (take j body)) eqn:E; [|discriminate]. now intros [= _ <-].
Qed.

Lemma forallb_join (q : N -> bool) sep parts :
  forallb q sep = true -> Forall (fun p => forallb q p = true) parts ->
  forallb q (join sep parts) = true.
Proof.
  intros Hs. induction 1 as [|p ps Hp _ IH]; [reflexivity|]. cbn [join].
  destruct ps as [|p' ps]; [exact Hp|]. now rewrite !forallb_app, Hp, Hs, IH.
Qed.

(** A text without "&" has nothing to decode. *)
Lemma replace_lit_none pat rep c s :
  starts_with [c] pat = true -> forallb (fun d => negb (d =? c)%N) s = true ->
  replace_all (m_lit pat rep) s = s.
Proof.
  intros Hp. unfold replace_all. induction s as [|d r IH]; [reflexivity|].
  cbn [forallb]. intros [Hd Hr]%andb_true_iff. cbn [replace_from].
  assert (E : m_lit pat rep (d :: r) = None).
  { unfold m_lit. destruct pat as [|a pat]; [discriminate|]. cbn [starts_with] in Hp |- *.
    apply andb_true_iff in Hp as [Hp _]. apply N.eqb_eq in Hp. subst a.
    apply negb_true_iff in Hd. rewrite N.eqb_sym, Hd. reflexivity. }
  rewrite E. f_equal. now apply IH.
Qed.

Lemma decode_entities_plain t :
  forallb (fun d => negb (d =? 38)%N) t = true -> Beta.decode_entities t = t.
Proof.
  intros H. unfold Beta.decode_entities.
  rewrite (replace_lit_none (lit "&lt;") _ 38%N t) by (reflexivity || exact H).
  rewrite (replace_lit_none (lit "&gt;") _ 38%N t) by (reflexivity || exact H).
  rewrite (replace_lit_none (lit "&amp;") _ 38%N t) by (reflexivity || exact H).
  rewrite (replace_lit_none (lit "&quot;") _ 38%N t) by (reflexivity || exact H).
  now rewrite (replace_lit_none (lit "&apos;") _ 38%N t) by (reflexivity || exact H).
Qed.

(** X10.  The text that [extractTextFromDOCX] of the beta returns has no
    line terminator: the newline that replaces each [</w:p>] lies
    outside the runs and never reaches the text.  The extraction fails
    only when the buffer is not an archive, and gives the empty text when
    the archive has no word/document.xml.  The decoding of the entities
    leaves a text without "&" as it is. *)
Theorem X10_beta_text_is_one_line (buffer : file_data) :
  (forall text, Beta.extractTextFromDOCX buffer = Some text -> one_line text = true)
  /\ (Beta.extractTextFromDOCX buffer = None <-> load_zip buffer = None)
  /\ (forall zip, load_zip buffer = Some zip -> zip !! Beta.docPath = None ->
        Beta.extractTextFromDOCX buffer = Some [])
  /\ (forall t, forallb (fun d => negb (d =? 38)%N) t = true -> Beta.decode_entities t = t).
Proof.
  unfold Beta.extractTextFromDOCX. split; [|split; [|split]].
  - intros text. destruct (load_zip buffer) as [zip|]; [|discriminate].
    cbn [mbind option_bind]. destruct (zip !! Beta.docPath) as [xml|].
    2:{ now intros [= <-]. }
    intros [= <-]. apply forallb_join; [reflexivity|].
    apply Forall_map.
    eapply Forall_impl;
      [apply (matches_from_forall (fun a => one_line a = true)); exact m_wt_line_group|].
    intros a Ha. cbv beta. now apply decode_entities_keeps.
  - destruct (load_zip buffer) as [zip|]; cbn [mbind option_bind]; [|tauto].
    destruct (zip !! Beta.docPath); split; discriminate.
  - intros zip -> H. cbn [mbind option_bind]. now rewrite H.
  - exact decode_entities_plain.
Qed.

Lemma X10_beta_text_is_one_line_witness :
  exists text,
    Beta.extractTextFromDOCX
      (ZipBytes {[ Beta.docPath := lit "<w:p><w:t>a</w:t></w:p><w:p><w:t>b</w:t></w:p>" ]})
    = Some text
    /\ text = lit "a b"
    /\ one_line text = true.
Proof.
  eexists. split; [vm_compute; reflexivity|]. split; [reflexivity|].
  apply (proj1 (X10_beta_text_is_one_line
    (ZipBytes {[ Beta.docPath := lit "<w:p><w:t>a</w:t></w:p><w:p><w:t>b</w:t></w:p>" ]}))).
  vm_compute. reflexivity.
Defined.

(** *** The handlers of the beta *)

Lemma lower_letter c :
  (97 <= lower c <= 122)%N -> no_dot_slash c = true /\ no_dot c = true.
Proof.
  unfold lower, no_dot_slash, no_dot, DOT. intros H.
  destruct ((65 <=? c)%N && (c <=? 90)%N) eqn:E; bools;
    destruct (N.eqb_spec c 47); destruct (N.eqb_spec c 46); try lia; split; reflexivity.
Qed.

Lemma lower_letters e x :
  map lower e = x -> forallb (fun y => (97 <=? y)%N && (y <=? 122)%N) x = true ->
  forallb no_dot_slash e = true /\ forallb no_dot e = true.
Proof.
  intros <-. induction e as [|c r IH]; [split; reflexivity|]. cbn [map forallb].
  intros [Hc Hr]%andb_true_iff. apply andb_true_iff in Hc as [H1 H2].
  apply N.leb_le in H1, H2. destruct (lower_letter c) as [-> ->]; [lia|].
  destruct (IH Hr) as [-> ->]. split; reflexivity.
Qed.

Lemma lower_ascii e x :
  map lower e = x -> forallb (fun y => (97 <=? y)%N && (y <=? 122)%N) x = true ->
  forallb is_ascii e = true.
Proof.
  intros <-. induction e as [|c r IH]; [reflexivity|]. cbn [map forallb].
  intros [Hc Hr]%andb_true_iff. rewrite (IH Hr), andb_true_r.
  apply andb_true_iff in Hc as [H1 H2]. apply N.leb_le in H1, H2.
  unfold is_ascii. apply N.ltb_lt. unfold lower in H1, H2.
  destruct ((65 <=? c)%N && (c <=? 90)%N); lia.
Qed.

Lemma beta_names toLowerCase stem e x :
  folds_ascii toLowerCase ->
  map lower e = x -> x <> [] ->
  forallb (fun y => (97 <=? y)%N && (y <=? 122)%N) x = true ->
  Beta.EXT toLowerCase (stem ++ DOT :: e) = x /\ Beta.BASENAME (stem ++ DOT :: e) = stem.
Proof.
  intros Hf He Hx Hl. destruct (lower_letters e x He Hl) as [H1 H2].
  rewrite EXT_dot by exact H2. rewrite (Hf e (lower_ascii e x He Hl)).
  rewrite BASENAME_dot; [auto|now destruct e; subst x|exact H1].
Qed.

(** X11.  POST /clean of the beta, for an upload named [stem.e] with [e]
    equal to pdf or docx in any mix of cases and a buffer that the
    cleaner accepts: the answer is the cleaned document, with the type
    application/octet-stream and the file name [SAFE(stem)] followed by
    [_cleaned.pdf] or [_cleaned.docx].  Of [toLowerCase] it is used that
    it folds A-Z in a text of ASCII code units and leaves the rest of
    it. *)
Theorem X11_beta_clean_upload_named (clock : nat -> Z) (toLowerCase : jsstring -> jsstring)
    (req : Server.request) (f : Server.upload) (stem e : jsstring) :
  folds_ascii toLowerCase ->
  Server.req_file req = Some f -> Server.originalname f = stem ++ DOT :: e ->
  (map lower e = lit "pdf" ->
   forall out, Beta.cleanPDF clock (Server.content f) = Some out ->
     Beta.clean clock toLowerCase req
     = SentFile (lit "application/octet-stream")
         (attachment (Beta.SAFE stem ++ lit "_cleaned.pdf")) out)
  /\ (map lower e = lit "docx" ->
      forall out, Beta.cleanDOCX (Server.content f) = Some out ->
        Beta.clean clock toLowerCase req
        = SentFile (lit "application/octet-stream")
            (attachment (Beta.SAFE stem ++ lit "_cleaned.docx")) out).
Proof.
  intros Hl Hf Hn. unfold Beta.clean. rewrite Hf, Hn. cbv zeta. split; intros He out Ho.
  - destruct (beta_names toLowerCase stem e _ Hl He) as [-> ->]; [discriminate|reflexivity|].
    rewrite bool_decide_eq_true_2 by reflexivity. now rewrite Ho.
  - destruct (beta_names toLowerCase stem e _ Hl He) as [-> ->]; [discriminate|reflexivity|].
    rewrite bool_decide_eq_false_2 by discriminate.
    rewrite bool_decide_eq_true_2 by reflexivity. now rewrite Ho.
Qed.

Lemma X11_beta_clean_upload_named_witness :
  folds_ascii sample_toLowerCase
  /\ originalname docx_upload = lit "Notes" ++ DOT :: lit "DOCX"
  /\ map lower (lit "DOCX") = lit "docx"
  /\ Beta.clean sample_clock sample_toLowerCase docx_request
     = SentFile (lit "application/octet-stream")
         (attachment (Beta.SAFE (lit "Notes") ++ lit "_cleaned.docx"))
         (ZipBytes (Beta.clean_archive sample_docx)).
Proof.
  assert (H : folds_ascii sample_toLowerCase) by (intros s _; reflexivity).
  split; [exact H|]. split; [reflexivity|]. split; [reflexivity|].
  exact (proj2 (X11_beta_clean_upload_named sample_clock sample_toLowerCase docx_request
                  docx_upload (lit "Notes") (lit "DOCX") H eq_refl eq_refl) eq_refl _ eq_refl).
Defined.

Lemma safe_name_ok name suffix :
  forallb is_name suffix = true ->
  forallb is_name (Beta.SAFE name ++ suffix) = true
  /\ length (Beta.SAFE name ++ suffix) <= 180 + length suffix.
Proof.
  intros H. rewrite forallb_app, SAFE_charset, H, length_app.
  pose proof (SAFE_short name). split; [reflexivity|lia].
Qed.

Lemma SentFile_inj {B} m d (b : B) m' d' b' :
  SentFile m d b = SentFile m' d' b' -> m = m' /\ d = d' /\ b = b'.
Proof. intros H. now injection H. Qed.

(** X12.  Whenever a handler of the beta sends a file, the name in its
    Content-Disposition header has only letters, digits and [_.-()] and
    at most 193 code units, whatever the upload was called: the name
    cannot end the quoted string or add a header line.  The same holds
    of the name of the cleaned document inside the bundle of POST
    /clean-v2. *)
Theorem X12_beta_disposition_is_safe (cfg : Beta.config) (clock : nat -> Z)
    (pdfParse : option (file_data -> option jsstring)) (stringify : Beta.json -> jsstring)
    (toLowerCase : jsstring -> jsstring) (svc : service Beta.json) (req : Server.request) :
  (forall mime disp body, Beta.clean clock toLowerCase req = SentFile mime disp body ->
     exists name, disp = attachment name
       /\ forallb is_name name = true /\ length name <= 193)
  /\ (forall mime disp zip log,
        Beta.clean_v2 cfg clock pdfParse stringify toLowerCase svc req = (SentFile mime disp zip, log) ->
        (exists name, disp = attachment name
           /\ forallb is_name name = true /\ length name <= 193)
        /\ forallb is_name (Beta.cleanedName zip) = true
        /\ length (Beta.cleanedName zip) <= 193).
Proof.
  split.
  - intros mime disp body. unfold Beta.clean.
    destruct (Server.req_file req) as [f|]; [|discriminate]. cbv zeta.
    destruct (bool_decide_reflect (Beta.EXT toLowerCase (Server.originalname f) = lit "pdf")) as [->|_].
    { destruct (Beta.cleanPDF clock (Server.content f)); [|discriminate].
      intros (_ & <- & _)%SentFile_inj. eexists. split; [reflexivity|].
      destruct (safe_name_ok (Beta.BASENAME (Server.originalname f))
                  (lit "_cleaned." ++ lit "pdf")) as [H1 H2]; [reflexivity|].
      split; [exact H1|]. change (length (lit "_cleaned." ++ lit "pdf")) with 12 in H2. lia. }
    destruct (bool_decide_reflect (Beta.EXT toLowerCase (Server.originalname f) = lit "docx")) as [->|_];
      [|discriminate].
    destruct (Beta.cleanDOCX (Server.content f)); [|discriminate].
    intros (_ & <- & _)%SentFile_inj. eexists. split; [reflexivity|].
    destruct (safe_name_ok (Beta.BASENAME (Server.originalname f))
                (lit "_cleaned." ++ lit "docx")) as [H1 H2]; [reflexivity|].
    split; [exact H1|]. change (length (lit "_cleaned." ++ lit "docx")) with 13 in H2. lia.
  - intros mime disp zip log. unfold Beta.clean_v2.
    destruct (Server.req_file req) as [f|]; [|discriminate]. cbv zeta.
    assert (Hz : forall ext prepared,
      ext = lit "pdf" \/ ext = lit "docx" ->
      match prepared with
      | Some (cleaned, text) =>
          match Beta.languageToolCheck cfg text
                  (or_else (Server.lt_language req) (lit "auto")) svc [] with
          | (Some ltResult, log) =>
              (SentFile (lit "application/zip")
                 (attachment (Beta.SAFE (Beta.BASENAME (Server.originalname f))
                              ++ lit "_bundle.zip"))
                 {| Beta.cleanedName :=
                      Beta.SAFE (Beta.BASENAME (Server.originalname f))
                      ++ lit "_cleaned." ++ ext;
                    Beta.cleaned := cleaned;
                    Beta.report_json := stringify ltResult;
                    Beta.report_page := Beta.report_html stringify ltResult |}, log)
          | (None, log) => (SentJson 500 (lit "Processing failed"), log)
          end
      | None => (SentJson 500 (lit "Processing failed"), [])
      end = (SentFile mime disp zip, log) ->
      (exists name, disp = attachment name
         /\ forallb is_name name = true /\ length name <= 193)
      /\ forallb is_name (Beta.cleanedName zip) = true
      /\ length (Beta.cleanedName zip) <= 193).
    { intros ext prepared Hext. destruct prepared as [[cleaned text]|]; [|discriminate].
      destruct (Beta.languageToolCheck _ _ _ _ _) as [[r|] lg]; [|discriminate].
      intros [(_ & <- & <-)%SentFile_inj _]%pair_equal_spec. cbn [Beta.cleanedName]. split.
      - eexists. split; [reflexivity|].
        destruct (safe_name_ok (Beta.BASENAME (Server.originalname f)) (lit "_bundle.zip"))
          as [H1 H2]; [reflexivity|]. split; [exact H1|].
        change (length (lit "_bundle.zip")) with 11 in H2. lia.
      - destruct Hext as [-> | ->].
        + destruct (safe_name_ok (Beta.BASENAME (Server.originalname f))
                      (lit "_cleaned." ++ lit "pdf")) as [H1 H2]; [reflexivity|].
          split; [exact H1|].
          change (length (lit "_cleaned." ++ lit "pdf")) with 12 in H2. lia.
        + destruct (safe_name_ok (Beta.BASENAME (Server.originalname f))
                      (lit "_cleaned." ++ lit "docx")) as [H1 H2]; [reflexivity|].
          split; [exact H1|].
          change (length (lit "_cleaned." ++ lit "docx")) with 13 in H2. lia. }
    destruct (bool_decide_reflect (Beta.EXT toLowerCase (Server.originalname f) = lit "pdf")) as [->|_].
    { apply Hz. now left. }
    destruct (bool_decide_reflect (Beta.EXT toLowerCase (Server.originalname f) = lit "docx")) as [->|_];
      [|discriminate].
    apply Hz. now right.
Qed.

Lemma X12_beta_disposition_is_safe_witness :
  exists name,
    Beta.clean sample_clock sample_toLowerCase docx_request
    = SentFile (lit "application/octet-stream") (attachment name)
        (ZipBytes (Beta.clean_archive sample_docx))
    /\ forallb is_name name = true /\ length name <= 193.
Proof.
  destruct (proj1 (X12_beta_disposition_is_safe sample_beta_cfg sample_clock None sample_stringify
                     sample_toLowerCase beta_service_quiet docx_request)
              (lit "application/octet-stream")
              (attachment (lit "Notes_cleaned.docx"))
              (ZipBytes (Beta.clean_archive sample_docx))) as (name & He & Hn & Hl).
  { vm_compute. reflexivity. }
  exists name. split; [|split; assumption]. rewrite <- He. vm_compute. reflexivity.
Defined.

Lemma languageToolCheck_answered cfg text lang (svc : service Beta.json) :
  (forall log q, svc log q <> None) ->
  exists r log, Beta.languageToolCheck cfg text lang svc [] = (Some r, log) /\ length log <= 1.
Proof.
  intros H. unfold Beta.languageToolCheck. destruct (blank text).
  - eexists _, _. split; [reflexivity|]. cbn. lia.
  - unfold post. destruct (svc [] _) as [r|] eqn:E; [|now apply H in E].
    eexists _, _. split; [reflexivity|]. cbn. lia.
Qed.

Lemma cleanDOCX_extract b out :
  Beta.cleanDOCX b = Some out -> exists text, Beta.extractTextFromDOCX b = Some text.
Proof.
  unfold Beta.cleanDOCX, Beta.extractTextFromDOCX.
  destruct (load_zip b) as [zip|]; [|discriminate]. intros _. cbn [mbind option_bind].
  destruct (zip !! Beta.docPath); eauto.
Qed.

(** X13.  POST /clean and POST /clean-v2 of the beta on the same request
    and clock.  They reject the same requests with the same 400 answer,
    and /clean-v2 then sends no request to the checking service.  When
    /clean sends a document and the service answers, /clean-v2 sends a
    bundle that holds this document under the name that /clean gave it,
    after at most one request to the service.  When /clean answers 500,
    so does /clean-v2, without a request to the service. *)
Theorem X13_beta_clean_v2_same_document (cfg : Beta.config) (clock : nat -> Z)
    (pdfParse : option (file_data -> option jsstring)) (stringify : Beta.json -> jsstring)
    (toLowerCase : jsstring -> jsstring) (svc : service Beta.json) (req : Server.request) :
  (forall e, Beta.clean clock toLowerCase req = SentJson 400 e
             <-> Beta.clean_v2 cfg clock pdfParse stringify toLowerCase svc req = (SentJson 400 e, []))
  /\ (forall mime disp body,
        Beta.clean clock toLowerCase req = SentFile mime disp body ->
        (forall log q, svc log q <> None) ->
        exists disp' zip log,
          Beta.clean_v2 cfg clock pdfParse stringify toLowerCase svc req
            = (SentFile (lit "application/zip") disp' zip, log)
          /\ Beta.cleaned zip = body
          /\ disp = attachment (Beta.cleanedName zip)
          /\ length log <= 1)
  /\ (forall e, Beta.clean clock toLowerCase req = SentJson 500 e ->
        Beta.clean_v2 cfg clock pdfParse stringify toLowerCase svc req = (SentJson 500 e, [])).
Proof.
  unfold Beta.clean, Beta.clean_v2.
  destruct (Server.req_file req) as [f|]; cbv zeta.
  2:{ split; [|split]; [intros e; split; intros [= <-]; reflexivity|discriminate|discriminate]. }
  destruct (bool_decide (Beta.EXT toLowerCase (Server.originalname f) = lit "pdf")).
  { destruct (Beta.cleanPDF clock (Server.content f)) as [out|]; cbn [mbind option_bind].
    2:{ split; [|split]; [intros e; split; discriminate|discriminate|].
        now intros e [= <-]. }
    split; [|split]; [| |discriminate].
    - intros e; split; [discriminate|].
      destruct (Beta.languageToolCheck _ _ _ _ _) as [[r|] lg]; discriminate.
    - intros mime disp body (_ & <- & <-)%SentFile_inj Hsvc.
      destruct (languageToolCheck_answered cfg
                  (Beta.extractTextFromPDF pdfParse (Server.content f))
                  (or_else (Server.lt_language req) (lit "auto")) svc Hsvc)
        as (r & lg & -> & Hl).
      eexists _, _, _. split; [reflexivity|]. cbn [Beta.cleaned Beta.cleanedName]. auto. }
  destruct (bool_decide (Beta.EXT toLowerCase (Server.originalname f) = lit "docx")).
  2:{ split; [|split]; [intros e; split; intros [= <-]; reflexivity|discriminate|discriminate]. }
  destruct (Beta.cleanDOCX (Server.content f)) as [out|] eqn:Ec; cbn [mbind option_bind].
  2:{ split; [|split]; [intros e; split; discriminate|discriminate|].
      now intros e [= <-]. }
  destruct (cleanDOCX_extract _ _ Ec) as [text ->]. cbn [mbind option_bind].
  split; [|split]; [| |discriminate].
  - intros e; split; [discriminate|].
    destruct (Beta.languageToolCheck _ _ _ _ _) as [[r|] lg]; discriminate.
  - intros mime disp body (_ & <- & <-)%SentFile_inj Hsvc.
    destruct (languageToolCheck_answered cfg text
                (or_else (Server.lt_language req) (lit "auto")) svc Hsvc)
      as (r & lg & -> & Hl).
    eexists _, _, _. split; [reflexivity|]. cbn [Beta.cleaned Beta.cleanedName]. auto.
Qed.

Lemma X13_beta_clean_v2_same_document_witness :
  (forall log q, beta_service_quiet log q <> None)
  /\ exists disp disp' zip log,
       Beta.clean sample_clock sample_toLowerCase docx_request
       = SentFile (lit "application/octet-stream") disp (Beta.cleaned zip)
       /\ Beta.clean_v2 sample_beta_cfg sample_clock None sample_stringify
            sample_toLowerCase beta_service_quiet docx_request
          = (SentFile (lit "application/zip") disp' zip, log).
Proof.
  assert (H : forall log q, beta_service_quiet log q <> None) by (intros ? ?; discriminate).
  split; [exact H|].
  destruct (proj1 (proj2 (X13_beta_clean_v2_same_document sample_beta_cfg sample_clock None
                            sample_stringify sample_toLowerCase beta_service_quiet
                            docx_request))
              (lit "application/octet-stream") (attachment (lit "Notes_cleaned.docx"))
              (ZipBytes (Beta.clean_archive sample_docx)))
    as (disp' & zip & log & E & Hb & _).
  { vm_compute. reflexivity. }
  { exact H. }
  exists (attachment (lit "Notes_cleaned.docx")), disp', zip, log.
  split; [|exact E]. rewrite Hb. vm_compute. reflexivity.
Defined.

(** *** The document text of the beta *)

Lemma pairs_cons ok a s :
  pairs ok (a :: s) = match s with b :: _ => ok a b | [] => true end && pairs ok s.
Proof. reflexivity. Qed.

Lemma pairs_tail ok a s : pairs ok (a :: s) = true -> pairs ok s = true.
Proof. rewrite pairs_cons. now intros [_ H]%andb_true_iff. Qed.

Lemma pairs_drop_while ok p s : pairs ok s = true -> pairs ok (drop_while p s) = true.
Proof.
  induction s as [|c r IH]; [auto|]. cbn [drop_while]. intros H.
  destruct (p c); [apply IH; now apply pairs_tail in H|exact H].
Qed.

(** *** One space for every run of white space *)

Lemma replace_run_head p rep c r :
  p c = false -> replace_all (m_run p rep) (c :: r) = c :: replace_all (m_run p rep) r.
Proof. intros H. now rewrite replace_run_cons, H. Qed.

Lemma ws_run_spaces_only s : spaces_only (replace_all Beta.m_ws_run s) = true.
Proof.
  change Beta.m_ws_run with (m_run is_ws [SP]).
  induction s as [s IH] using shorter_ind. destruct s as [|c r]; [reflexivity|].
  rewrite replace_run_cons. unfold spaces_only in *. destruct (is_ws c) eqn:E.
  - cbn [app forallb]. apply IH. pose proof (length_drop_while is_ws r). cbn [length]. lia.
  - cbn [forallb]. rewrite E. apply IH. cbn [length]. lia.
Qed.

Lemma ws_run_single s :
  no_space_before is_sp (replace_all Beta.m_ws_run s) = true.
Proof.
  change Beta.m_ws_run with (m_run is_ws [SP]). unfold no_space_before.
  induction s as [s IH] using shorter_ind. destruct s as [|c r]; [reflexivity|].
  rewrite replace_run_cons. destruct (is_ws c) eqn:E.
  - cbn [app]. rewrite pairs_cons.
    assert (Hl : length (drop_while is_ws r) < length (c :: r)).
    { pose proof (length_drop_while is_ws r). cbn [length]. lia. }
    rewrite (IH _ Hl), andb_true_r.
    destruct (drop_while is_ws r) as [|d r'] eqn:Ed; [reflexivity|].
    apply drop_while_head in Ed. rewrite replace_run_head by exact Ed.
    assert (Hd : is_sp d = false).
    { unfold is_sp. destruct (N.eqb_spec d SP) as [->|]; [discriminate|reflexivity]. }
    rewrite Hd. reflexivity.
  - rewrite pairs_cons, IH by (cbn [length]; lia). rewrite andb_true_r.
    assert (Hc : is_sp c = false).
    { unfold is_sp. destruct (N.eqb_spec c SP) as [->|]; [discriminate|reflexivity]. }
    rewrite Hc. now destruct (replace_all _ r).
Qed.

Lemma ws_run_id s :
  spaces_only s = true -> no_space_before is_sp s = true -> replace_all Beta.m_ws_run s = s.
Proof.
  change Beta.m_ws_run with (m_run is_ws [SP]). unfold spaces_only, no_space_before.
  induction s as [|c r IH]; [reflexivity|]. cbn [forallb]. rewrite pairs_cons.
  intros [Hc Hr]%andb_true_iff [Hp Hq]%andb_true_iff.
  rewrite replace_run_cons. destruct (is_ws c) eqn:E.
  - cbn [negb orb] in Hc. unfold is_sp in Hc. apply N.eqb_eq in Hc. subst c.
    cbn [app]. f_equal. destruct r as [|d r']; [reflexivity|].
    change (is_sp SP) with true in Hp. cbn [andb] in Hp. apply negb_true_iff in Hp.
    pose proof Hr as Hd. cbn [forallb] in Hd. apply andb_true_iff in Hd as [Hd _].
    rewrite Hp, orb_false_r in Hd.
    apply negb_true_iff in Hd. cbn [drop_while]. rewrite Hd. now apply IH.
  - f_equal. now apply IH.
Qed.

(** *** No space before one code unit *)

Lemma space_before_cons c a r :
  replace_all (Beta.m_space_before c) (a :: r) =
  match r with
  | b :: r' =>
      if is_sp a && (b =? c)%N then c :: replace_all (Beta.m_space_before c) r'
      else a :: replace_all (Beta.m_space_before c) r
  | [] => [a]
  end.
Proof.
  rewrite replace_all_cons. unfold Beta.m_space_before at 1.
  destruct r as [|b r']; [reflexivity|]. destruct (is_sp a && (b =? c)%N); reflexivity.
Qed.

Lemma space_before_head c a r :
  is_sp a = false ->
  replace_all (Beta.m_space_before c) (a :: r) = a :: replace_all (Beta.m_space_before c) r.
Proof. intros H. rewrite space_before_cons, H. now destruct r. Qed.

Lemma space_before_spaces_only c s :
  is_ws c = false -> spaces_only s = true ->
  spaces_only (replace_all (Beta.m_space_before c) s) = true.
Proof.
  intros Hc. unfold spaces_only, replace_all. apply replace_from_keeps.
  intros t n rep. unfold Beta.m_space_before. destruct t as [|a [|b t]]; try discriminate.
  destruct (is_sp a && (b =? c)%N); [|discriminate]. intros [= _ <-]. cbn [forallb].
  now rewrite Hc.
Qed.

(** Removing the space before [c] keeps what the text had of this kind
    and adds [c] to the class. *)
Lemma space_before_shape c g s :
  is_sp c = false -> g SP = true ->
  no_space_before g s = true ->
  no_space_before (fun b => g b || (b =? c)%N) (replace_all (Beta.m_space_before c) s) = true.
Proof.
  intros Hc Hg. unfold no_space_before.
  induction s as [s IH] using shorter_ind. destruct s as [|a r]; [reflexivity|].
  intros H. rewrite pairs_cons in H. apply andb_true_iff in H as [Hp Hr].
  rewrite space_before_cons. destruct r as [|b r']; [reflexivity|].
  destruct (is_sp a && (b =? c)%N) eqn:E.
  - rewrite pairs_cons, Hc. cbn [andb negb].
    rewrite IH; [now destruct (replace_all _ r')|cbn [length]; lia|now apply pairs_tail in Hr].
  - rewrite pairs_cons, IH by (cbn [length]; lia || exact Hr). rewrite andb_true_r.
    destruct (is_sp a) eqn:Ea; [|now destruct (replace_all _ (b :: r'))].
    cbn [andb] in Hp, E. apply negb_true_iff in Hp.
    assert (Hb : is_sp b = false).
    { destruct (is_sp b) eqn:Eb; [|reflexivity]. unfold is_sp in Eb. apply N.eqb_eq in Eb.
      subst b. congruence. }
    rewrite space_before_head by exact Hb. now rewrite Hp, E.
Qed.

Lemma space_before_id c g s :
  (forall b, (b =? c)%N = true -> g b = true) ->
  no_space_before g s = true -> replace_all (Beta.m_space_before c) s = s.
Proof.
  intros Hg. unfold no_space_before. induction s as [|a r IH]; [reflexivity|].
  rewrite pairs_cons. intros [Hp Hr]%andb_true_iff. rewrite space_before_cons.
  destruct r as [|b r']; [reflexivity|].
  destruct (is_sp a && (b =? c)%N) eqn:E; [|f_equal; now apply IH].
  apply andb_true_iff in E as [Ea Eb]. rewrite Ea, (Hg b Eb) in Hp. discriminate.
Qed.

Lemma no_space_before_ext g g' s :
  (forall b, g' b = true -> g b = true) ->
  no_space_before g s = true -> no_space_before g' s = true.
Proof.
  intros Hg. unfold no_space_before. induction s as [|a r IH]; [reflexivity|].
  rewrite !pairs_cons. intros [Hp Hr]%andb_true_iff. rewrite IH by exact Hr.
  rewrite andb_true_r. destruct r as [|b r']; [reflexivity|].
  destruct (is_sp a); [|reflexivity]. cbn [andb] in *. apply negb_true_iff in Hp.
  destruct (g' b) eqn:E; [|reflexivity]. apply Hg in E. congruence.
Qed.

(** X14.  The text that [cleanDOCX] of the beta writes to
    word/document.xml, markup included: its only white space is the
    space (newlines and tabs are gone), there are no two spaces in a
    row, and no space stands before a comma, a dot, an exclamation mark
    or a question mark.  The rewriting is idempotent. *)
Theorem X14_beta_clean_xml_shape (xml : jsstring) :
  spaces_only (beta_clean_xml xml) = true
  /\ no_space_before (fun b => is_sp b || beta_punct b) (beta_clean_xml xml) = true
  /\ beta_clean_xml (beta_clean_xml xml) = beta_clean_xml xml.
Proof.
  assert (Hshape : forall x,
    spaces_only (beta_clean_xml x) = true
    /\ no_space_before (fun b => is_sp b || beta_punct b) (beta_clean_xml x) = true).
  { intros x. unfold beta_clean_xml. split.
    - repeat (apply space_before_spaces_only; [reflexivity|]). apply ws_run_spaces_only.
    - pose proof (ws_run_single x) as H0.
      apply (space_before_shape 44) in H0; [|reflexivity|reflexivity].
      apply (space_before_shape DOT) in H0; [|reflexivity|reflexivity].
      apply (space_before_shape 33) in H0; [|reflexivity|reflexivity].
      apply (space_before_shape 63) in H0; [|reflexivity|reflexivity].
      revert H0. apply no_space_before_ext. intros b. unfold beta_punct.
      destruct (is_sp b), (b =? 44)%N, (b =? DOT)%N, (b =? 33)%N, (b =? 63)%N;
        cbn; congruence. }
  destruct (Hshape xml) as [H1 H2]. split; [exact H1|]. split; [exact H2|].
  set (y := beta_clean_xml xml) in *. unfold beta_clean_xml.
  rewrite ws_run_id; [|exact H1|].
  2:{ revert H2. apply no_space_before_ext. intros b ->. reflexivity. }
  assert (Hid : forall c, beta_punct c = true -> replace_all (Beta.m_space_before c) y = y).
  { intros c Hc. apply (space_before_id c (fun b => is_sp b || beta_punct b)); [|exact H2].
    intros b Hb. apply N.eqb_eq in Hb. subst b. rewrite Hc. apply orb_true_r. }
  now rewrite !Hid by reflexivity.
Qed.

(** *** The text that is checked, a PDF sanitised again *)

Lemma cleanTextBasic_fixed s : cleanTextBasic (cleanTextBasic s) = cleanTextBasic s.
Proof.
  rewrite !cleanTextBasic_pipeline. rewrite (pipeline_tokens s), pipeline_render.
  - now rewrite norm_idem.
  - apply norm_valid, tokens_valid, strip_zwsp_clean.
Qed.

(** X15.  The text that POST /clean-v2 of server.js hands to the
    checking service is normalised: [cleanTextBasic] leaves it as it is.
    It is extracted from the cleaned document, not from the upload: for
    a PDF by the text-layer extraction of the output of
    [processPDFBasic], for a DOCX by [extractTextFromDOCX] of the output
    of [processDOCXBasic]. *)
Theorem X15_checked_text_is_normalised (now : Z) (pdfParse : file_data -> option jsstring)
    (f : upload) (name : jsstring) (buf : file_data) (text : jsstring) :
  prepare now pdfParse f = Cleaned name buf text ->
  cleanTextBasic text = text
  /\ (ends_with_ci (lit ".pdf") (originalname f) = true ->
      processPDFBasic now (content f) = Some buf
      /\ text = extractTextFromPDF pdfParse buf)
  /\ (ends_with_ci (lit ".pdf") (originalname f) = false ->
      processDOCXBasic (content f) = Some buf
      /\ extractTextFromDOCX buf = Some text).
Proof.
  unfold prepare. cbv zeta.
  destruct (ends_with_ci (lit ".pdf") (originalname f)).
  - destruct (processPDFBasic now (content f)) as [out|]; [|discriminate].
    intros [= _ <- <-]. split; [|split; [auto|discriminate]].
    unfold extractTextFromPDF. destruct (pdfParse out); [apply cleanTextBasic_fixed|reflexivity].
  - destruct (ends_with_ci (lit ".docx") (originalname f)); [|discriminate].
    destruct (processDOCXBasic (content f)) as [out|]; [|discriminate].
    destruct (extractTextFromDOCX out) as [t|] eqn:E; [|discriminate].
    intros [= _ <- <-]. split; [|split; [discriminate|auto]].
    unfold extractTextFromDOCX in E. destruct (load_zip out) as [zip|]; [|discriminate].
    cbn [mbind option_bind] in E. destruct (zip !! docPath).
    + injection E as <-. apply cleanTextBasic_fixed.
    + injection E as <-. reflexivity.
Qed.

Lemma X15_checked_text_is_normalised_witness :
  prepare 0 sample_pdfParse sample_upload
  = Cleaned (lit "report_cleaned.pdf")
      (default (PdfBytes sample_pdf) (processPDFBasic 0 (PdfBytes sample_pdf)))
      (lit "Hello world")
  /\ cleanTextBasic (lit "Hello world") = lit "Hello world".
Proof.
  assert (H : prepare 0 sample_pdfParse sample_upload
    = Cleaned (lit "report_cleaned.pdf")
        (default (PdfBytes sample_pdf) (processPDFBasic 0 (PdfBytes sample_pdf)))
        (lit "Hello world")) by (vm_compute; reflexivity).
  split; [exact H|].
  exact (proj1 (X15_checked_text_is_normalised 0 sample_pdfParse sample_upload _ _ _ H)).
Defined.

(** X16.  The output of [processPDFBasic] does not depend on the clock,
    and sanitising it again, at any time, returns it unchanged. *)
Theorem X16_processPDFBasic_again (now now' : Z) (b out : file_data) :
  processPDFBasic now b = Some out ->
  processPDFBasic now' b = Some out /\ processPDFBasic now' out = Some out.
Proof.
  unfold processPDFBasic. destruct (load_pdf b) as [d|]; [|discriminate].
  cbn [mbind option_bind]. intros [= <-]. destruct d as [[|p ps] t a sj kw pr cr cd md rest];
    split; reflexivity.
Qed.

Lemma X16_processPDFBasic_again_witness :
  exists out,
    processPDFBasic 0 (PdfBytes sample_pdf) = Some out
    /\ processPDFBasic 1700000000000 out = Some out.
Proof.
  eexists. split; [reflexivity|].
  exact (proj2 (X16_processPDFBasic_again 0 1700000000000 (PdfBytes sample_pdf) _ eq_refl)).
Defined.

(** *** The answers of the service *)

Lemma answers_cons svc log q reqs :
  answers svc log (q :: reqs) = svc log q :: answers svc (log ++ [q]) reqs.
Proof.
  unfold answers. cbn [imap take]. rewrite app_nil_r. f_equal.
  apply imap_ext. intros k x _. cbn [compose take]. now rewrite <- app_assoc.
Qed.

(** The loop, when every call is answered: the matches of the answers,
    appended in the order of the requests. *)
Lemma check_chunks_concat cfg lang svc :
  (forall log q, svc log q <> None) ->
  forall cs acc log,
    (check_chunks cfg lang cs acc svc log).1 =
    Some (acc ++ concat (map matches_of
            (answers svc log (map (fun c => payload cfg c lang) (List.filter nonblank cs))))).
Proof.
  intros Hsvc. induction cs as [|c rest IH]; intros acc log.
  - cbn. now rewrite app_nil_r.
  - rewrite check_chunks_cons. cbn [List.filter].
    change (nonblank c) with (negb (blank c)).
    destruct (blank c); cbn [negb]; [apply IH|].
    cbn [map]. rewrite answers_cons. cbn [map concat].
    destruct (svc log (payload cfg c lang)) as [resp|] eqn:E; [|now apply Hsvc in E].
    rewrite IH. f_equal. destruct resp as [[|m ms]|]; cbn [matches_of app];
      rewrite ?app_nil_r; try reflexivity. now rewrite <- app_assoc.
Qed.

(** The loop, when the request of index [k] is the first that fails: the
    requests up to that one are sent, and no other. *)
Lemma check_chunks_stops cfg lang svc : forall cs acc log k q,
  let reqs := map (fun c => payload cfg c lang) (List.filter nonblank cs) in
  reqs !! k = Some q ->
  svc (log ++ take k reqs) q = None ->
  (forall j q', j < k -> reqs !! j = Some q' -> svc (log ++ take j reqs) q' <> None) ->
  check_chunks cfg lang cs acc svc log = (None, log ++ take (S k) reqs).
Proof.
  induction cs as [|c rest IH]; intros acc log k q reqs Hk Hq Hbefore; [discriminate|].
  rewrite check_chunks_cons. subst reqs. cbn [List.filter] in *.
  change (nonblank c) with (negb (blank c)) in *.
  destruct (blank c); cbn [negb] in *; [eapply IH; eassumption|].
  cbn [map] in *. destruct k as [|k].
  - cbn in Hk. injection Hk as <-. cbn [take] in Hq. rewrite app_nil_r in Hq. rewrite Hq.
    reflexivity.
  - destruct (svc log (payload cfg c lang)) as [resp|] eqn:E.
    2:{ exfalso. apply (Hbefore 0 (payload cfg c lang)); [lia|reflexivity|].
        cbn [take]. now rewrite app_nil_r. }
    cbn [lookup list_lookup] in Hk. cbn [take] in Hq.
    rewrite (IH _ (log ++ [payload cfg c lang]) k q Hk).
    + cbn [take]. now rewrite <- app_assoc.
    + now rewrite <- app_assoc.
    + intros j q' Hj Hq'. rewrite <- app_assoc. apply (Hbefore (S j) q'); [lia|exact Hq'].
Qed.

(** X17.  When every call is answered, [runLanguageTool] returns the
    matches of the answers put together in the order of the requests,
    an answer without matches counting for none. *)
Theorem X17_runLanguageTool_concatenates (cfg : config) (fullText lang : jsstring)
    (svc : service (option (list CheckMatch))) :
  (forall log q, svc log q <> None) ->
  (runLanguageTool cfg fullText lang svc []).1
  = Some (concat (map matches_of (answers svc [] (requests_of cfg lang fullText)))).
Proof.
  intros H. unfold runLanguageTool. now rewrite (check_chunks_concat cfg lang svc H).
Qed.

Lemma X17_runLanguageTool_concatenates_witness :
  (forall log q, service_one log q <> None)
  /\ (runLanguageTool sample_cfg (lit "Hello world") (lit "auto") service_one []).1
     = Some (concat (map matches_of
         (answers service_one [] (requests_of sample_cfg (lit "auto") (lit "Hello world"))))).
Proof.
  assert (H : forall log q, service_one log q <> None) by (intros ? ?; discriminate).
  split; [exact H|].
  exact (X17_runLanguageTool_concatenates sample_cfg (lit "Hello world") (lit "auto") service_one H).
Defined.

(** X18.  When a request fails and those before it were answered,
    [runLanguageTool] has sent the requests up to the failed one and no
    other: the failed request is not sent again and the chunks after it
    are not sent.  The handler of POST /clean-v2 answers 500 after
    exactly these requests. *)
Theorem X18_runLanguageTool_stops_at_failure (cfg : config) (now : Z)
    (pdfParse : file_data -> option jsstring) (svc : service (option (list CheckMatch)))
    (fullText lang : jsstring) (k : nat) (q : lt_request) :
  requests_of cfg lang fullText !! k = Some q ->
  svc (take k (requests_of cfg lang fullText)) q = None ->
  (forall j q', j < k -> requests_of cfg lang fullText !! j = Some q' ->
     svc (take j (requests_of cfg lang fullText)) q' <> None) ->
  runLanguageTool cfg fullText lang svc []
  = (None, take (S k) (requests_of cfg lang fullText))
  /\ forall req f name buf,
       req_file req = Some f ->
       prepare now pdfParse f = Cleaned name buf fullText ->
       or_else (lt_language req) (lit "auto") = lang ->
       clean_v2_sent cfg now pdfParse svc req
       = (SentJson 500 (lit "Processing failed (V2)"),
          take (S k) (requests_of cfg lang fullText)).
Proof.
  intros Hk Hq Hbefore.
  assert (E : runLanguageTool cfg fullText lang svc []
              = (None, take (S k) (requests_of cfg lang fullText))).
  { unfold runLanguageTool. apply (check_chunks_stops cfg lang svc _ [] [] k q); assumption. }
  split; [exact E|]. intros req f name buf Hf Hp Hl.
  unfold clean_v2_sent, clean_v2. rewrite Hf, Hp, Hl.
  assert (Ht : or_else (Some fullText) [] = fullText) by now destruct fullText.
  rewrite Ht, E. reflexivity.
Qed.

Lemma X18_runLanguageTool_stops_at_failure_witness :
  requests_of sample_cfg (lit "auto") (lit "Hello world") !! 0
  = Some (payload sample_cfg (lit "Hello world") (lit "auto"))
  /\ runLanguageTool sample_cfg (lit "Hello world") (lit "auto") service_down []
     = (None, take 1 (requests_of sample_cfg (lit "auto") (lit "Hello world"))).
Proof.
  assert (H : requests_of sample_cfg (lit "auto") (lit "Hello world") !! 0
              = Some (payload sample_cfg (lit "Hello world") (lit "auto")))
    by (vm_compute; reflexivity).
  split; [exact H|].
  refine (proj1 (X18_runLanguageTool_stops_at_failure sample_cfg 0 sample_pdfParse service_down
                   (lit "Hello world") (lit "auto") 0 _ H eq_refl _)).
  intros j q' Hj. lia.
Defined.

(** *** The counts of [byRule] *)

Lemma total_count_insert own key n :
  total_count (<[key := VNum n]> own)
  = n + total_count (delete key own).
Proof.
  unfold total_count. rewrite <- insert_delete_eq.
  rewrite map_fold_insert_L; [reflexivity| |apply lookup_delete_eq].
  intros j1 j2 z1 z2 y _ _ _. destruct z1, z2; lia.
Qed.

Lemma total_count_delete own key n :
  own !! key = Some (VNum n) -> total_count own = n + total_count (delete key own).
Proof.
  intros H. unfold total_count.
  rewrite (map_fold_delete_L _ _ key (VNum n) own); [reflexivity| |exact H].
  intros j1 j2 z1 z2 y _ _ _. destruct z1, z2; lia.
Qed.

Lemma count_rules_snoc ms m :
  count_rules (ms ++ [m])
  = assign (count_rules ms) (rule_key m) (bump (count_rules ms) (rule_key m)).
Proof. unfold count_rules. now rewrite foldl_app. Qed.

Lemma total_count_rules matches :
  Forall (fun m => inherited (rule_key m) = None) matches ->
  total_count (count_rules matches) = length matches.
Proof.
  induction matches as [|m ms IH] using rev_ind; intros H; [reflexivity|].
  apply Forall_app in H as [Hms Hm]. apply Forall_inv in Hm. cbv beta in Hm.
  rewrite count_rules_snoc, length_app. cbn [length].
  assert (Hk : rule_key m <> lit "__proto__").
  { intros E. rewrite E in Hm. now apply inherited_proto. }
  unfold assign. rewrite bool_decide_eq_false_2 by exact Hk.
  unfold bump. rewrite (count_rules_counts ms Hms (rule_key m)).
  destruct (occurrences (rule_key m) ms) as [|n] eqn:Eo.
  - rewrite Hm, total_count_insert, delete_id.
    + rewrite IH by assumption. lia.
    + rewrite (count_rules_counts ms Hms), Eo. reflexivity.
  - rewrite total_count_insert.
    pose proof (count_rules_counts ms Hms (rule_key m)) as Hc. rewrite Eo in Hc.
    pose proof (total_count_delete _ _ _ Hc) as Hd. rewrite IH in Hd by assumption. lia.
Qed.

(** X19.  When no rule key of the matches is the name of a member of
    [Object.prototype], [byRule] of the report holds, for every key, the
    number of matches with that key (and no property for a key without
    match), and these numbers add up to [totalIssues]. *)
Theorem X19_byRule_counts (fileName language : jsstring) (matches : list CheckMatch)
    (textLength : nat) :
  Forall (fun m => inherited (rule_key m) = None) matches ->
  let s := report_summary (buildReportJSON fileName language matches textLength) in
  (forall key, byRule s !! key =
     match occurrences key matches with
     | 0 => None
     | n => Some (VNum n)
     end)
  /\ total_count (byRule s) = totalIssues s.
Proof.
  intros H. cbn. split; [now apply count_rules_counts|now apply total_count_rules].
Qed.

Lemma X19_byRule_counts_witness :
  Forall (fun m => inherited (rule_key m) = None)
    [match_of_rule (lit "COMMA"); match_of_rule (lit "COMMA")]
  /\ byRule (report_summary
       (buildReportJSON (lit "a_cleaned.pdf") (lit "auto")
          [match_of_rule (lit "COMMA"); match_of_rule (lit "COMMA")] 9)) !! lit "COMMA"
     = Some (VNum 2).
Proof.
  assert (H : Forall (fun m => inherited (rule_key m) = None)
                [match_of_rule (lit "COMMA"); match_of_rule (lit "COMMA")])
    by (repeat constructor).
  split; [exact H|].
  exact (proj1 (X19_byRule_counts (lit "a_cleaned.pdf") (lit "auto") _ 9 H) (lit "COMMA")).
Defined.

(** *** [encodeURIComponent] *)

Lemma hex_uri n : (n < 16)%N -> uri_char (hex n) = true.
Proof.
  intros H. unfold hex. destruct (n <? 10)%N eqn:E.
  - apply N.ltb_lt in E.
    assert (Hc : In n (map N.of_nat (seq 0 10))).
    { apply in_map_iff. exists (N.to_nat n). split; [lia|]. apply in_seq. lia. }
    cbn in Hc. repeat (destruct Hc as [<-|Hc]; [reflexivity|]). destruct Hc.
  - apply N.ltb_ge in E.
    assert (Hc : In n (map N.of_nat (seq 10 6))).
    { apply in_map_iff. exists (N.to_nat n). split; [lia|]. apply in_seq. lia. }
    cbn in Hc. repeat (destruct Hc as [<-|Hc]; [reflexivity|]). destruct Hc.
Qed.

Lemma percent_uri o : (o < 256)%N -> forallb uri_char (percent o) = true.
Proof.
  intros H. unfold percent. cbn [forallb].
  rewrite !hex_uri; [reflexivity| |].
  - apply N.mod_lt. discriminate.
  - apply N.Div0.div_lt_upper_bound. lia.
Qed.

Lemma utf8_octets cp : (cp < 1114112)%N -> Forall (fun o => (o < 256)%N) (utf8 cp).
Proof.
  intros H. unfold utf8.
  assert (H64 : forall x, (x mod 64 < 64)%N) by (intros; apply N.mod_lt; discriminate).
  destruct (cp <? 128)%N eqn:E1; [apply N.ltb_lt in E1; repeat constructor; lia|].
  destruct (cp <? 2048)%N eqn:E2.
  { apply N.ltb_lt in E2.
    assert (cp / 64 < 32)%N by (apply N.Div0.div_lt_upper_bound; lia).
    pose proof (H64 cp). repeat constructor; lia. }
  destruct (cp <? 65536)%N eqn:E3.
  { apply N.ltb_lt in E3.
    assert (cp / 4096 < 16)%N by (apply N.Div0.div_lt_upper_bound; lia).
    pose proof (H64 cp). pose proof (H64 (cp / 64)%N). repeat constructor; lia. }
  assert (cp / 262144 < 5)%N by (apply N.Div0.div_lt_upper_bound; lia).
  pose proof (H64 cp). pose proof (H64 (cp / 64)%N). pose proof (H64 (cp / 4096)%N).
  repeat constructor; lia.
Qed.

Lemma escape_uri cp :
  (cp < 1114112)%N -> forallb uri_char (concat (map percent (utf8 cp))) = true.
Proof.
  intros H. apply utf8_octets in H. induction H as [|o r Ho _ IH]; [reflexivity|].
  cbn [map concat]. rewrite forallb_app, percent_uri by assumption. exact IH.
Qed.

Lemma pair_bound c d :
  is_high c = true -> is_low d = true ->
  ((c - 55296) * 1024 + (d - 56320) + 65536 < 1114112)%N.
Proof.
  unfold is_high, is_low. intros [H1 H2]%andb_true_iff [H3 H4]%andb_true_iff.
  apply N.leb_le in H1, H2, H3, H4. lia.
Qed.

(** Induction that follows the recursion of [encodeURIComponent]. *)
Lemma units_ind (P : jsstring -> Prop) :
  P [] -> (forall c, P [c]) ->
  (forall c r, P r -> (forall d r', r = d :: r' -> P r') -> P (c :: r)) ->
  forall s, P s.
Proof.
  intros H0 H1 Hs s.
  assert (H : P s /\ forall c, P (c :: s)).
  { induction s as [|d r [IH1 IH2]]; [split; [exact H0|exact H1]|].
    split; [apply IH2|]. intros c. apply Hs; [apply IH2|]. intros ? ? [= <- <-]. exact IH1. }
  apply H.
Qed.

Lemma encodeURIComponent_uri s enc :
  forallb is_unit s = true -> encodeURIComponent s = Some enc ->
  forallb uri_char enc = true.
Proof.
  revert enc. induction s as [| c | c r IH1 IH2] using units_ind; intros enc Hu.
  - intros [= <-]. reflexivity.
  - cbn [encodeURIComponent]. cbn [forallb] in Hu. apply andb_true_iff in Hu as [Hc _].
    apply N.ltb_lt in Hc.
    destruct (unescaped c) eqn:Ec.
    { intros [= <-]. cbn [forallb]. unfold uri_char. now rewrite Ec. }
    destruct (is_high c); [discriminate|]. destruct (is_low c); [discriminate|].
    intros [= <-]. rewrite app_nil_r. apply escape_uri. lia.
  - cbn [encodeURIComponent]. cbn [forallb] in Hu. apply andb_true_iff in Hu as [Hc Hr].
    apply N.ltb_lt in Hc.
    destruct (unescaped c) eqn:Ec.
    { destruct (encodeURIComponent r) as [e|] eqn:Er; [|discriminate]. intros [= <-].
      cbn [forallb]. unfold uri_char at 1. rewrite Ec. cbn [orb andb]. now apply IH1. }
    destruct (is_high c) eqn:Eh.
    { destruct r as [|d r']; [discriminate|]. destruct (is_low d) eqn:El; [|discriminate].
      destruct (encodeURIComponent r') as [e|] eqn:Er; [|discriminate]. intros [= <-].
      rewrite forallb_app, escape_uri by now apply pair_bound.
      cbn [forallb] in Hr. apply andb_true_iff in Hr as [_ Hr].
      now apply (IH2 d r' eq_refl). }
    destruct (is_low c); [discriminate|].
    destruct (encodeURIComponent r) as [e|] eqn:Er; [|discriminate]. intros [= <-].
    rewrite forallb_app, escape_uri by lia. now apply IH1.
Qed.

(** A text without surrogates is always encoded. *)
Lemma encodeURIComponent_total s :
  forallb (fun c => negb (is_surrogate c)) s = true -> is_Some (encodeURIComponent s).
Proof.
  induction s as [|c r IH]; [now eexists|]. cbn [forallb encodeURIComponent].
  intros [Hc Hr]%andb_true_iff. destruct (IH Hr) as [e He]. rewrite He.
  unfold is_surrogate in Hc. apply negb_true_iff, orb_false_iff in Hc as [-> ->].
  destruct (unescaped c); now eexists.
Qed.

(** Copied code units at the end stay as they are. *)
Lemma encodeURIComponent_app a b :
  b <> [] -> forallb unescaped b = true ->
  encodeURIComponent (a ++ b) = (fun e => e ++ b) <$> encodeURIComponent a.
Proof.
  intros Hb Hu.
  assert (Hbb : encodeURIComponent b = Some b).
  { clear Hb. induction b as [|c r IH]; [reflexivity|]. cbn [forallb] in Hu.
    apply andb_true_iff in Hu as [Hc Hr]. cbn [encodeURIComponent]. rewrite Hc, IH by assumption.
    reflexivity. }
  assert (Hlow : forall c r, b = c :: r -> is_low c = false).
  { intros c r ->. cbn [forallb] in Hu. apply andb_true_iff in Hu as [Hc _].
    destruct (is_low c) eqn:El; [|reflexivity]. exfalso.
    unfold is_low in El. apply andb_true_iff in El as [H1 H2]. apply N.leb_le in H1, H2.
    unfold unescaped, is_word in Hc.
    repeat (apply orb_true_iff in Hc as [Hc|Hc]);
      repeat (apply andb_true_iff in Hc as [? Hc]);
      repeat match goal with H : (_ <=? _)%N = true |- _ => apply N.leb_le in H
                        | H : (_ =? _)%N = true |- _ => apply N.eqb_eq in H end; lia. }
  induction a as [| c | c r IH1 IH2] using units_ind.
  - cbn [app]. rewrite Hbb. reflexivity.
  - cbn [app encodeURIComponent]. rewrite Hbb. destruct b as [|d b']; [congruence|].
    rewrite (Hlow d b' eq_refl). destruct (unescaped c); [reflexivity|].
    destruct (is_high c); [reflexivity|]. destruct (is_low c); [reflexivity|].
    cbn. now rewrite app_nil_r.
  - cbn [app encodeURIComponent]. rewrite IH1.
    destruct (unescaped c).
    { destruct (encodeURIComponent r); reflexivity. }
    destruct (is_high c).
    { destruct r as [|d r']; [cbn [app]|].
      - destruct b as [|d b']; [congruence|]. now rewrite (Hlow d b' eq_refl).
      - cbn [app]. destruct (is_low d); [|reflexivity].
        rewrite (IH2 d r' eq_refl). destruct (encodeURIComponent r'); cbn; [|reflexivity].
        now rewrite app_assoc. }
    destruct (is_low c); [reflexivity|].
    destruct (encodeURIComponent r); cbn; [|reflexivity]. now rewrite app_assoc.
Qed.

(** *** File names *)

Lemma ends_with_ci_app ext stem e :
  map lower e = ext -> ends_with_ci ext (stem ++ e) = true.
Proof.
  intros <-. unfold ends_with_ci. rewrite length_map, length_app.
  apply andb_true_iff. split; [apply Nat.leb_le; lia|]. apply bool_decide_eq_true.
  replace (length stem + length e - length e) with (length stem) by lia.
  now rewrite drop_app_length.
Qed.

Lemma strip_ext_app ext stem e : map lower e = ext -> strip_ext ext (stem ++ e) = stem.
Proof.
  intros H. unfold strip_ext. rewrite (ends_with_ci_app _ _ _ H). subst ext.
  rewrite length_map, length_app.
  replace (length stem + length e - length e) with (length stem) by lia.
  now rewrite take_app_length.
Qed.

Lemma docx_not_pdf stem e :
  map lower e = lit ".docx" -> ends_with_ci (lit ".pdf") (stem ++ e) = false.
Proof.
  intros H. unfold ends_with_ci. apply andb_false_iff. right. apply bool_decide_eq_false.
  do 5 (destruct e as [|? e]; [discriminate|]). destruct e; [|discriminate].
  rewrite length_app. cbn [length lit].
  replace (length stem + 5 - 4) with (length stem + 1) by lia.
  rewrite drop_app_ge by lia. replace (length stem + 1 - length stem) with 1 by lia.
  cbn [drop]. intros E.
  pose proof (f_equal (fun l => nth 1 l 0%N) H) as H1.
  pose proof (f_equal (fun l => nth 0 l 0%N) E) as E1.
  cbv beta in H1, E1. cbn [map nth] in H1, E1.
  change (nth 1 (lit ".docx") 0%N) with 100%N in H1.
  change (N_of_ascii ".") with 46%N in E1. rewrite H1 in E1. discriminate.
Qed.

(** *** The handlers of server.js *)

Lemma unescaped_cleaned_pdf : forallb unescaped (lit "_cleaned.pdf") = true.
Proof. reflexivity. Qed.
Lemma unescaped_cleaned_docx : forallb unescaped (lit "_cleaned.docx") = true.
Proof. reflexivity. Qed.
Lemma unescaped_report_zip : forallb unescaped (lit "_docsafe_report.zip") = true.
Proof. reflexivity. Qed.

Lemma send_name {B} error mime stem suffix (body : B) :
  suffix <> [] -> forallb unescaped suffix = true ->
  send error mime (stem ++ suffix) body =
  match encodeURIComponent stem with
  | Some enc => SentFile mime (attachment (enc ++ suffix)) body
  | None => SentJson 500 error
  end.
Proof.
  intros H1 H2. unfold send. rewrite encodeURIComponent_app by assumption.
  destruct (encodeURIComponent stem); reflexivity.
Qed.

Lemma send_uri {B} error mime name (body : B) m d b :
  forallb is_unit name = true ->
  send error mime name body = SentFile m d b ->
  exists enc, d = attachment enc /\ forallb uri_char enc = true.
Proof.
  intros Hu. unfold send. destruct (encodeURIComponent name) as [enc|] eqn:E; [|discriminate].
  intros [= <- <- <-]. exists enc. split; [reflexivity|].
  now apply (encodeURIComponent_uri name).
Qed.

Lemma is_unit_lit s : forallb is_unit (lit s) = true.
Proof.
  induction s as [|a s IH]; [reflexivity|]. cbn [lit forallb]. rewrite IH, andb_true_r.
  apply N.ltb_lt. pose proof (N_ascii_bounded a). lia.
Qed.

Lemma is_unit_strip ext name :
  forallb is_unit name = true -> forallb is_unit (strip_ext ext name) = true.
Proof.
  intros H. unfold strip_ext. destruct (ends_with_ci ext name); [|exact H].
  rewrite <- (take_drop (length name - length ext) name), forallb_app in H.
  now apply andb_true_iff in H as [H _].
Qed.

Lemma zip_name_units name : forallb is_unit name = true -> forallb is_unit (zip_name name) = true.
Proof.
  intros H. unfold zip_name. rewrite forallb_app, is_unit_lit, andb_true_r.
  destruct (ends_with_ci (lit ".pdf") name); now apply is_unit_strip.
Qed.

(** X20.  POST /clean of server.js, for an upload whose name ends with
    [.pdf] or [.docx] in any mix of cases and a buffer that the
    sanitiser accepts: the answer is the sanitised document under the
    name [stem_cleaned.pdf] or [stem_cleaned.docx], the stem encoded by
    [encodeURIComponent] and the extension in lower case; when the stem
    cannot be encoded (a surrogate without its partner) the answer is
    500. *)
Theorem X20_clean_upload_named (now : Z) (req : request) (f : upload) (stem e : jsstring) :
  req_file req = Some f -> originalname f = stem ++ e ->
  (map lower e = lit ".pdf" ->
   forall out, processPDFBasic now (content f) = Some out ->
     clean now req =
     match encodeURIComponent stem with
     | Some enc =>
         SentFile (lit "application/pdf") (attachment (enc ++ lit "_cleaned.pdf")) out
     | None => SentJson 500 (lit "Processing failed")
     end)
  /\ (map lower e = lit ".docx" ->
      forall out, processDOCXBasic (content f) = Some out ->
        clean now req =
        match encodeURIComponent stem with
        | Some enc =>
            SentFile
              (lit "application/vnd.openxmlformats-officedocument.wordprocessingml.document")
              (attachment (enc ++ lit "_cleaned.docx")) out
        | None => SentJson 500 (lit "Processing failed")
        end).
Proof.
  intros Hf Hn. unfold clean. rewrite Hf, Hn. cbv zeta. split; intros He out Ho.
  - rewrite (ends_with_ci_app _ _ _ He), Ho, (strip_ext_app _ _ _ He).
    apply send_name; [discriminate|reflexivity].
  - rewrite (docx_not_pdf _ _ He), (ends_with_ci_app _ _ _ He), Ho, (strip_ext_app _ _ _ He).
    apply send_name; [discriminate|reflexivity].
Qed.

Lemma X20_clean_upload_named_witness :
  originalname docx_upload = lit "Notes" ++ lit ".DOCX"
  /\ map lower (lit ".DOCX") = lit ".docx"
  /\ clean 0 docx_request
     = SentFile
         (lit "application/vnd.openxmlformats-officedocument.wordprocessingml.document")
         (attachment (lit "Notes" ++ lit "_cleaned.docx"))
         (ZipBytes (sanitize_archive sample_docx)).
Proof.
  split; [reflexivity|]. split; [reflexivity|].
  exact (proj2 (X20_clean_upload_named 0 docx_request docx_upload (lit "Notes") (lit ".DOCX")
                  eq_refl eq_refl) eq_refl _ eq_refl).
Defined.

(** X21.  Whenever POST /clean or POST /clean-v2 of server.js sends a
    file, for an upload whose name is made of 16-bit code units, the
    name in the Content-Disposition header has only letters, digits,
    [-_.!~*'()] and the percent sign: no double quote, no line break,
    nothing outside ASCII. *)
Theorem X21_disposition_is_encoded (cfg : config) (now : Z)
    (pdfParse : file_data -> option jsstring) (svc : service (option (list CheckMatch)))
    (req : request) (f : upload) :
  req_file req = Some f -> forallb is_unit (originalname f) = true ->
  (forall mime disp body, clean now req = SentFile mime disp body ->
     exists enc, disp = attachment enc /\ forallb uri_char enc = true)
  /\ (forall mime disp body log,
        clean_v2_sent cfg now pdfParse svc req = (SentFile mime disp body, log) ->
        exists enc, disp = attachment enc /\ forallb uri_char enc = true).
Proof.
  intros Hf Hu. split.
  - intros mime disp body. unfold clean. rewrite Hf. cbv zeta.
    destruct (ends_with_ci (lit ".pdf") (originalname f)).
    { destruct (processPDFBasic now (content f)); [|discriminate].
      apply send_uri. rewrite forallb_app, is_unit_lit, andb_true_r. now apply is_unit_strip. }
    destruct (ends_with_ci (lit ".docx") (originalname f)); [|discriminate].
    destruct (processDOCXBasic (content f)); [|discriminate].
    apply send_uri. rewrite forallb_app, is_unit_lit, andb_true_r. now apply is_unit_strip.
  - intros mime disp body log. unfold clean_v2_sent.
    destruct (clean_v2 cfg now pdfParse svc req) as [[st er|zipName z] lg] eqn:E; [discriminate|].
    intros [= H <-]. revert H. apply send_uri.
    unfold clean_v2 in E. rewrite Hf in E.
    destruct (prepare now pdfParse f); try discriminate.
    destruct (runLanguageTool _ _ _ _ _) as [[ms|] lg']; [|discriminate].
    injection E as <- _ _. now apply zip_name_units.
Qed.

Lemma X21_disposition_is_encoded_witness :
  forallb is_unit (originalname sample_upload) = true
  /\ exists mime enc body,
       clean 0 sample_request = SentFile mime (attachment enc) body
       /\ forallb uri_char enc = true.
Proof.
  split; [reflexivity|].
  destruct (proj1 (X21_disposition_is_encoded sample_cfg 0 sample_pdfParse service_quiet
                     sample_request sample_upload eq_refl eq_refl)
              (lit "application/pdf") (attachment (lit "report_cleaned.pdf"))
              (default (PdfBytes sample_pdf) (processPDFBasic 0 (PdfBytes sample_pdf)))
              eq_refl) as (enc & He & Hu).
  exists (lit "application/pdf"), enc,
    (default (PdfBytes sample_pdf) (processPDFBasic 0 (PdfBytes sample_pdf))).
  split; [|exact Hu]. rewrite <- He. reflexivity.
Defined.

Lemma runLanguageTool_answered cfg text lang svc :
  (forall log q, svc log q <> None) ->
  exists ms log, runLanguageTool cfg text lang svc [] = (Some ms, log).
Proof.
  intros H. unfold runLanguageTool.
  destruct (check_chunks_log cfg lang svc H (chunks text) [] []) as [ms E].
  rewrite E. eauto.
Qed.

Lemma send_some {B} error mime stem suffix suffix' (body : B) m d b :
  suffix <> [] -> forallb unescaped suffix = true ->
  suffix' <> [] -> forallb unescaped suffix' = true ->
  send error mime (stem ++ suffix) body = SentFile m d b ->
  b = body /\ attachment <$> encodeURIComponent (stem ++ suffix) = Some d
  /\ is_Some (encodeURIComponent (stem ++ suffix')).
Proof.
  intros H1 H2 H3 H4. unfold send.
  destruct (encodeURIComponent (stem ++ suffix)) as [enc|] eqn:E; [|discriminate].
  intros [= <- <- <-]. split; [reflexivity|]. split; [reflexivity|].
  rewrite encodeURIComponent_app in E |- * by assumption.
  destruct (encodeURIComponent stem); [now eexists|discriminate].
Qed.

Lemma send_none {B B'} error error' mime mime' stem suffix suffix' (body : B) (body' : B') e :
  suffix <> [] -> forallb unescaped suffix = true ->
  suffix' <> [] -> forallb unescaped suffix' = true ->
  send error mime (stem ++ suffix) body = SentJson 500 e ->
  send error' mime' (stem ++ suffix') body' = SentJson 500 error'.
Proof.
  intros H1 H2 H3 H4. unfold send. rewrite !encodeURIComponent_app by assumption.
  destruct (encodeURIComponent stem); [discriminate|reflexivity].
Qed.

Lemma send_not_400 {B} error mime name (body : B) e :
  send error mime name body <> SentJson 400 e.
Proof. unfold send. destruct (encodeURIComponent name); discriminate. Qed.

(** X22.  POST /clean and POST /clean-v2 of server.js on the same
    request.  They reject the same requests with the same 400 answer,
    and /clean-v2 then sends no request to the checking service.  When
    /clean sends a document and the service answers every call,
    /clean-v2 sends a bundle that holds this document, under the name
    whose encoding /clean put in its header.  When /clean answers 500,
    so does /clean-v2. *)
Theorem X22_clean_v2_same_document (cfg : config) (now : Z)
    (pdfParse : file_data -> option jsstring) (svc : service (option (list CheckMatch)))
    (req : request) :
  (forall e, clean now req = SentJson 400 e
             <-> clean_v2_sent cfg now pdfParse svc req = (SentJson 400 e, []))
  /\ (forall mime disp body,
        clean now req = SentFile mime disp body ->
        (forall log q, svc log q <> None) ->
        exists disp' zip log,
          clean_v2_sent cfg now pdfParse svc req
            = (SentFile (lit "application/zip") disp' zip, log)
          /\ cleanedBuffer zip = body
          /\ attachment <$> encodeURIComponent (cleanedName zip) = Some disp)
  /\ (forall e, clean now req = SentJson 500 e ->
        exists log, clean_v2_sent cfg now pdfParse svc req
                    = (SentJson 500 (lit "Processing failed (V2)"), log)).
Proof.
  unfold clean, clean_v2_sent, clean_v2, prepare, zip_name.
  destruct (req_file req) as [f|]; cbv zeta.
  2:{ split; [|split]; [intros e; split; intros [= <-]; reflexivity|discriminate|discriminate]. }
  destruct (ends_with_ci (lit ".pdf") (originalname f)).
  { destruct (processPDFBasic now (content f)) as [out|].
    2:{ split; [|split]; [intros e; split; discriminate|discriminate|].
        intros e _. now eexists. }
    destruct (runLanguageTool cfg _ _ svc []) as [[ms|] lg] eqn:Er.
    - split; [|split].
      + intros e; split; [intros H; now apply send_not_400 in H|].
        intros [= H]. now apply send_not_400 in H.
      + intros mime disp body Hs _.
        apply (send_some _ _ _ _ (lit "_docsafe_report.zip")) in Hs
          as (<- & Hd & [enc He]); try discriminate; try reflexivity.
        unfold send. rewrite He. eexists _, _, _. split; [reflexivity|]. split; [reflexivity|].
        exact Hd.
      + intros e Hs. exists lg. f_equal.
        eapply send_none; [| | | |exact Hs]; try discriminate; reflexivity.
    - split; [|split].
      + intros e; split; [intros H; now apply send_not_400 in H|discriminate].
      + intros mime disp body _ Hsvc.
        destruct (runLanguageTool_answered cfg
                    (or_else (Some (extractTextFromPDF pdfParse out)) [])
                    (or_else (lt_language req) (lit "auto")) svc Hsvc) as (ms & lg' & E).
        rewrite E in Er. discriminate.
      + intros e _. now eexists. }
  destruct (ends_with_ci (lit ".docx") (originalname f)).
  2:{ split; [|split]; [intros e; split; intros [= <-]; reflexivity|discriminate|discriminate]. }
  destruct (processDOCXBasic (content f)) as [out|] eqn:Ep.
  2:{ split; [|split]; [intros e; split; discriminate|discriminate|].
      intros e _. now eexists. }
  assert (Hx : exists text, extractTextFromDOCX out = Some text).
  { unfold processDOCXBasic in Ep. destruct (load_zip (content f)); [|discriminate].
    injection Ep as <-. unfold extractTextFromDOCX. cbn [load_zip mbind option_bind].
    destruct (_ !! docPath); eauto. }
  destruct Hx as [text ->].
  destruct (runLanguageTool cfg _ _ svc []) as [[ms|] lg] eqn:Er.
  - split; [|split].
    + intros e; split; [intros H; now apply send_not_400 in H|].
      intros [= H]. now apply send_not_400 in H.
    + intros mime disp body Hs _.
      apply (send_some _ _ _ _ (lit "_docsafe_report.zip")) in Hs
        as (<- & Hd & [enc He]); try discriminate; try reflexivity.
      unfold send. rewrite He. eexists _, _, _. split; [reflexivity|]. split; [reflexivity|].
      exact Hd.
    + intros e Hs. exists lg. f_equal.
      eapply send_none; [| | | |exact Hs]; try discriminate; reflexivity.
  - split; [|split].
    + intros e; split; [intros H; now apply send_not_400 in H|discriminate].
    + intros mime disp body _ Hsvc.
      destruct (runLanguageTool_answered cfg (or_else (Some text) [])
                  (or_else (lt_language req) (lit "auto")) svc Hsvc) as (ms & lg' & E).
      rewrite E in Er. discriminate.
    + intros e _. now eexists.
Qed.

Lemma X22_clean_v2_same_document_witness :
  (forall log q, service_quiet log q <> None)
  /\ exists disp disp' zip log,
       clean 0 sample_request
       = SentFile (lit "application/pdf") disp (cleanedBuffer zip)
       /\ clean_v2_sent sample_cfg 0 sample_pdfParse service_quiet sample_request
          = (SentFile (lit "application/zip") disp' zip, log).
Proof.
  assert (H : forall log q, service_quiet log q <> None) by (intros ? ?; discriminate).
  split; [exact H|].
  destruct (proj1 (proj2 (X22_clean_v2_same_document sample_cfg 0 sample_pdfParse service_quiet
                            sample_request))
              (lit "application/pdf") (attachment (lit "report_cleaned.pdf"))
              (default (PdfBytes sample_pdf) (processPDFBasic 0 (PdfBytes sample_pdf)))
              eq_refl H) as (disp' & zip & log & E & Hb & _).
  exists (attachment (lit "report_cleaned.pdf")), disp', zip, log.
  split; [|exact E]. rewrite Hb. reflexivity.
Defined.

(** *** The origins that are accepted *)

Lemma split_on_app sep x rest :
  forallb (fun c => negb (c =? sep)%N) x = true ->
  split_on sep (x ++ sep :: rest) = x :: split_on sep rest.
Proof.
  induction x as [|c r IH]; cbn [app split_on forallb].
  - now rewrite N.eqb_refl.
  - intros [Hc Hr]%andb_true_iff. apply negb_true_iff in Hc. now rewrite Hc, IH.
Qed.

Lemma split_on_join sep parts :
  parts <> [] -> Forall (fun p => forallb (fun c => negb (c =? sep)%N) p = true) parts ->
  split_on sep (join [sep] parts) = parts.
Proof.
  intros Hne H. induction H as [|x r Hx Hr IH]; [congruence|]. cbn [join].
  destruct r as [|y r]; [now apply split_on_none|].
  cbn [app]. rewrite split_on_app by exact Hx. f_equal. now apply IH.
Qed.

(** *** [trim] *)

Lemma drop_while_fixed p s :
  match s with c :: _ => p c = false | [] => True end -> drop_while p s = s.
Proof. destruct s as [|c r]; [reflexivity|]. cbn [drop_while]. now intros ->. Qed.

Lemma drop_while_suffix p s : exists pre, s = pre ++ drop_while p s.
Proof.
  induction s as [|c r [pre IH]]; [now exists []|]. cbn [drop_while].
  destruct (p c); [exists (c :: pre); cbn [app]; now f_equal|now exists []].
Qed.

Lemma drop_while_first p s :
  match drop_while p s with c :: _ => p c = false | [] => True end.
Proof.
  destruct (drop_while p s) as [|c r] eqn:E; [exact I|]. now apply drop_while_head in E.
Qed.

Lemma trim_trim s : trim (trim s) = trim s.
Proof.
  unfold trim. set (x := drop_while is_ws s). set (y := drop_while is_ws (rev x)).
  assert (Hy : match y with c :: _ => is_ws c = false | [] => True end)
    by apply drop_while_first.
  assert (Hr : match rev y with c :: _ => is_ws c = false | [] => True end).
  { destruct (drop_while_suffix is_ws (rev x)) as [pre Hpre]. fold y in Hpre.
    assert (Ex : x = rev y ++ rev pre) by now rewrite <- rev_app_distr, <- Hpre, rev_involutive.
    pose proof (drop_while_first is_ws s) as Hx. fold x in Hx. rewrite Ex in Hx.
    destruct (rev y) as [|c r]; [exact I|exact Hx]. }
  rewrite (drop_while_fixed is_ws (rev y) Hr), rev_involutive.
  now rewrite (drop_while_fixed is_ws y Hy).
Qed.

Lemma forallb_rev (q : N -> bool) s : forallb q (rev s) = forallb q s.
Proof.
  induction s as [|c r IH]; [reflexivity|]. cbn [rev forallb].
  rewrite forallb_app, IH. cbn [forallb]. rewrite andb_true_r. apply andb_comm.
Qed.

Lemma forallb_trim (q : N -> bool) s : forallb q s = true -> forallb q (trim s) = true.
Proof.
  intros H. unfold trim. rewrite forallb_rev. apply forallb_drop_while.
  rewrite forallb_rev. now apply forallb_drop_while.
Qed.

Lemma split_on_pieces sep s :
  Forall (fun p => forallb (fun c => negb (c =? sep)%N) p = true) (split_on sep s).
Proof.
  induction s as [|c r IH]; [repeat constructor|]. cbn [split_on].
  destruct (c =? sep)%N eqn:E; [constructor; [reflexivity|exact IH]|].
  destruct (split_on sep r) as [|x xs]; [repeat constructor; cbn; now rewrite E|].
  inversion IH as [|? ? Hx Hxs]; subst. constructor; [|exact Hxs].
  cbn [forallb]. now rewrite E, Hx.
Qed.

(** *** CORS of server.js *)

Lemma allowed_entries env :
  Forall (fun e => e <> [] /\ trim e = e /\ no_comma e = true) (allowed env).
Proof.
  unfold allowed. pose proof (split_on_pieces 44 (or_else env [])) as H.
  induction H as [|p ps Hp _ IH]; [constructor|]. cbn [map List.filter].
  destruct (trim p) as [|c r] eqn:E; cbn [is_empty negb]; [exact IH|].
  constructor; [|exact IH]. rewrite <- E. split; [rewrite E; discriminate|].
  split; [apply trim_trim|]. now apply forallb_trim.
Qed.

Lemma filter_nil_blank parts :
  List.filter (fun s => negb (is_empty s)) (map trim parts) = []
  <-> Forall (fun p => blank p = true) parts.
Proof.
  induction parts as [|p ps IH]; [split; [constructor|reflexivity]|]. cbn [map List.filter].
  assert (Hb : blank p = is_empty (trim p)) by (unfold blank; now destruct (trim p)).
  destruct (trim p) as [|c r]; cbn [is_empty negb] in *.
  - rewrite IH. split; [now constructor|]. now inversion 1.
  - split; [discriminate|]. inversion 1. congruence.
Qed.

Lemma in_filter_trim o parts :
  o ∈ List.filter (fun s => negb (is_empty s)) (map trim parts)
  <-> o <> [] /\ exists p, p ∈ parts /\ trim p = o.
Proof.
  rewrite !list_elem_of_In, filter_In, in_map_iff. split.
  - intros [(p & <- & Hp) Hn]. split; [now destruct (trim p)|]. exists p.
    now rewrite list_elem_of_In.
  - intros [Hn (p & Hp & <-)]. split; [exists p; now rewrite <- list_elem_of_In|].
    now destruct (trim p).
Qed.

(** X23.  The origins of server.js.  For a value of ALLOWED_ORIGINS made
    of parts joined by commas, the list of accepted origins holds the
    parts trimmed, without the empty ones; every entry of the list is
    trimmed, not empty and has no comma.  A request with an origin is
    accepted when the origin is empty, when it is one of the trimmed
    parts, or when every part is blank: a value made of commas and
    white space lets every origin in. *)
Theorem X23_allowed_origins (parts : list jsstring) (origin : jsstring) :
  Forall (fun p => no_comma p = true) parts ->
  allowed (Some (join [44%N] parts))
    = List.filter (fun s => negb (is_empty s)) (map trim parts)
  /\ Forall (fun e => e <> [] /\ trim e = e /\ no_comma e = true)
       (allowed (Some (join [44%N] parts)))
  /\ (origin_allowed (allowed (Some (join [44%N] parts))) (Some origin) = true
      <-> origin = []
          \/ Forall (fun p => blank p = true) parts
          \/ exists p, p ∈ parts /\ trim p = origin).
Proof.
  intros Hp.
  assert (E : allowed (Some (join [44%N] parts))
              = List.filter (fun s => negb (is_empty s)) (map trim parts)).
  { unfold allowed. destruct parts as [|p ps]; [reflexivity|].
    destruct (join [44%N] (p :: ps)) as [|c r] eqn:Ej.
    - cbn [or_else split_on map List.filter].
      destruct ps as [|q ps]; [cbn [join] in Ej; subst p; reflexivity|].
      cbn [join] in Ej. destruct p; discriminate.
    - cbn [or_else]. rewrite <- Ej. rewrite split_on_join; [reflexivity|discriminate|exact Hp]. }
  split; [exact E|]. split; [apply allowed_entries|]. rewrite E.
  destruct origin as [|c o]; [cbn; tauto|]. cbn [origin_allowed].
  rewrite orb_true_iff, bool_decide_eq_true, in_filter_trim. split.
  - intros [H|[_ H]]; [|now right; right]. right. left. apply filter_nil_blank.
    apply Nat.eqb_eq in H. now destruct (List.filter _ _).
  - intros [H|[H|H]]; [discriminate| |].
    + left. apply filter_nil_blank in H. now rewrite H.
    + right. split; [discriminate|exact H].
Qed.

Lemma X23_allowed_origins_witness :
  Forall (fun p => no_comma p = true) sample_origins
  /\ allowed (Some (lit "https://a.example, https://b.example "))
     = [lit "https://a.example"; lit "https://b.example"].
Proof.
  assert (H : Forall (fun p => no_comma p = true) sample_origins) by (repeat constructor).
  split; [exact H|].
  exact (proj1 (X23_allowed_origins sample_origins (lit "https://b.example") H)).
Defined.

(** X24.  The origins of the beta.  Without a value of ALLOWED_ORIGINS,
    or with the empty one, the list is the single entry "*".  For a
    value made of parts joined by commas the list holds the parts as
    they are, not trimmed, and a request with an origin is accepted when
    the origin is empty, when it is one of the parts, or when "*" is one
    of the parts. *)
Theorem X24_beta_allowed_origins (parts : list jsstring) (origin : jsstring) :
  Forall (fun p => no_comma p = true) parts -> join [44%N] parts <> [] ->
  Beta.allowed None = [lit "*"]
  /\ Beta.allowed (Some []) = [lit "*"]
  /\ Beta.allowed (Some (join [44%N] parts)) = parts
  /\ (Beta.origin_allowed (Beta.allowed (Some (join [44%N] parts))) (Some origin) = true
      <-> origin = [] \/ lit "*" ∈ parts \/ origin ∈ parts).
Proof.
  intros Hp Hj.
  assert (E : Beta.allowed (Some (join [44%N] parts)) = parts).
  { unfold Beta.allowed. destruct (join [44%N] parts) as [|c r] eqn:Ej; [congruence|].
    cbn [or_else]. rewrite <- Ej. apply split_on_join; [|exact Hp].
    intros ->. discriminate. }
  split; [reflexivity|]. split; [reflexivity|]. split; [exact E|]. rewrite E.
  destruct origin as [|c o]; [cbn; tauto|]. cbn [Beta.origin_allowed].
  rewrite orb_true_iff, !bool_decide_eq_true. split; [tauto|].
  intros [H|H]; [discriminate|exact H].
Qed.

Lemma X24_beta_allowed_origins_witness :
  Forall (fun p => no_comma p = true) sample_origins
  /\ join [44%N] sample_origins <> []
  /\ Beta.allowed (Some (lit "https://a.example, https://b.example ")) = sample_origins.
Proof.
  assert (H : Forall (fun p => no_comma p = true) sample_origins) by (repeat constructor).
  assert (H' : join [44%N] sample_origins <> []) by discriminate.
  split; [exact H|]. split; [exact H'|].
  exact (proj1 (proj2 (proj2 (X24_beta_allowed_origins sample_origins [] H H')))).
Defined.
